(** * ESL error annotator: the batch pipeline and its collaborators

    A shallow embedding of the TypeScript sources of the annotator:

    - [Js]: the fragment of the JavaScript run time the sources rely on
      (thrown errors, [try]/[catch], strings, [slice], [trim], [includes]);
    - [Types]: [types.ts];
    - [SupabaseClient]: [saveRecord] of [services/supabaseClient.ts];
    - [Binary64]: the arithmetic of doubles, for the waits of the retries;
    - [GeminiDirect]: the [analyzeText] that calls the model itself and
      retries (the second document of [services/supabaseClient.ts]);
    - [GeminiService]: the [analyzeText] of [services/geminiService.ts],
      which posts the text to the backend;
    - [BatchProcessor]: [parseCSV], [processQueue] and the operator controls
      of the batch component;
    - [AnnotationView]: [renderText];
    - [BatchInput]: [handleTextSubmit] and [handleFileUpload];
    - [SupabaseHistory]: [fetchHistory];
    - [App]: [handleAnalyze] and the handlers around it in [App.tsx];
    - [JsObject], [StatsSummary], [StatisticsView]: the counters and the
      charts of the statistics;
    - [Server]: the handler of [POST /analyze] in [server/index.js].

    The programs come first (Part I), then the vocabulary the properties
    are stated in (Part II), then the properties (Part III). *)

From Stdlib Require Import ZArith List String Ascii Bool Lia.
From Stdlib Require Import QArith Qround Qpower Qabs Lqa DecimalString.
From Stdlib Require DecimalPos DecimalZ.
From Stdlib Require Import Sorted Permutation.
From Stdlib Require Import Floats.SpecFloat.
Import ListNotations.
Close Scope Q_scope.
Open Scope string_scope.
Open Scope list_scope.
Open Scope Z_scope.

(* ===================================================================== *)
(** * Part I: the programs *)
(* ===================================================================== *)

(** ** The JavaScript fragment *)

Module Js.

(** A thrown value.  The sources only ever look at [message] and
    [status]; either can be missing ([error.message?.includes]). *)
Record Error := mkErr { message : option string; status : option Z }.

(** [new Error(msg)] *)
Definition newError (msg : string) : Error :=
  {| message := Some msg; status := None |}.

(** How an evaluation ends: with a value, or with a thrown error. *)
Inductive Completion (A : Type) : Type :=
| Normal (a : A)
| Throw (e : Error).
Arguments Normal {A} a.
Arguments Throw {A} e.

(** An effectful computation over a store [S].  Unlike a state monad
    stacked on an error monad, what was written before a [throw] is
    still there in the handler: this is how JavaScript behaves. *)
Definition Eff (S A : Type) : Type := S -> Completion A * S.

Section Monad.
Context {S : Type}.

Definition ret {A} (a : A) : Eff S A := fun s => (Normal a, s).

Definition throw {A} (e : Error) : Eff S A := fun s => (Throw e, s).

Definition bind {A B} (m : Eff S A) (k : A -> Eff S B) : Eff S B :=
  fun s =>
    match m s with
    | (Normal a, s') => k a s'
    | (Throw e, s') => (Throw e, s')
    end.

(** [try { body } catch (e) { handler }] *)
Definition try_catch {A} (body : Eff S A) (handler : Error -> Eff S A)
  : Eff S A :=
  fun s =>
    match body s with
    | (Normal a, s') => (Normal a, s')
    | (Throw e, s') => handler e s'
    end.

Definition modify (f : S -> S) : Eff S unit := fun s => (Normal tt, f s).

Definition gets {A} (f : S -> A) : Eff S A := fun s => (Normal (f s), s).

(** Awaiting a promise that settles with [c]. *)
Definition settle {A} (c : Completion A) : Eff S A := fun s => (c, s).
End Monad.

(** Run a computation on a part [T] of the store [S]. *)
Definition zoom {S T A} (get : S -> T) (set : T -> S -> S) (m : Eff T A)
  : Eff S A :=
  fun s => let (c, t) := m (get s) in (c, set t s).

Module Notations.
Declare Scope eff_scope.
Delimit Scope eff_scope with eff.
Notation "x <- m ;; k" := (bind m (fun x => k))
  (at level 61, m at next level, right associativity) : eff_scope.
Notation "m ;; k" := (bind m (fun _ => k))
  (at level 61, right associativity) : eff_scope.
End Notations.

(** *** Strings

    A string is its sequence of code units; the model covers the code
    units below 256. *)

Definition LF : ascii := "010"%char.
Definition CR : ascii := "013"%char.
Definition QUOTE : ascii := "034"%char.

(** White space and line terminators of [String.prototype.trim], among
    the code units below 256: TAB, LF, VT, FF, CR, SP and NBSP. *)
Definition isWhiteSpace (c : ascii) : bool :=
  let n := nat_of_ascii c in
  (Nat.leb 9 n && Nat.leb n 13) || Nat.eqb n 32 || Nat.eqb n 160.

Fixpoint trimStart (s : string) : string :=
  match s with
  | "" => ""
  | String c rest => if isWhiteSpace c then trimStart rest else s
  end.

Fixpoint trimEnd (s : string) : string :=
  match s with
  | "" => ""
  | String c rest =>
      match trimEnd rest with
      | "" => if isWhiteSpace c then "" else String c ""
      | kept => String c kept
      end
  end.

Definition trim (s : string) : string := trimEnd (trimStart s).

(** A string is truthy when it is not empty. *)
Definition truthy (s : string) : bool :=
  match s with "" => false | _ => true end.

(** [hay.includes(needle)] *)
Definition includes (hay needle : string) : bool :=
  match String.index 0 needle hay with Some _ => true | None => false end.

(** [s.slice(start, end)]: negative positions count from the end, both
    are clamped to the string, and an empty range gives [""]. *)
Definition clampIndex (len k : Z) : Z :=
  if k <? 0 then Z.max (len + k) 0 else Z.min k len.

Definition slice (s : string) (start : Z) (stop : option Z) : string :=
  let len := Z.of_nat (String.length s) in
  let from := clampIndex len start in
  let to := match stop with None => len | Some e => clampIndex len e end in
  if to <=? from then ""
  else substring (Z.to_nat from) (Z.to_nat (to - from)) s.

End Js.

Import Js Js.Notations.

(** ** [types.ts] *)

Module Types.

Record Annotation := {
  original_span : string;
  corrected_span : string;
  start_index : Z;
  end_index : Z;
  error_code : string;
  macro_code : string;
  explanation : string
}.

Record AnalysisResult := {
  original_text : string;
  corrected_text : string;
  annotations : list Annotation
}.

(** What the model answers, as parsed: the schema asks for
    [corrected_text] and [annotations], and nothing keeps the answer from
    holding an [original_text] of its own. *)
Record Answer := {
  answer_original_text : option string;
  answer_corrected_text : string;
  answer_annotations : list Annotation
}.

(** [{ original_text: text, ...result }]: the spread comes last, so an
    [original_text] of the answer replaces the text that was sent. *)
Definition withOriginal (text : string) (result : Answer) : AnalysisResult :=
  {| original_text :=
       match answer_original_text result with
       | Some own => own
       | None => text
       end;
     corrected_text := answer_corrected_text result;
     annotations := answer_annotations result |}.

End Types.

Import Types.

(** ** [services/supabaseClient.ts]: [saveRecord] *)

Module SupabaseClient.

(** The row sent to the table [essay_analyses]. *)
Record Row := {
  row_original_text : string;
  row_corrected_text : string;
  analysis_json : list Annotation;
  error_count : Z
}.

(** What [insert(...).select()] resolves to: [{ data, error }]. *)
Record Response := {
  data : option (list Row);
  error : option Js.Error
}.

(** What the client leaves behind: the rows it was asked to insert and
    the lines it wrote with [console.error]. *)
Inductive Effect :=
| Insert (row : Row)
| ConsoleError (tag : string) (e : Js.Error).

Definition Log := list Effect.

Definition emit (e : Effect) : Eff Log unit := modify (fun log => log ++ [e]).

Fixpoint inserts (log : Log) : nat :=
  match log with
  | [] => 0%nat
  | Insert _ :: rest => S (inserts rest)
  | ConsoleError _ _ :: rest => inserts rest
  end.

Section WithDatabase.
(** The database: how the [n]-th insert of the session settles.  The
    promise may also reject (the request never got through). *)
Variable database : nat -> Row -> Completion Response.

Definition insertRow (row : Row) : Eff Log Response :=
  (n <- gets inserts ;;
   emit (Insert row) ;;
   settle (database n row))%eff.

Definition saveRecord (record : AnalysisResult)
  : Eff Log (option (list Row)) :=
  try_catch
    (response <- insertRow
         {| row_original_text := original_text record;
            row_corrected_text := corrected_text record;
            analysis_json := annotations record;
            error_count := Z.of_nat (List.length (annotations record)) |} ;;
     match error response with
     | Some err =>
         emit (ConsoleError "Supabase Error:" err) ;;
         throw err
     | None => ret (data response)
     end)%eff
    (fun err =>
       emit (ConsoleError "Failed to save record:" err) ;;
       ret None)%eff.
End WithDatabase.

End SupabaseClient.


(** ** The numbers of JavaScript

    A number is a double (IEEE 754 binary64): the result of an addition
    or a multiplication is the double nearest to the exact result, the one
    with the even significand when two are equally near.  The exact
    results are rationals; those of this program stay far below [2^1024],
    where the doubles end. *)

Module Binary64.

(** [floor (log2 x)], for [x > 0] *)
Definition ilog2 (x : Q) : Z :=
  let k := Z.log2 (Qnum x) - Z.log2 (Z.pos (Qden x)) in
  if Qle_bool (2 ^ k) x then k else k - 1.

(** The exponent of the unit in the last place at [x]: the doubles
    between [2^k] and [2^(k+1)] are the multiples of [2^(k-52)], and
    those below [2^-1022] the multiples of [2^-1074]. *)
Definition ulp (x : Q) : Z := Z.max (ilog2 (Qabs x) - 52) (-1074).

(** The integer nearest to [y], the even one of two equally near. *)
Definition nearestEven (y : Q) : Z :=
  let f := Qfloor y in
  match Qcompare (y - inject_Z f) (1 # 2) with
  | Lt => f
  | Gt => f + 1
  | Eq => if Z.even f then f else f + 1
  end.

(** The double nearest to [x]. *)
Definition round (x : Q) : Q :=
  if Qeq_bool x 0 then 0%Q
  else (inject_Z (nearestEven (x / 2 ^ ulp x)) * 2 ^ ulp x)%Q.

(** [x + y] and [x * y] *)
Definition add (x y : Q) : Q := round (x + y).
Definition mul (x y : Q) : Q := round (x * y).

(** [Math.pow(2, n)], for an integer [n] *)
Definition pow2 (n : Z) : Q := round (2 ^ n).

End Binary64.

(** ** The direct client: [analyzeText] with retries

    The second document of [services/supabaseClient.ts]: the client calls
    the model from the browser and retries when it is rate limited or
    overloaded. *)

Module GeminiDirect.

(** What a call leaves behind, in order. *)
Inductive Effect :=
| GenerateContent (text : string)
| ConsoleWarn (waitTime : Q) (attempt : Z)   (* shown rounded *)
| ConsoleError (e : Js.Error)
| Delay (ms : Q).

Definition Log := list Effect.

Definition emit (e : Effect) : Eff Log unit := modify (fun log => log ++ [e]).

Definition maxRetries : Z := 5.
Definition baseDelay : Z := 2000.

Definition statusIs (code : Z) (e : Js.Error) : bool :=
  match status e with Some s => s =? code | None => false end.

Definition messageIncludes (needle : string) (e : Js.Error) : bool :=
  match message e with Some m => includes m needle | None => false end.

Definition isRateLimit (e : Js.Error) : bool :=
  messageIncludes "429" e || statusIs 429 e.

Definition isServerOverload (e : Js.Error) : bool :=
  messageIncludes "503" e || statusIs 503 e.

(** [baseDelay * Math.pow(2, retries) + Math.random() * 1000], on
    doubles. *)
Definition waitTime (retries : Z) (rnd : Q) : Q :=
  Binary64.add
    (Binary64.mul (inject_Z baseDelay) (Binary64.pow2 retries))
    (Binary64.mul rnd (inject_Z 1000)).

Section WithModel.
(** [process.env.API_KEY] *)
Variable API_KEY : option string.
(** [response.text] of the [n]-th request of a call, or the error the
    request throws. *)
Variable generateContent : nat -> string -> Completion string.
(** [JSON.parse] on the answer. *)
Variable parse : string -> Completion Answer.
(** [Math.random()] as drawn before the [n]-th wait. *)
Variable random : nat -> Q.

(** The body of the [try]: one request, then the parse of its answer. *)
Definition request (n : nat) (text : string) : Eff Log AnalysisResult :=
  (emit (GenerateContent text) ;;
   jsonText <- settle (generateContent n text) ;;
   if truthy jsonText
   then result <- settle (parse jsonText) ;; ret (withOriginal text result)
   else throw (newError "Empty response from AI"))%eff.

(** [while (retries < maxRetries) { try ... catch ... }], then the final
    [throw].  [fuel] bounds the iterations; [None] is a loop cut short by
    it. *)
Fixpoint retryLoop (fuel : nat) (text : string) (retries : Z)
  : Eff Log (option AnalysisResult) :=
  if retries <? maxRetries then
    match fuel with
    | O => ret None
    | S fuel' =>
        try_catch
          (result <- request (Z.to_nat retries) text ;; ret (Some result))%eff
          (fun error =>
             if (isRateLimit error || isServerOverload error)
                && (retries <? maxRetries)
             then
               let retries := retries + 1 in
               let wait := waitTime retries (random (Z.to_nat retries)) in
               (emit (ConsoleWarn wait retries) ;;
                emit (Delay wait) ;;
                retryLoop fuel' text retries)%eff
             else
               (emit (ConsoleError error) ;;
                throw error)%eff)
    end
  else throw (newError "Max retries exceeded for Gemini API").

Definition analyzeText (text : string) : Eff Log (option AnalysisResult) :=
  match API_KEY with
  | None | Some "" => throw (newError "API Key is missing")
  | Some _ => retryLoop (Z.to_nat maxRetries) text 0
  end.
End WithModel.

(** The requests and the waits of a log. *)
Fixpoint requests (log : Log) : list string :=
  match log with
  | [] => []
  | GenerateContent text :: rest => text :: requests rest
  | _ :: rest => requests rest
  end.

Fixpoint delays (log : Log) : list Q :=
  match log with
  | [] => []
  | Delay ms :: rest => ms :: delays rest
  | _ :: rest => delays rest
  end.

End GeminiDirect.

(** ** [services/geminiService.ts]: [analyzeText] through the backend *)

Module GeminiService.

(** The part of a fetch [Response] the client reads. *)
Record Response := {
  ok : bool;
  status : Z;
  text : string;               (* [await response.text()] *)
  json : Completion Answer     (* [await response.json()] *)
}.

Inductive Effect :=
| Fetch (url : string) (text : string).

Definition Log := list Effect.

Definition emit (e : Effect) : Eff Log unit := modify (fun log => log ++ [e]).

(** [url.replace(/\/+$/, '')] *)
Fixpoint normalizeBaseUrl (url : string) : string :=
  match url with
  | "" => ""
  | String c rest =>
      match normalizeBaseUrl rest with
      | "" => if Ascii.eqb c "/" then "" else String c ""
      | kept => String c kept
      end
  end.

Definition showStatus (n : Z) : string :=
  DecimalString.NilZero.string_of_int (Z.to_int n).

Section WithBackend.
(** [typeof window !== 'undefined'] *)
Variable hasWindow : bool.
(** [localStorage.getItem('api_base_url')] *)
Variable stored_api_base_url : option string.
(** [import.meta.env.VITE_API_BASE_URL] *)
Variable VITE_API_BASE_URL : option string.
(** [fetch]: the response, or the error of a request that never got one. *)
Variable fetch : string -> string -> Completion Response.
(** [JSON.parse(errorText)?.error], when the text parses and the field is
    truthy. *)
Variable errorField : string -> option string.

Definition orEmpty (s : option string) : string :=
  match s with Some v => v | None => "" end.

Definition getApiBaseUrl : string :=
  if hasWindow && truthy (orEmpty stored_api_base_url)
  then orEmpty stored_api_base_url
  else orEmpty VITE_API_BASE_URL.

Definition analyzeText (input : string) : Eff Log AnalysisResult :=
  let apiBaseUrl := getApiBaseUrl in
  if negb (truthy apiBaseUrl) then throw (newError "API URL is missing")
  else
    (let url := (normalizeBaseUrl apiBaseUrl ++ "/analyze")%string in
     emit (Fetch url input) ;;
     response <- settle (fetch url input) ;;
     if negb (ok response) then
       let errorText := text response in
       let message :=
         match errorField errorText with
         | Some e => e
         | None => errorText
         end in
       throw (newError
                (if truthy message then message
                 else ("Request failed (" ++ showStatus (status response)
                       ++ ")")%string))
     else
       result <- settle (json response) ;;
       ret (withOriginal input result))%eff.
End WithBackend.

End GeminiService.


(** ** The batch component: [parseCSV], [processQueue], the controls *)

Module BatchProcessor.

(** *** [parseCSV] *)

(** [text.replace(/\r\n/g, '\n')] *)
Fixpoint replaceCRLF (s : string) : string :=
  match s with
  | "" => ""
  | String c rest =>
      match rest with
      | String c' rest' =>
          if Ascii.eqb c CR && Ascii.eqb c' LF
          then String LF (replaceCRLF rest')
          else String c (replaceCRLF rest)
      | "" => String c ""
      end
  end.

(** [.replace(/\r/g, '\n')] *)
Fixpoint replaceCR (s : string) : string :=
  match s with
  | "" => ""
  | String c rest =>
      String (if Ascii.eqb c CR then LF else c) (replaceCR rest)
  end.

(** [if (current.trim()) results.push(current.trim())] *)
Definition pushTrimmed (results : list string) (current : string)
  : list string :=
  if truthy (trim current) then results ++ [trim current] else results.

(** The [for] loop over the characters of [normalized], from position [i]
    on: the argument is what is left of the text at [i].  The loop ends
    with [results] and [current]. *)
Fixpoint scan (normalized : string) (results : list string)
  (current : string) (inQuote : bool) : list string * string :=
  match normalized with
  | "" => (results, current)
  | String char rest =>
      if inQuote then
        if Ascii.eqb char QUOTE then
          match rest with
          | String next rest' =>
              if Ascii.eqb next QUOTE
              then scan rest' results (current ++ String QUOTE "")%string true
              else scan rest results current false
          | "" => scan rest results current false
          end
        else scan rest results (current ++ String char "")%string true
      else
        if Ascii.eqb char QUOTE then scan rest results current true
        else if Ascii.eqb char LF
             then scan rest (pushTrimmed results current) "" false
             else scan rest results (current ++ String char "")%string false
  end.

Definition parseCSV (text : string) : list string :=
  let normalized := replaceCR (replaceCRLF text) in
  let (results, current) := scan normalized [] "" false in
  pushTrimmed results current.

(** *** The component's state *)

Record Progress := {
  current : Z;
  total : Z;
  success : Z;
  failed : Z
}.

(** What the operator can click while a batch is running: the two
    buttons of the control bar. *)
Inductive Action :=
| ClickPause
| ClickStop (confirmed : bool).

(** What a render after an item shows. *)
Record Snapshot := {
  shown_progress : Progress;
  shown_results : list AnalysisResult;
  shown_latest : option AnalysisResult
}.

(** What a run leaves behind, in order. *)
Inductive Effect :=
| Classify (text : string)
| ConsoleError (e : Js.Error)
| Render (view : Snapshot)
| SetTimeout (ms : Z)
| OnComplete.

(** The React state of the component, its two refs, the store client's
    log, the trace of the run, and the operator's clicks still to come:
    one batch of clicks for every point at which the run awaits. *)
Record World := {
  isProcessing : bool;
  isPaused : bool;
  progress : Progress;
  displayResults : list AnalysisResult;
  batchAnnotations : list Annotation;
  latestResult : option AnalysisResult;
  stopRef : bool;
  pauseRef : bool;
  store : SupabaseClient.Log;
  trace : list Effect;
  pending : list (list Action)
}.

Definition setIsProcessing (v : bool) (w : World) : World :=
  {| isProcessing := v; isPaused := isPaused w; progress := progress w;
     displayResults := displayResults w;
     batchAnnotations := batchAnnotations w; latestResult := latestResult w;
     stopRef := stopRef w; pauseRef := pauseRef w; store := store w;
     trace := trace w; pending := pending w |}.

Definition setIsPaused (v : bool) (w : World) : World :=
  {| isProcessing := isProcessing w; isPaused := v; progress := progress w;
     displayResults := displayResults w;
     batchAnnotations := batchAnnotations w; latestResult := latestResult w;
     stopRef := stopRef w; pauseRef := pauseRef w; store := store w;
     trace := trace w; pending := pending w |}.

Definition setProgress (f : Progress -> Progress) (w : World) : World :=
  {| isProcessing := isProcessing w; isPaused := isPaused w;
     progress := f (progress w); displayResults := displayResults w;
     batchAnnotations := batchAnnotations w; latestResult := latestResult w;
     stopRef := stopRef w; pauseRef := pauseRef w; store := store w;
     trace := trace w; pending := pending w |}.

Definition setDisplayResults
  (f : list AnalysisResult -> list AnalysisResult) (w : World) : World :=
  {| isProcessing := isProcessing w; isPaused := isPaused w;
     progress := progress w; displayResults := f (displayResults w);
     batchAnnotations := batchAnnotations w; latestResult := latestResult w;
     stopRef := stopRef w; pauseRef := pauseRef w; store := store w;
     trace := trace w; pending := pending w |}.

Definition setBatchAnnotations
  (f : list Annotation -> list Annotation) (w : World) : World :=
  {| isProcessing := isProcessing w; isPaused := isPaused w;
     progress := progress w; displayResults := displayResults w;
     batchAnnotations := f (batchAnnotations w);
     latestResult := latestResult w;
     stopRef := stopRef w; pauseRef := pauseRef w; store := store w;
     trace := trace w; pending := pending w |}.

Definition setLatestResult (v : option AnalysisResult) (w : World) : World :=
  {| isProcessing := isProcessing w; isPaused := isPaused w;
     progress := progress w; displayResults := displayResults w;
     batchAnnotations := batchAnnotations w; latestResult := v;
     stopRef := stopRef w; pauseRef := pauseRef w; store := store w;
     trace := trace w; pending := pending w |}.

Definition setStopRef (v : bool) (w : World) : World :=
  {| isProcessing := isProcessing w; isPaused := isPaused w;
     progress := progress w; displayResults := displayResults w;
     batchAnnotations := batchAnnotations w; latestResult := latestResult w;
     stopRef := v; pauseRef := pauseRef w; store := store w;
     trace := trace w; pending := pending w |}.

Definition setPauseRef (v : bool) (w : World) : World :=
  {| isProcessing := isProcessing w; isPaused := isPaused w;
     progress := progress w; displayResults := displayResults w;
     batchAnnotations := batchAnnotations w; latestResult := latestResult w;
     stopRef := stopRef w; pauseRef := v; store := store w;
     trace := trace w; pending := pending w |}.

Definition setStore (v : SupabaseClient.Log) (w : World) : World :=
  {| isProcessing := isProcessing w; isPaused := isPaused w;
     progress := progress w; displayResults := displayResults w;
     batchAnnotations := batchAnnotations w; latestResult := latestResult w;
     stopRef := stopRef w; pauseRef := pauseRef w; store := v;
     trace := trace w; pending := pending w |}.

Definition setTrace (f : list Effect -> list Effect) (w : World) : World :=
  {| isProcessing := isProcessing w; isPaused := isPaused w;
     progress := progress w; displayResults := displayResults w;
     batchAnnotations := batchAnnotations w; latestResult := latestResult w;
     stopRef := stopRef w; pauseRef := pauseRef w; store := store w;
     trace := f (trace w); pending := pending w |}.

Definition setPending (v : list (list Action)) (w : World) : World :=
  {| isProcessing := isProcessing w; isPaused := isPaused w;
     progress := progress w; displayResults := displayResults w;
     batchAnnotations := batchAnnotations w; latestResult := latestResult w;
     stopRef := stopRef w; pauseRef := pauseRef w; store := store w;
     trace := trace w; pending := v |}.

Definition record (e : Effect) (w : World) : World :=
  setTrace (fun t => t ++ [e]) w.

(** The component as mounted, with the clicks that are going to come. *)
Definition mount (clicks : list (list Action)) : World :=
  {| isProcessing := false; isPaused := false;
     progress := {| current := 0; total := 0; success := 0; failed := 0 |};
     displayResults := []; batchAnnotations := []; latestResult := None;
     stopRef := false; pauseRef := false; store := []; trace := [];
     pending := clicks |}.

(** The texts handed to the classifier, in order. *)
Fixpoint classified (t : list Effect) : list string :=
  match t with
  | [] => []
  | Classify text :: rest => text :: classified rest
  | _ :: rest => classified rest
  end.

(** The snapshots rendered, in order. *)
Fixpoint rendered (t : list Effect) : list Snapshot :=
  match t with
  | [] => []
  | Render view :: rest => view :: rendered rest
  | _ :: rest => rendered rest
  end.

(** How often [onComplete] was called. *)
Fixpoint completions (t : list Effect) : nat :=
  match t with
  | [] => 0%nat
  | OnComplete :: rest => S (completions rest)
  | _ :: rest => completions rest
  end.

(** *** The operator's controls *)

(** [setIsPaused(!isPaused)]; the effect on [isPaused] then copies the new
    value into [pauseRef]. *)
Definition togglePause (w : World) : World :=
  let paused := negb (isPaused w) in
  setPauseRef paused (setIsPaused paused w).

Definition handleStop (confirmed : bool) (w : World) : World :=
  if confirmed then setIsProcessing false (setStopRef true w) else w.

(** Both buttons are rendered only while [isProcessing] holds.  Once a
    stop is confirmed the component renders New Batch or the input form
    in their place, while the stopped loop can still be waiting for its
    item; a click on those is not among the actions, and a batch started
    there would run alongside the stopped loop.  What would not survive
    such a click is stated for runs in which no stop is confirmed. *)
Definition click (w : World) (a : Action) : World :=
  if isProcessing w then
    match a with
    | ClickPause => togglePause w
    | ClickStop confirmed => handleStop confirmed w
    end
  else w.

Definition deliver (clicks : list Action) (w : World) : World :=
  fold_left click clicks w.

(** An [await]: the run yields, and the clicks made meanwhile are handled
    before it goes on. *)
Definition await : Eff World unit :=
  fun w =>
    match pending w with
    | [] => (Normal tt, w)
    | clicks :: later => (Normal tt, deliver clicks (setPending later w))
    end.

(** [await new Promise(resolve => setTimeout(resolve, ms))] *)
Definition sleep (ms : Z) : Eff World unit :=
  (modify (record (SetTimeout ms)) ;; await)%eff.

(** *** [processQueue] *)

Definition MAX_DISPLAY_HISTORY : Z := 100.

(** [[result, ...prev].slice(0, MAX_DISPLAY_HISTORY)] *)
Definition prepend (result : AnalysisResult) (prev : list AnalysisResult)
  : list AnalysisResult :=
  firstn (Z.to_nat MAX_DISPLAY_HISTORY) (result :: prev).

Definition render : Eff World unit :=
  modify (fun w =>
            record (Render {| shown_progress := progress w;
                              shown_results := displayResults w;
                              shown_latest := latestResult w |}) w).

Definition countSuccess (prev : Progress) : Progress :=
  {| current := current prev + 1; total := total prev;
     success := success prev + 1; failed := failed prev |}.

Definition countFailure (prev : Progress) : Progress :=
  {| current := current prev + 1; total := total prev;
     success := success prev; failed := failed prev + 1 |}.

Definition errorResult (text : string) : AnalysisResult :=
  {| original_text := text;
     corrected_text := "Error processing this item.";
     annotations := [] |}.

(** How a wait in the pause loop ends: the loop is left, or it polls for
    ever because no click is coming any more. *)
Inductive Wait :=
| Resumed (w : World)
| Polling (w : World).

(** How [processQueue] ends: it returns, it polls for ever in the pause
    loop, or its promise rejects. *)
Inductive Run :=
| Returned (w : World)
| Paused (w : World)
| Rejected (e : Js.Error) (w : World).

Section WithCollaborators.
(** How the classifier settles the [n]-th text it is given. *)
Variable analyzeText : nat -> string -> Completion AnalysisResult.
(** The database behind [saveRecord]. *)
Variable database :
  nat -> SupabaseClient.Row -> Completion SupabaseClient.Response.

(** [await analyzeText(text)] *)
Definition classify (text : string) : Eff World AnalysisResult :=
  (n <- gets (fun w => List.length (classified (trace w))) ;;
   modify (record (Classify text)) ;;
   await ;;
   settle (analyzeText n text))%eff.

(** [await saveRecord(result)] *)
Definition save (result : AnalysisResult)
  : Eff World (option (list SupabaseClient.Row)) :=
  (saved <- zoom store setStore (SupabaseClient.saveRecord database result) ;;
   await ;;
   ret saved)%eff.

(** The body of the [for] loop after the pause loop: the [try], its
    [catch], and the delay. *)
Definition processItem (text : string) : Eff World unit :=
  (try_catch
     (result <- classify text ;;
      save result ;;
      modify (setLatestResult (Some result)) ;;
      modify (setDisplayResults (prepend result)) ;;
      modify (setBatchAnnotations (fun prev => prev ++ annotations result)) ;;
      modify (setProgress countSuccess) ;;
      render)
     (fun error =>
        modify (record (ConsoleError error)) ;;
        modify (setDisplayResults (prepend (errorResult text))) ;;
        modify (setProgress countFailure) ;;
        render) ;;
   sleep 100)%eff.

(** [while (pauseRef.current) { if (stopRef.current) break; await ... }]:
    [queue] is the clicks still to come; each turn of the loop sleeps for
    500 ms and takes the clicks made meanwhile.  The inner [break] leaves
    this loop only. *)
Fixpoint pauseLoop (queue : list (list Action)) (w : World) : Wait :=
  if pauseRef w then
    if stopRef w then Resumed (setPending queue w)
    else
      match queue with
      | [] => Polling (setPending [] (record (SetTimeout 500) w))
      | clicks :: later =>
          pauseLoop later (deliver clicks (record (SetTimeout 500) w))
      end
  else Resumed (setPending queue w).

(** [for (const text of items) { ... }] *)
Fixpoint forLoop (items : list string) (w : World) : Run :=
  match items with
  | [] => Returned w
  | text :: rest =>
      if stopRef w then Returned w
      else
        match pauseLoop (pending w) w with
        | Polling w' => Paused w'
        | Resumed w' =>
            match processItem text w' with
            | (Normal _, w'') => forLoop rest w''
            | (Throw e, w'') => Rejected e w''
            end
        end
  end.

Definition processQueue (items : list string) (w : World) : Run :=
  let w := setIsProcessing true w in
  let w := setStopRef false w in
  let w := setPauseRef false w in
  let w := setIsPaused false w in
  match forLoop items w with
  | Returned w' => Returned (record OnComplete (setIsProcessing false w'))
  | stuck => stuck
  end.

Definition handleStart (inputs : list string) (w : World) : Run :=
  let w := setDisplayResults (fun _ => []) w in
  let w := setBatchAnnotations (fun _ => []) w in
  let w := setLatestResult None w in
  let w := setProgress
             (fun _ => {| current := 0;
                          total := Z.of_nat (List.length inputs);
                          success := 0; failed := 0 |}) w in
  processQueue inputs w.
End WithCollaborators.

(** The world a run ends or hangs in. *)
Definition final (r : Run) : World :=
  match r with
  | Returned w | Paused w | Rejected _ w => w
  end.

End BatchProcessor.


(** ** The annotation view: [renderText] *)

Module AnnotationView.

(** What [renderText] pushes: plain text, or the text of an annotation. *)
Inductive Element :=
| Plain (content : string)
| Marked (ann : Annotation) (content : string).

Definition content (e : Element) : string :=
  match e with
  | Plain c => c
  | Marked _ c => c
  end.

(** The text a list of elements shows. *)
Fixpoint shownText (elements : list Element) : string :=
  match elements with
  | [] => ""
  | e :: rest => (content e ++ shownText rest)%string
  end.

(** [[...annotations].sort((a, b) => a.start_index - b.start_index)].
    The sort of an array is stable: annotations that compare equal keep
    their order. *)
Fixpoint insert (a : Annotation) (sorted : list Annotation)
  : list Annotation :=
  match sorted with
  | [] => [a]
  | b :: rest =>
      if start_index a - start_index b <=? 0
      then a :: sorted
      else b :: insert a rest
  end.

Definition sortAnnotations (annotations : list Annotation)
  : list Annotation :=
  fold_right insert [] annotations.

(** The body of the [forEach]. *)
Definition pushAnnotation (originalText : string)
  (acc : list Element * Z) (ann : Annotation) : list Element * Z :=
  let (elements, lastIndex) := acc in
  let elements :=
    if start_index ann >? lastIndex
    then elements
           ++ [Plain (slice originalText lastIndex (Some (start_index ann)))]
    else elements in
  let errorText :=
    slice originalText (start_index ann) (Some (end_index ann)) in
  (elements ++ [Marked ann errorText], end_index ann).

Definition renderText (originalText : string) (annotations : list Annotation)
  : list Element :=
  let sortedAnnotations := sortAnnotations annotations in
  let (elements, lastIndex) :=
    fold_left (pushAnnotation originalText) sortedAnnotations ([], 0) in
  if lastIndex <? Z.of_nat (String.length originalText)
  then elements ++ [Plain (slice originalText lastIndex None)]
  else elements.

End AnnotationView.

(** ** The batch component: where a batch comes from *)

Module BatchInput.
Import BatchProcessor.

(** [s.split('\n')] *)
Fixpoint splitLines (s : string) : list string :=
  match s with
  | "" => [""]
  | String c rest =>
      if Ascii.eqb c LF then "" :: splitLines rest
      else
        match splitLines rest with
        | first :: more => String c first :: more
        | [] => [String c ""]
        end
  end.

(** [line.trim().length > 0] *)
Definition notBlank (line : string) : bool :=
  Z.of_nat (String.length (trim line)) >? 0.

(** [name.endsWith(suffix)] *)
Definition endsWith (name suffix : string) : bool :=
  let n := String.length name in
  let m := String.length suffix in
  if Nat.leb m n then String.eqb (substring (n - m) m name) suffix
  else false.

(** The file the operator picked: its name, and the text the
    [FileReader] hands to [onload]. *)
Record File := {
  name : string;
  content : string
}.

(** What [JSON.parse] returns, as far as the upload looks at it: an
    array, of which every item is a string or has the text
    [JSON.stringify] gives for it, or something that is not an array. *)
Inductive JsonItem :=
| JString (s : string)
| JValue (stringified : string).

Inductive Json :=
| JArray (items : list JsonItem)
| JNotArray.

(** How an upload ends: no file was picked, an [alert] is shown, or a
    batch is started. *)
Inductive Upload :=
| NoFile
| Alerted (message : string)
| Started (run : Run).

Section WithCollaborators.
Variable analyzeText : nat -> string -> Completion AnalysisResult.
Variable database :
  nat -> SupabaseClient.Row -> Completion SupabaseClient.Response.
(** [JSON.parse] *)
Variable JSON_parse : string -> Completion Json.

(** [handleTextSubmit], on the text of the text box; [None] when it
    returns without starting a batch. *)
Definition handleTextSubmit (textInput : string) (w : World) : option Run :=
  let lines := filter notBlank (splitLines textInput) in
  if Z.of_nat (List.length lines) =? 0 then None
  else Some (handleStart analyzeText database lines w).

(** [typeof item === 'string' ? item : JSON.stringify(item)] *)
Definition itemText (item : JsonItem) : string :=
  match item with
  | JString s => s
  | JValue stringified => stringified
  end.

(** The lines read from the file; [None] when [JSON.parse] throws. *)
Definition readLines (file : File) : option (list string) :=
  if endsWith (name file) ".json" then
    match JSON_parse (content file) with
    | Normal (JArray items) => Some (map itemText items)
    | Normal JNotArray => Some []
    | Throw _ => None
    end
  else Some (parseCSV (content file)).

(** [handleFileUpload] and the [onload] of its reader. *)
Definition handleFileUpload (file : option File) (w : World) : Upload :=
  match file with
  | None => NoFile
  | Some file =>
      match readLines file with
      | None => Alerted "Invalid JSON file"
      | Some lines =>
          let validLines := filter notBlank lines in
          if Z.of_nat (List.length validLines) >? 0
          then Started (handleStart analyzeText database validLines w)
          else Alerted "No valid text found in file."
      end
  end.
End WithCollaborators.

End BatchInput.

(** ** [services/supabaseClient.ts]: [fetchHistory] *)

Module SupabaseHistory.

(** A row of [essay_analyses] as [select('*')] returns it. *)
Record Item := {
  item_id : option Z;
  item_created_at : option string;
  item_original_text : string;
  item_corrected_text : string;
  item_analysis_json : option (list Annotation);
  item_error_count : option Z
}.

(** [DatabaseRecord] of [types.ts]. *)
Record DatabaseRecord := {
  record_id : option Z;
  record_created_at : option string;
  record_original_text : string;
  record_corrected_text : string;
  record_annotations : list Annotation;
  record_error_count : option Z
}.

(** What the query resolves to: [{ data, error }]. *)
Record Response := {
  data : option (list Item);
  error : option Js.Error
}.

Inductive Effect :=
| Select
| ConsoleError (tag : string) (e : Js.Error).

Definition Log := list Effect.

Definition emit (e : Effect) : Eff Log unit := modify (fun log => log ++ [e]).

Fixpoint selects (log : Log) : nat :=
  match log with
  | [] => 0%nat
  | Select :: rest => S (selects rest)
  | ConsoleError _ _ :: rest => selects rest
  end.

(** The body of [data.map]: [item.analysis_json || []] for the
    annotations. *)
Definition toRecord (item : Item) : DatabaseRecord :=
  {| record_id := item_id item;
     record_created_at := item_created_at item;
     record_original_text := item_original_text item;
     record_corrected_text := item_corrected_text item;
     record_annotations :=
       match item_analysis_json item with
       | Some annotations => annotations
       | None => []
       end;
     record_error_count := item_error_count item |}.

Section WithDatabase.
(** How the [n]-th query of the session settles. *)
Variable database : nat -> Completion Response.
(** The [TypeError] of [data.map] when [data] is [null]. *)
Variable typeError : Js.Error.

Definition fetchHistory : Eff Log (list DatabaseRecord) :=
  try_catch
    (n <- gets selects ;;
     emit Select ;;
     response <- settle (database n) ;;
     match error response with
     | Some err =>
         emit (ConsoleError "Supabase Fetch Error:" err) ;;
         throw err
     | None =>
         match data response with
         | Some items => ret (map toRecord items)
         | None => throw typeError
         end
     end)%eff
    (fun err =>
       emit (ConsoleError "Failed to fetch history:" err) ;;
       ret [])%eff.
End WithDatabase.

End SupabaseHistory.

(** ** [App.tsx]: the single analysis, the settings, the history *)

Module App.

Inductive ViewMode := single | batch | history_view | statistics.

(** The state of the component the handlers touch, the [api_base_url]
    entry of [localStorage], and the logs of the three clients. *)
Record World := {
  isAnalyzing : bool;
  error : option string;
  currentResult : option AnalysisResult;
  history : list SupabaseHistory.DatabaseRecord;
  showSettings : bool;
  viewMode : ViewMode;
  api_base_url : option string;
  requests : GeminiService.Log;
  store : SupabaseClient.Log;
  historyLog : SupabaseHistory.Log
}.

Definition setIsAnalyzing (v : bool) (w : World) : World :=
  {| isAnalyzing := v; error := error w; currentResult := currentResult w;
     history := history w; showSettings := showSettings w;
     viewMode := viewMode w; api_base_url := api_base_url w;
     requests := requests w; store := store w; historyLog := historyLog w |}.

Definition setError (v : option string) (w : World) : World :=
  {| isAnalyzing := isAnalyzing w; error := v;
     currentResult := currentResult w; history := history w;
     showSettings := showSettings w; viewMode := viewMode w;
     api_base_url := api_base_url w; requests := requests w;
     store := store w; historyLog := historyLog w |}.

Definition setCurrentResult (v : option AnalysisResult) (w : World) : World :=
  {| isAnalyzing := isAnalyzing w; error := error w; currentResult := v;
     history := history w; showSettings := showSettings w;
     viewMode := viewMode w; api_base_url := api_base_url w;
     requests := requests w; store := store w; historyLog := historyLog w |}.

Definition setHistory (v : list SupabaseHistory.DatabaseRecord) (w : World)
  : World :=
  {| isAnalyzing := isAnalyzing w; error := error w;
     currentResult := currentResult w; history := v;
     showSettings := showSettings w; viewMode := viewMode w;
     api_base_url := api_base_url w; requests := requests w;
     store := store w; historyLog := historyLog w |}.

Definition setShowSettings (v : bool) (w : World) : World :=
  {| isAnalyzing := isAnalyzing w; error := error w;
     currentResult := currentResult w; history := history w;
     showSettings := v; viewMode := viewMode w;
     api_base_url := api_base_url w; requests := requests w;
     store := store w; historyLog := historyLog w |}.

Definition setViewMode (v : ViewMode) (w : World) : World :=
  {| isAnalyzing := isAnalyzing w; error := error w;
     currentResult := currentResult w; history := history w;
     showSettings := showSettings w; viewMode := v;
     api_base_url := api_base_url w; requests := requests w;
     store := store w; historyLog := historyLog w |}.

Definition setApi_base_url (v : option string) (w : World) : World :=
  {| isAnalyzing := isAnalyzing w; error := error w;
     currentResult := currentResult w; history := history w;
     showSettings := showSettings w; viewMode := viewMode w;
     api_base_url := v; requests := requests w; store := store w;
     historyLog := historyLog w |}.

Definition setRequests (v : GeminiService.Log) (w : World) : World :=
  {| isAnalyzing := isAnalyzing w; error := error w;
     currentResult := currentResult w; history := history w;
     showSettings := showSettings w; viewMode := viewMode w;
     api_base_url := api_base_url w; requests := v; store := store w;
     historyLog := historyLog w |}.

Definition setStore (v : SupabaseClient.Log) (w : World) : World :=
  {| isAnalyzing := isAnalyzing w; error := error w;
     currentResult := currentResult w; history := history w;
     showSettings := showSettings w; viewMode := viewMode w;
     api_base_url := api_base_url w; requests := requests w; store := v;
     historyLog := historyLog w |}.

Definition setHistoryLog (v : SupabaseHistory.Log) (w : World) : World :=
  {| isAnalyzing := isAnalyzing w; error := error w;
     currentResult := currentResult w; history := history w;
     showSettings := showSettings w; viewMode := viewMode w;
     api_base_url := api_base_url w; requests := requests w;
     store := store w; historyLog := v |}.

(** [try { body } finally { cleanup }] *)
Definition try_finally {A} (body : Eff World A) (cleanup : Eff World unit)
  : Eff World A :=
  fun w =>
    match body w with
    | (completion, w') =>
        match cleanup w' with
        | (Normal _, w'') => (completion, w'')
        | (Throw e, w'') => (Throw e, w'')
        end
    end.

(** [err.message || fallback] *)
Definition messageOr (err : Js.Error) (fallback : string) : string :=
  match Js.message err with
  | Some m => if truthy m then m else fallback
  | None => fallback
  end.

(** [err.message?.includes(needle)] *)
Definition messageIncludes (needle : string) (err : Js.Error) : bool :=
  match Js.message err with
  | Some m => includes m needle
  | None => false
  end.

Section WithCollaborators.
(** [import.meta.env.VITE_API_BASE_URL] *)
Variable VITE_API_BASE_URL : option string.
Variable fetch : string -> string -> Completion GeminiService.Response.
Variable errorField : string -> option string.
Variable insertInto :
  nat -> SupabaseClient.Row -> Completion SupabaseClient.Response.
Variable selectFrom : nat -> Completion SupabaseHistory.Response.
Variable typeError : Js.Error.

(** [analyzeText(inputText)]: the component runs in the browser, where
    [window] is defined and [localStorage] holds what the settings
    saved. *)
Definition analyze (inputText : string) : Eff World AnalysisResult :=
  fun w =>
    zoom requests setRequests
      (GeminiService.analyzeText true (api_base_url w) VITE_API_BASE_URL
         fetch errorField inputText) w.

Definition loadHistory : Eff World unit :=
  (data <- zoom historyLog setHistoryLog
             (SupabaseHistory.fetchHistory selectFrom typeError) ;;
   modify (setHistory data))%eff.

Definition handleAnalyze (inputText : string) : Eff World unit :=
  if negb (truthy (trim inputText)) then ret tt
  else
    (modify (setIsAnalyzing true) ;;
     modify (setError None) ;;
     modify (setCurrentResult None) ;;
     try_finally
       (try_catch
          (result <- analyze inputText ;;
           modify (setCurrentResult (Some result)) ;;
           zoom store setStore
             (SupabaseClient.saveRecord insertInto result) ;;
           loadHistory)
          (fun err =>
             modify (setError
                       (Some (messageOr err
                                "An error occurred during analysis."))) ;;
             if messageIncludes "API URL" err
             then modify (setShowSettings true)
             else ret tt))
       (modify (setIsAnalyzing false)))%eff.
End WithCollaborators.

(** [handleSaveApiUrl], on the address typed in the settings. *)
Definition handleSaveApiUrl (apiBaseUrl : string) (w : World) : World :=
  setError None
    (setShowSettings false (setApi_base_url (Some (trim apiBaseUrl)) w)).

Definition handleHistoryItemClick (record : SupabaseHistory.DatabaseRecord)
  (w : World) : World :=
  setViewMode single
    (setCurrentResult
       (Some {| original_text := SupabaseHistory.record_original_text record;
                corrected_text :=
                  SupabaseHistory.record_corrected_text record;
                annotations := SupabaseHistory.record_annotations record |})
       w).

End App.

(** ** Objects used as counters *)

Module JsObject.

(** An object made by [{}] that holds numbers under string keys: its own
    properties, in the order they were created. *)
Definition Object := list (string * Z).

(** What reading a key gives: nothing, a number of the object's own, or
    what [Object.prototype] has under that name (a function or an
    object, never a number). *)
Inductive Value :=
| Undefined
| Number (n : Z)
| Inherited.

Fixpoint own (o : Object) (key : string) : option Z :=
  match o with
  | [] => None
  | (k, v) :: rest => if String.eqb k key then Some v else own rest key
  end.

Section WithPrototype.
(** The names [Object.prototype] has a property for ([constructor],
    [toString], [__proto__], ...). *)
Variable inherited : string -> bool.

(** [o[key]] *)
Definition get (o : Object) (key : string) : Value :=
  match own o key with
  | Some n => Number n
  | None => if inherited key then Inherited else Undefined
  end.

End WithPrototype.

(** [o[key] = v], for a key the object has or [Object.prototype] has
    not: an own property keeps its place, a new one comes last. *)
Fixpoint set (o : Object) (key : string) (v : Z) : Object :=
  match o with
  | [] => [(key, v)]
  | (k, old) :: rest =>
      if String.eqb k key then (k, v) :: rest
      else (k, old) :: set rest key v
  end.

(** The array index a key is, if it is one: a decimal numeral without
    sign or leading zero, below [2^32 - 1]. *)
Definition arrayIndex (key : string) : option N :=
  match DecimalString.NilZero.uint_of_string key with
  | Some d =>
      let n := N.of_uint d in
      if String.eqb (DecimalString.NilZero.string_of_uint (N.to_uint n)) key
         && (n <? 4294967295)%N
      then Some n
      else None
  | None => None
  end.

Fixpoint place (i : N) (e : string * Z) (sorted : list (N * (string * Z)))
  : list (N * (string * Z)) :=
  match sorted with
  | [] => [(i, e)]
  | (j, f) :: rest =>
      if (i <=? j)%N then (i, e) :: sorted else (j, f) :: place i e rest
  end.

Definition indexed (o : Object) : list (N * (string * Z)) :=
  fold_right
    (fun e acc =>
       match arrayIndex (fst e) with
       | Some i => place i e acc
       | None => acc
       end)
    [] o.

Definition named (o : Object) : list (string * Z) :=
  filter
    (fun e => match arrayIndex (fst e) with Some _ => false | None => true end)
    o.

(** [Object.entries(o)]: the keys that are array indices first, in
    ascending order, then the others in the order they were created. *)
Definition entries (o : Object) : list (string * Z) :=
  map snd (indexed o) ++ named o.

End JsObject.

(** ** [StatsSummary.tsx] *)

Module StatsSummary.
Import JsObject.

Record Datum := {
  name : string;
  value : Z
}.

(** [.sort((a, b) => b.value - a.value)]; the sort of an array is
    stable. *)
Fixpoint insert (a : Datum) (sorted : list Datum) : list Datum :=
  match sorted with
  | [] => [a]
  | b :: rest =>
      if value b - value a <=? 0 then a :: sorted else b :: insert a rest
  end.

Definition sortByValue (data : list Datum) : list Datum :=
  fold_right insert [] data.

(** [Object.entries(counts).map(([name, value]) => ({ name, value }))
      .sort((a, b) => b.value - a.value)] *)
Definition toData (counts : Object) : list Datum :=
  sortByValue
    (map (fun e => {| name := fst e; value := snd e |}) (entries counts)).

Record Stats := {
  macroData : list Datum;
  microData : list Datum;
  total : Z
}.

Section WithPrototype.
Variable inherited : string -> bool.

(** [counts[code] = (counts[code] || 0) + 1].  Under a name of
    [Object.prototype] the sum is a string, not a number: [None]. *)
Definition increment (counts : Object) (code : string) : option Object :=
  match get inherited counts code with
  | Undefined => Some (set counts code (0 + 1))
  | Number n => Some (set counts code ((if n =? 0 then 0 else n) + 1))
  | Inherited => None
  end.

(** The body of the [forEach]. *)
Definition countAnnotation (acc : Object * Object) (ann : Annotation)
  : option (Object * Object) :=
  let (macroCounts, microCounts) := acc in
  match increment macroCounts (macro_code ann) with
  | Some macroCounts =>
      match increment microCounts (error_code ann) with
      | Some microCounts => Some (macroCounts, microCounts)
      | None => None
      end
  | None => None
  end.

Fixpoint forEach (annotations : list Annotation) (acc : Object * Object)
  : option (Object * Object) :=
  match annotations with
  | [] => Some acc
  | ann :: rest =>
      match countAnnotation acc ann with
      | Some acc => forEach rest acc
      | None => None
      end
  end.

Definition stats (annotations : list Annotation) : option Stats :=
  match forEach annotations ([], []) with
  | Some (macroCounts, microCounts) =>
      Some {| macroData := toData macroCounts;
              microData := toData microCounts;
              total := Z.of_nat (List.length annotations) |}
  | None => None
  end.

End WithPrototype.

End StatsSummary.

(** ** [StatisticsView.tsx] *)

Module StatisticsView.
Import JsObject SupabaseHistory.

(** [id.toString()], for an id that is an integer. *)
Definition toString (id : Z) : string :=
  DecimalString.NilZero.string_of_int (Z.to_int id).

Definition filteredHistory (selectedId : string)
  (history : list DatabaseRecord) : list DatabaseRecord :=
  if String.eqb selectedId "all" then history
  else
    filter
      (fun h =>
         match record_id h with
         | Some id => String.eqb (toString id) selectedId
         | None => false
         end)
      history.

(** The statistics but [avgErrors], which is a numeral rounded by
    [toFixed]. *)
Record Stats := {
  totalRecords : Z;
  totalErrors : Z;
  topErrorCodes : list StatsSummary.Datum;
  macroCodeData : list StatsSummary.Datum
}.

(** The counters of the [useMemo]: [totalErrors], [errorCodeCounts],
    [macroCodeCounts]. *)
Record Counters := {
  errors : Z;
  errorCodeCounts : Object;
  macroCodeCounts : Object
}.

Section WithPrototype.
Variable inherited : string -> bool.

(** The body of the inner [forEach]. *)
Definition countAnnotation (acc : Counters) (ann : Annotation)
  : option Counters :=
  match StatsSummary.increment inherited (errorCodeCounts acc)
          (error_code ann) with
  | Some errorCodeCounts =>
      match StatsSummary.increment inherited (macroCodeCounts acc)
              (macro_code ann) with
      | Some macroCodeCounts =>
          Some {| errors := errors acc;
                  errorCodeCounts := errorCodeCounts;
                  macroCodeCounts := macroCodeCounts |}
      | None => None
      end
  | None => None
  end.

Fixpoint forEachAnnotation (annotations : list Annotation) (acc : Counters)
  : option Counters :=
  match annotations with
  | [] => Some acc
  | ann :: rest =>
      match countAnnotation acc ann with
      | Some acc => forEachAnnotation rest acc
      | None => None
      end
  end.

(** The body of the outer [forEach]. *)
Definition countRecord (acc : Counters) (record : DatabaseRecord)
  : option Counters :=
  forEachAnnotation (record_annotations record)
    {| errors :=
         errors acc + Z.of_nat (List.length (record_annotations record));
       errorCodeCounts := errorCodeCounts acc;
       macroCodeCounts := macroCodeCounts acc |}.

Fixpoint forEachRecord (records : list DatabaseRecord) (acc : Counters)
  : option Counters :=
  match records with
  | [] => Some acc
  | record :: rest =>
      match countRecord acc record with
      | Some acc => forEachRecord rest acc
      | None => None
      end
  end.

Definition stats (filteredHistory : list DatabaseRecord) : option Stats :=
  match forEachRecord filteredHistory
          {| errors := 0; errorCodeCounts := []; macroCodeCounts := [] |} with
  | Some counters =>
      Some {| totalRecords := Z.of_nat (List.length filteredHistory);
              totalErrors := errors counters;
              topErrorCodes :=
                firstn 10 (StatsSummary.toData (errorCodeCounts counters));
              macroCodeData :=
                StatsSummary.toData (macroCodeCounts counters) |}
  | None => None
  end.

End WithPrototype.

End StatisticsView.

(** ** [server/index.js] *)

Module Server.

(** [req.body?.text]: a string, or anything else ([undefined] too). *)
Inductive TextField :=
| NotAString
| Text (text : string).

Definition missingText : string :=
  ("Missing " ++ String QUOTE "text" ++ String QUOTE " in request body.")
    %string.

(** The text part of the request to the model. *)
Definition prompt (text : string) : string :=
  ("Analyze the following text for ESL errors based strictly on the taxonomy:"
   ++ String LF (String LF (String QUOTE text)) ++ String QUOTE "")%string.

Section WithVertex.
(** The values of JSON. *)
Variable Json : Type.

Inductive Body :=
| Result (result : Json)
| Failure (error : string).

Inductive Effect :=
| GenerateContent (contents : string)
| ConsoleError (tag : string) (e : Js.Error)
| Respond (status : Z) (body : Body).

Definition Log := list Effect.

Definition emit (e : Effect) : Eff Log unit := modify (fun log => log ++ [e]).

Fixpoint calls (log : Log) : nat :=
  match log with
  | [] => 0%nat
  | GenerateContent _ :: rest => S (calls rest)
  | _ :: rest => calls rest
  end.

(** How the [n]-th call of [ai.models.generateContent] settles, with the
    [text] of the response when it resolves. *)
Variable generateContent : nat -> string -> Completion (option string).
Variable JSON_parse : string -> Completion Json.

(** The handler of [POST /analyze]. *)
Definition analyze (text : TextField) : Eff Log unit :=
  match text with
  | NotAString => emit (Respond 400 (Failure missingText))
  | Text text =>
      if negb (truthy text) then emit (Respond 400 (Failure missingText))
      else
        try_catch
          (n <- gets calls ;;
           emit (GenerateContent (prompt text)) ;;
           response <- settle (generateContent n (prompt text)) ;;
           match response with
           | Some jsonText =>
               if negb (truthy jsonText)
               then emit (Respond 502
                            (Failure "Empty response from Vertex AI."))
               else
                 result <- settle (JSON_parse jsonText) ;;
                 emit (Respond 200 (Result result))
           | None =>
               emit (Respond 502 (Failure "Empty response from Vertex AI."))
           end)%eff
          (fun error =>
             emit (ConsoleError "Vertex AI error:" error) ;;
             emit (Respond 500
                     (Failure (App.messageOr error "Vertex AI error."))))%eff
  end.

End WithVertex.

End Server.

(* ===================================================================== *)
(** * Part II: the vocabulary of the properties *)
(* ===================================================================== *)

(** ** The store client *)

Section StoreWords.
Import SupabaseClient.
Variable database : nat -> Row -> Completion Response.

Definition rowOf (r : AnalysisResult) : Row :=
  {| row_original_text := original_text r;
     row_corrected_text := corrected_text r;
     analysis_json := annotations r;
     error_count := Z.of_nat (List.length (annotations r)) |}.

(** What [saveRecord] returns and leaves in the log, by the way the insert
    settles. *)
Definition saved (r : AnalysisResult) (log : Log)
  : option (list Row) * Log :=
  match database (inserts log) (rowOf r) with
  | Normal response =>
      match error response with
      | None => (data response, log ++ [Insert (rowOf r)])
      | Some err =>
          (None,
           ((log ++ [Insert (rowOf r)])
              ++ [ConsoleError "Supabase Error:" err])
             ++ [ConsoleError "Failed to save record:" err])
      end
  | Throw err =>
      (None,
       (log ++ [Insert (rowOf r)])
         ++ [ConsoleError "Failed to save record:" err])
  end.

End StoreWords.

(** ** The batch run *)

Definition balanced (p : BatchProcessor.Progress) : Prop :=
  (BatchProcessor.success p + BatchProcessor.failed p
   = BatchProcessor.current p)%Z.

Definition balancedView (v : BatchProcessor.Snapshot) : Prop :=
  balanced (BatchProcessor.shown_progress v).

(** No pause and no confirmed stop among the clicks: at most stops that
    the operator did not confirm. *)
Definition quiet (clicks : list (list BatchProcessor.Action)) : Prop :=
  Forall (Forall (fun a => a = BatchProcessor.ClickStop false)) clicks.

(** No confirmed stop among the clicks. *)
Definition noStop (clicks : list (list BatchProcessor.Action)) : Prop :=
  Forall (Forall (fun a => a <> BatchProcessor.ClickStop true)) clicks.

(** Whether the run is paused after a click, and after the clicks of a
    schedule: the pause button toggles, and a stop that is not confirmed
    changes nothing. *)
Definition toggled (paused : bool) (a : BatchProcessor.Action) : bool :=
  match a with
  | BatchProcessor.ClickPause => negb paused
  | BatchProcessor.ClickStop _ => paused
  end.

Definition pausedAfter (paused : bool)
  (clicks : list (list BatchProcessor.Action)) : bool :=
  fold_left (fun p batch => fold_left toggled batch p) clicks paused.

Section BatchWords.
Import BatchProcessor.
Variable analyzeText : nat -> string -> Completion AnalysisResult.
Variable database :
  nat -> SupabaseClient.Row -> Completion SupabaseClient.Response.

(** A click touches the two flags and the two refs, nothing else. *)
Definition flagsOnly (w w' : World) : Prop :=
  exists processing paused stop pause,
    w' = setIsProcessing processing
           (setIsPaused paused (setStopRef stop (setPauseRef pause w))).

(** A run in progress that the clicks to come neither stop nor leave
    paused. *)
Definition resumable (w : World) : Prop :=
  isProcessing w = true
  /\ stopRef w = false
  /\ pauseRef w = isPaused w
  /\ noStop (pending w)
  /\ pausedAfter (pauseRef w) (pending w) = false.

(** The world after an [await]. *)
Definition awaited (w : World) : World :=
  match pending w with
  | [] => w
  | clicks :: later => deliver clicks (setPending later w)
  end.

(** The result an item ends up with: the classifier's, or the placeholder
    of the [catch]. *)
Definition resultOf (c : Completion AnalysisResult) (text : string)
  : AnalysisResult :=
  match c with
  | Normal result => result
  | Throw _ => errorResult text
  end.

Definition snapshot (w : World) : Snapshot :=
  {| shown_progress := progress w;
     shown_results := displayResults w;
     shown_latest := latestResult w |}.

(** The world after the body of the [for] loop has run on [text]. *)
Definition itemDone (text : string) (w : World) : World :=
  let w1 := awaited (record (Classify text) w) in
  let w3 :=
    match analyzeText (List.length (classified (trace w))) text with
    | Normal result =>
        let w2 :=
          awaited (setStore (snd (saved database result (store w1))) w1) in
        setProgress countSuccess
          (setBatchAnnotations (fun prev => prev ++ annotations result)
             (setDisplayResults (prepend result)
                (setLatestResult (Some result) w2)))
    | Throw error =>
        setProgress countFailure
          (setDisplayResults (prepend (errorResult text))
             (record (ConsoleError error) w1))
    end in
  awaited (record (SetTimeout 100) (record (Render (snapshot w3)) w3)).

(** The classifier's verdict on [text] in world [w]. *)
Definition outcomeAt (w : World) (text : string)
  : Completion AnalysisResult :=
  analyzeText (List.length (classified (trace w))) text.

(** Two worlds that show the same: nothing was classified, stored or
    rendered between them. *)
Record idle (w w' : World) : Prop := {
  idle_progress : progress w' = progress w;
  idle_displayResults : displayResults w' = displayResults w;
  idle_batchAnnotations : batchAnnotations w' = batchAnnotations w;
  idle_latestResult : latestResult w' = latestResult w;
  idle_store : store w' = store w;
  idle_classified : classified (trace w') = classified (trace w);
  idle_rendered : rendered (trace w') = rendered (trace w);
  idle_completions : completions (trace w') = completions (trace w)
}.

Definition balancedWorld (w : World) : Prop :=
  balanced (progress w) /\ Forall balancedView (rendered (trace w)).

(** The flags and refs of a world. *)
Definition controls (w : World) : bool * bool * bool * bool :=
  (isProcessing w, isPaused w, stopRef w, pauseRef w).

(** The results of the texts [texts], the first of which is the [k]-th
    text the classifier is given. *)
Fixpoint resultsFrom (k : nat) (texts : list string) : list AnalysisResult :=
  match texts with
  | [] => []
  | text :: rest =>
      resultOf (analyzeText k text) text :: resultsFrom (S k) rest
  end.

(** The hundred most recent of them, the most recent first. *)
Definition recent (k : nat) (texts : list string) : list AnalysisResult :=
  firstn 100 (rev (resultsFrom k texts)).

(** What the run started in [w0] has shown so far in [w]: it has
    classified [texts]; [displayResults] is the recent results of [texts];
    and the [j]-th snapshot it rendered shows the recent results of the
    first [j] of them. *)
Definition showsRecent (w0 w : World) : Prop :=
  exists texts news,
    classified (trace w) = classified (trace w0) ++ texts
    /\ rendered (trace w) = rendered (trace w0) ++ news
    /\ displayResults w
       = recent (List.length (classified (trace w0))) texts
    /\ map shown_results news
       = map (fun j => recent (List.length (classified (trace w0)))
                         (firstn j texts))
           (seq 1 (List.length texts)).

(** The counts after [items], the first of which is the [k]-th text the
    classifier is given, when every one of them is handled. *)
Fixpoint tally (k : nat) (items : list string) (p : Progress) : Progress :=
  match items with
  | [] => p
  | text :: rest =>
      tally (S k) rest
        match analyzeText k text with
        | Normal _ => countSuccess p
        | Throw _ => countFailure p
        end
  end.

(** A world with the store client's log left out. *)
Definition storeless (w : World) : World := setStore [] w.

Definition storelessRun (r : Run) : Run :=
  match r with
  | Returned w => Returned (storeless w)
  | Paused w => Paused (storeless w)
  | Rejected e w => Rejected e (storeless w)
  end.

End BatchWords.

(** *** Sample collaborators for concrete runs *)

(** A classifier that finds nothing to correct, and fails on the text
    ["bad"]. *)
Definition sampleClassifier (n : nat) (text : string)
  : Completion AnalysisResult :=
  if String.eqb text "bad" then Throw (newError "Request failed (500)")
  else Normal {| original_text := text; corrected_text := text;
                 annotations := [] |}.

(** A database that stores every row. *)
Definition sampleDatabase (n : nat) (row : SupabaseClient.Row)
  : Completion SupabaseClient.Response :=
  Normal {| SupabaseClient.data := Some [row];
            SupabaseClient.error := None |}.

(** A database that is down. *)
Definition brokenDatabase (n : nat) (row : SupabaseClient.Row)
  : Completion SupabaseClient.Response :=
  Throw (newError "Failed to fetch").

(** ** The classifier clients *)

(** A value [Math.random()] can return: a double that is at least 0 and
    below 1. *)
Definition drawn (x : Q) : Prop :=
  (0 <= x)%Q /\ (x < 1)%Q /\ (Binary64.round x == x)%Q.

(** The largest double below 1. *)
Definition lastBelowOne : Q := (1 - (1 # 2 ^ 53))%Q.

Section DirectWords.
Import GeminiDirect.
Variable generateContent : nat -> string -> Completion string.
Variable parse : string -> Completion Answer.
Variable random : nat -> Q.
Variable text : string.

(** An error the client retries on. *)
Definition retryable (e : Js.Error) : bool :=
  isRateLimit e || isServerOverload e.

(** How the [n]-th request of the call ends. *)
Definition answer (n : nat) : Completion AnalysisResult :=
  match generateContent n text with
  | Normal jsonText =>
      if truthy jsonText then
        match parse jsonText with
        | Normal result => Normal (withOriginal text result)
        | Throw e => Throw e
        end
      else Throw (newError "Empty response from AI")
  | Throw e => Throw e
  end.

(** The wait before the [n]-th retry. *)
Definition wait (n : nat) : Q := waitTime (Z.of_nat n) (random n).

(** The loop with [k] turns left after [r] retries: how it ends and what
    it leaves in the log. *)
Fixpoint turns (k r : nat) : Completion (option AnalysisResult) * Log :=
  match k with
  | O => (Throw (newError "Max retries exceeded for Gemini API"), [])
  | S k' =>
      match answer r with
      | Normal result => (Normal (Some result), [GenerateContent text])
      | Throw e =>
          if retryable e then
            (fst (turns k' (S r)),
             GenerateContent text
               :: ConsoleWarn (wait (S r)) (Z.of_nat (S r))
               :: Delay (wait (S r))
               :: snd (turns k' (S r)))
          else (Throw e, [GenerateContent text; ConsoleError e])
      end
  end.

End DirectWords.

Section BackendWords.
Import GeminiService.
Variable hasWindow : bool.
Variable stored_api_base_url : option string.
Variable VITE_API_BASE_URL : option string.

(** The address the client posts to. *)
Definition endpoint : string :=
  (normalizeBaseUrl
     (getApiBaseUrl hasWindow stored_api_base_url VITE_API_BASE_URL)
   ++ "/analyze")%string.

End BackendWords.

(** ** [parseCSV] *)

Section CsvWords.
Import BatchProcessor.

(** Line endings made uniform in one pass: CR LF and a CR on its own both
    become LF. *)
Fixpoint unifyNewlines (s : string) : string :=
  match s with
  | "" => ""
  | String c rest =>
      if Ascii.eqb c CR then
        match rest with
        | String c' rest' =>
            if Ascii.eqb c' LF
            then String LF (unifyNewlines rest')
            else String LF (unifyNewlines rest)
        | "" => String LF ""
        end
      else String c (unifyNewlines rest)
  end.

(** [c] put in front of the first entry. *)
Definition addChar (c : ascii) (es : list string) : list string :=
  match es with
  | [] => []
  | e :: rest => String c e :: rest
  end.

(** The entries of a text with uniform line endings, read from inside
    ([inQuote]) or outside a quoted region: a line feed outside a quoted
    region ends an entry; a quote opens or closes a quoted region and is
    not part of the entry; inside a quoted region a doubled quote stands
    for one quote character. *)
Fixpoint entries (inQuote : bool) (s : string) : list string :=
  match s with
  | "" => [""]
  | String c rest =>
      if inQuote then
        if Ascii.eqb c QUOTE then
          match rest with
          | String c' rest' =>
              if Ascii.eqb c' QUOTE
              then addChar QUOTE (entries true rest')
              else entries false rest
          | "" => entries false rest
          end
        else addChar c (entries true rest)
      else
        if Ascii.eqb c QUOTE then entries true rest
        else if Ascii.eqb c LF then "" :: entries false rest
             else addChar c (entries false rest)
  end.

(** The lines of a text: what the line feeds separate. *)
Fixpoint lines (s : string) : list string :=
  match s with
  | "" => [""]
  | String c rest =>
      if Ascii.eqb c LF then "" :: lines rest else addChar c (lines rest)
  end.

(** Trimmed, and the empty ones dropped. *)
Definition trimmedNonEmpty (es : list string) : list string :=
  filter truthy (map trim es).

Fixpoint occurs (c : ascii) (s : string) : bool :=
  match s with
  | "" => false
  | String c' rest => Ascii.eqb c' c || occurs c rest
  end.

(** [current] put in front of the first entry. *)
Definition prefixHead (current : string) (es : list string) : list string :=
  match es with
  | [] => []
  | e :: rest => (current ++ e)%string :: rest
  end.

(** What the loop and the final push return, by the entries of the text
    still to scan. *)
Definition scanned (s : string) : Prop :=
  forall results current inQuote,
    pushTrimmed (fst (scan s results current inQuote))
      (snd (scan s results current inQuote))
    = results ++ trimmedNonEmpty (prefixHead current (entries inQuote s)).

End CsvWords.

(** Concrete texts.  [quoted s] is [s] between two quote characters. *)
Definition quoted (s : string) : string :=
  (String QUOTE s ++ String QUOTE "")%string.

(** ** [renderText] *)

(** A span lies inside the text and is not empty. *)
Definition inside (originalText : string) (a : Annotation) : Prop :=
  0 <= start_index a
  /\ start_index a < end_index a
  /\ end_index a <= Z.of_nat (String.length originalText).

(** Two spans do not overlap. *)
Definition apart (a b : Annotation) : Prop :=
  end_index a <= start_index b \/ end_index b <= start_index a.

(** [a] ends before [b] starts. *)
Definition before (a b : Annotation) : Prop :=
  end_index a <= start_index b.

Definition startsNoLater (a b : Annotation) : Prop :=
  start_index a <= start_index b.

(** The characters of [s] from position [a] to position [b]. *)
Definition piece (s : string) (a b : Z) : string :=
  substring (Z.to_nat a) (Z.to_nat (b - a)) s.

Definition sampleSpan (from to : Z) : Annotation :=
  {| original_span := ""; corrected_span := ""; start_index := from;
     end_index := to; error_code := "AGV"; macro_code := "AG";
     explanation := "" |}.

Definition scenarioClassifier (n : nat) (text : string)
  : Completion AnalysisResult :=
  Normal {| original_text := text;
            corrected_text :=
              if String.eqb text "He go school." then "He goes to school."
              else text;
            annotations :=
              if String.eqb text "He go school." then [sampleSpan 3 5]
              else [] |}.

(** ** More on the batch run *)

(** The rows handed to the database, in order. *)
Fixpoint insertedRows (log : SupabaseClient.Log) : list SupabaseClient.Row :=
  match log with
  | [] => []
  | SupabaseClient.Insert row :: rest => row :: insertedRows rest
  | SupabaseClient.ConsoleError _ _ :: rest => insertedRows rest
  end.

Section MoreBatchWords.
Import BatchProcessor.
Variable analyzeText : nat -> string -> Completion AnalysisResult.

(** The results of the texts the classifier succeeds on, among [texts],
    the first of which is the [k]-th text the classifier is given. *)
Fixpoint okResults (k : nat) (texts : list string) : list AnalysisResult :=
  match texts with
  | [] => []
  | text :: rest =>
      match analyzeText k text with
      | Normal result => result :: okResults (S k) rest
      | Throw _ => okResults (S k) rest
      end
  end.

End MoreBatchWords.

(** The world in which the loop of [handleStart] starts. *)
Definition started (items : list string) (w : BatchProcessor.World)
  : BatchProcessor.World :=
  BatchProcessor.setIsPaused false
    (BatchProcessor.setPauseRef false
       (BatchProcessor.setStopRef false
          (BatchProcessor.setIsProcessing true
             (BatchProcessor.setProgress
                (fun _ =>
                   {| BatchProcessor.current := 0;
                      BatchProcessor.total := Z.of_nat (List.length items);
                      BatchProcessor.success := 0;
                      BatchProcessor.failed := 0 |})
                (BatchProcessor.setLatestResult None
                   (BatchProcessor.setBatchAnnotations (fun _ => [])
                      (BatchProcessor.setDisplayResults (fun _ => [])
                         w))))))).

(** ** Where a batch comes from *)

Section InputWords.
Import BatchProcessor.
Variable analyzeText : nat -> string -> Completion AnalysisResult.
Variable database :
  nat -> SupabaseClient.Row -> Completion SupabaseClient.Response.

(** [run] is a batch started in [w] on at least one item, none of them
    blank, of which it has handed a front part to the classifier. *)
Definition cleanBatch (w : World) (run : Run) : Prop :=
  exists items done rest,
    run = handleStart analyzeText database items w
    /\ items = done ++ rest
    /\ items <> []
    /\ Forall (fun text => trim text <> "") items
    /\ classified (trace (final run)) = classified (trace w) ++ done
    /\ total (progress (final run)) = Z.of_nat (List.length items)
    /\ 0 < total (progress (final run)).

End InputWords.

(** ** More on the classifier clients *)

(** [k] slashes. *)
Fixpoint slashes (k : nat) : string :=
  match k with
  | O => ""
  | S k' => String "/" (slashes k')
  end.

(** The last character of a string. *)
Fixpoint lastChar (s : string) : option ascii :=
  match s with
  | "" => None
  | String c "" => Some c
  | String _ rest => lastChar rest
  end.

(** The sum of a list of waits. *)
Fixpoint totalWait (waits : list Q) : Q :=
  match waits with
  | [] => 0%Q
  | ms :: rest => (ms + totalWait rest)%Q
  end.

(** ** More on [renderText] *)

(** The annotations a list of elements highlights, with the text
    highlighted for each. *)
Fixpoint highlighted (elements : list AnnotationView.Element)
  : list (Annotation * string) :=
  match elements with
  | [] => []
  | AnnotationView.Plain _ :: rest => highlighted rest
  | AnnotationView.Marked ann content :: rest =>
      (ann, content) :: highlighted rest
  end.

(** The annotations that start at [k]. *)
Definition startingAt (k : Z) (annotations : list Annotation)
  : list Annotation :=
  filter (fun a => start_index a =? k) annotations.

(** ** The history and the single analysis *)

Section HistoryWords.
Import SupabaseHistory.
Variable database : nat -> Completion Response.
Variable typeError : Js.Error.

(** What [fetchHistory] returns and leaves in the log, by the way the
    query settles. *)
Definition fetched (log : Log) : list DatabaseRecord * Log :=
  match database (selects log) with
  | Normal response =>
      match error response with
      | Some err =>
          ([],
           ((log ++ [Select]) ++ [ConsoleError "Supabase Fetch Error:" err])
             ++ [ConsoleError "Failed to fetch history:" err])
      | None =>
          match data response with
          | Some items => (map toRecord items, log ++ [Select])
          | None =>
              ([],
               (log ++ [Select])
                 ++ [ConsoleError "Failed to fetch history:" typeError])
          end
      end
  | Throw err =>
      ([], (log ++ [Select]) ++ [ConsoleError "Failed to fetch history:" err])
  end.

End HistoryWords.

(** The columns of [item] are those of [row]. *)
Definition holds (item : SupabaseHistory.Item) (row : SupabaseClient.Row)
  : Prop :=
  SupabaseHistory.item_original_text item
  = SupabaseClient.row_original_text row
  /\ SupabaseHistory.item_corrected_text item
     = SupabaseClient.row_corrected_text row
  /\ SupabaseHistory.item_analysis_json item
     = Some (SupabaseClient.analysis_json row)
  /\ SupabaseHistory.item_error_count item
     = Some (SupabaseClient.error_count row).

Section AppWords.
Import App.
Variable VITE_API_BASE_URL : option string.
Variable fetch : string -> string -> Completion GeminiService.Response.
Variable errorField : string -> option string.
Variable insertInto :
  nat -> SupabaseClient.Row -> Completion SupabaseClient.Response.
Variable selectFrom : nat -> Completion SupabaseHistory.Response.
Variable typeError : Js.Error.

(** The world after [handleAnalyze] on a text that is not blank. *)
Definition analysed (inputText : string) (w : World) : World :=
  let call :=
    GeminiService.analyzeText true (api_base_url w) VITE_API_BASE_URL fetch
      errorField inputText (requests w) in
  let w1 :=
    setRequests (snd call)
      (setCurrentResult None (setError None (setIsAnalyzing true w))) in
  setIsAnalyzing false
    match fst call with
    | Normal result =>
        let read := fetched selectFrom typeError (historyLog w) in
        setHistory (fst read)
          (setHistoryLog (snd read)
             (setStore (snd (saved insertInto result (store w)))
                (setCurrentResult (Some result) w1)))
    | Throw err =>
        let w2 :=
          setError
            (Some (messageOr err "An error occurred during analysis."))
            w1 in
        if messageIncludes "API URL" err then setShowSettings true w2
        else w2
    end.

End AppWords.

(** The component before anything was typed or saved. *)
Definition freshApp : App.World :=
  {| App.isAnalyzing := false; App.error := None;
     App.currentResult := None; App.history := [];
     App.showSettings := true; App.viewMode := App.single;
     App.api_base_url := None; App.requests := []; App.store := [];
     App.historyLog := [] |}.

(** ** The statistics *)

Section StatsWords.
Import JsObject StatsSummary.
Variable inherited : string -> bool.

(** No code of the annotations is a name of [Object.prototype]. *)
Definition plainCodes (annotations : list Annotation) : Prop :=
  Forall
    (fun ann =>
       inherited (macro_code ann) = false
       /\ inherited (error_code ann) = false)
    annotations.

(** One counter of a [forEach], taken alone. *)
Fixpoint countAll (code : Annotation -> string)
  (annotations : list Annotation) (counts : Object) : option Object :=
  match annotations with
  | [] => Some counts
  | ann :: rest =>
      match increment inherited counts (code ann) with
      | Some counts => countAll code rest counts
      | None => None
      end
  end.

End StatsWords.

(** The number held under [key], or zero. *)
Definition counted (counts : JsObject.Object) (key : string) : Z :=
  match JsObject.own counts key with
  | Some n => n
  | None => 0
  end.

Definition sumOf (counts : JsObject.Object) : Z :=
  fold_right Z.add 0 (map snd counts).

Definition datum (e : string * Z) : StatsSummary.Datum :=
  {| StatsSummary.name := fst e; StatsSummary.value := snd e |}.

(** How many of the annotations have the code [key]. *)
Definition occurrences (code : Annotation -> string) (key : string)
  (annotations : list Annotation) : Z :=
  Z.of_nat
    (List.length (filter (fun ann => String.eqb (code ann) key) annotations)).

Definition sumValues (data : list StatsSummary.Datum) : Z :=
  fold_right Z.add 0 (map StatsSummary.value data).

Definition noSmaller (a b : StatsSummary.Datum) : Prop :=
  StatsSummary.value b <= StatsSummary.value a.

Definition withValue (v : Z) (data : list StatsSummary.Datum)
  : list StatsSummary.Datum :=
  filter (fun d => StatsSummary.value d =? v) data.

(** [data] has one entry for every code that occurs, with the number of
    the annotations that have it, and these numbers add up to the number
    of the annotations. *)
Definition countsEvery (code : Annotation -> string)
  (annotations : list Annotation) (data : list StatsSummary.Datum) : Prop :=
  sumValues data = Z.of_nat (List.length annotations)
  /\ NoDup (map StatsSummary.name data)
  /\ forall d,
       In d data
       <-> 0 < StatsSummary.value d
           /\ StatsSummary.value d
              = occurrences code (StatsSummary.name d) annotations.

(** The names of [Object.prototype] in the engines of today. *)
Definition objectPrototype (key : string) : bool :=
  existsb (String.eqb key)
    ["constructor"; "hasOwnProperty"; "isPrototypeOf";
     "propertyIsEnumerable"; "toLocaleString"; "toString"; "valueOf";
     "__proto__"; "__defineGetter__"; "__defineSetter__";
     "__lookupGetter__"; "__lookupSetter__"].

(** The records with the id [id]. *)
Definition withId (id : Z) (history : list SupabaseHistory.DatabaseRecord)
  : list SupabaseHistory.DatabaseRecord :=
  filter
    (fun h =>
       match SupabaseHistory.record_id h with
       | Some i => i =? id
       | None => false
       end)
    history.

(** All the annotations of the records, in order. *)
Definition allAnnotations (history : list SupabaseHistory.DatabaseRecord)
  : list Annotation :=
  flat_map SupabaseHistory.record_annotations history.

(** ** The backend *)

Section ServerWords.
Import Server.
Variable Json : Type.

(** The replies and the calls of the model a log holds, in order. *)
Fixpoint replies (log : Log Json) : list (Z * Body Json) :=
  match log with
  | [] => []
  | Respond _ status body :: rest => (status, body) :: replies rest
  | _ :: rest => replies rest
  end.

Fixpoint prompts (log : Log Json) : list string :=
  match log with
  | [] => []
  | GenerateContent _ contents :: rest => contents :: prompts rest
  | _ :: rest => prompts rest
  end.

End ServerWords.

(** A record of the history with two annotations. *)
Definition sampleRecord : SupabaseHistory.DatabaseRecord :=
  {| SupabaseHistory.record_id := Some 7;
     SupabaseHistory.record_created_at := None;
     SupabaseHistory.record_original_text := "He go.";
     SupabaseHistory.record_corrected_text := "He goes.";
     SupabaseHistory.record_annotations := [sampleSpan 0 2; sampleSpan 3 5];
     SupabaseHistory.record_error_count := Some 2 |}.

(** A first run in which the operator pauses during the first item and
    never resumes. *)
Definition pausedRun : BatchProcessor.Run :=
  BatchProcessor.handleStart sampleClassifier sampleDatabase
    ["a"; "bad"; "c"]
    (BatchProcessor.mount [[BatchProcessor.ClickPause]]).

(** *** The binary64 of the Standard Library, to compare with *)

Definition ofDyadic (m e : Z) : spec_float :=
  binary_normalize 53 1024 m e false.

Definition valueOf (f : spec_float) : Q :=
  match f with
  | S754_finite negative m e =>
      ((if negative then -1 else 1) * inject_Z (Z.pos m) * 2 ^ e)%Q
  | _ => 0%Q
  end.

(** The wait before retry [retries] on the draw [k / 2^53], as
    [SpecFloat] multiplies and adds. *)
Definition waitTimeSpecFloat (retries k : Z) : spec_float :=
  SFadd 53 1024
    (SFmul 53 1024 (ofDyadic GeminiDirect.baseDelay 0)
       (ofDyadic (2 ^ retries) 0))
    (SFmul 53 1024 (ofDyadic k (-53)) (ofDyadic 1000 0)).

(** Draws to compare on: the ends of the range, the middle, and some in
    between. *)
Definition sampleDraws : list Z :=
  [0; 1; 2; 3; 4503599627370496; 4503599627370497; 6004799503160661;
   9007199254740990; 9007199254740991; 123456789; 987654321987;
   9007199254740; 9007199254740992 / 3; 9007199254740992 / 7;
   9007199254740992 / 10; 9007199254740992 / 1000;
   8999999999999999; 9000000000000001; 9007190247541737].

(* ===================================================================== *)
(** * Part III: the properties *)
(* ===================================================================== *)

(** ** The store client *)

Section StoreFacts.
Import SupabaseClient.
Variable database : nat -> Row -> Completion Response.

Lemma saveRecord_saved (r : AnalysisResult) (log : Log) :
  saveRecord database r log
  = (Normal (fst (saved database r log)), snd (saved database r log)).
Proof.
  unfold saved.
  cbv beta iota delta [saveRecord try_catch bind insertRow gets emit modify
                       settle throw ret].
  fold (rowOf r).
  destruct (database _ _) as [response | err]; simpl; [|reflexivity].
  destruct (error response); reflexivity.
Qed.

End StoreFacts.

(** ** The batch run *)

Section TraceFacts.
Import BatchProcessor.

Lemma classified_app (t u : list Effect) :
  classified (t ++ u) = classified t ++ classified u.
Proof.
  induction t as [|e t IH]; simpl; [reflexivity|].
  destruct e; simpl; rewrite IH; reflexivity.
Qed.

Lemma rendered_app (t u : list Effect) :
  rendered (t ++ u) = rendered t ++ rendered u.
Proof.
  induction t as [|e t IH]; simpl; [reflexivity|].
  destruct e; simpl; rewrite IH; reflexivity.
Qed.

Lemma completions_app (t u : list Effect) :
  completions (t ++ u) = (completions t + completions u)%nat.
Proof.
  induction t as [|e t IH]; simpl; [reflexivity|].
  destruct e; simpl; rewrite IH; reflexivity.
Qed.

Lemma flagsOnly_refl (w : World) : flagsOnly w w.
Proof.
  exists (isProcessing w), (isPaused w), (stopRef w), (pauseRef w).
  destruct w; reflexivity.
Qed.

Lemma flagsOnly_trans (w1 w2 w3 : World) :
  flagsOnly w1 w2 -> flagsOnly w2 w3 -> flagsOnly w1 w3.
Proof.
  intros (a & b & c & d & ->) (a' & b' & c' & d' & ->).
  exists a', b', c', d'. reflexivity.
Qed.

Lemma click_flagsOnly (w : World) (a : Action) : flagsOnly w (click w a).
Proof.
  unfold click. destruct (isProcessing w) eqn:E; [|apply flagsOnly_refl].
  destruct a as [|[|]]; unfold togglePause, handleStop.
  - exists (isProcessing w), (negb (isPaused w)), (stopRef w),
      (negb (isPaused w)).
    destruct w; reflexivity.
  - exists false, (isPaused w), true, (pauseRef w). destruct w; reflexivity.
  - apply flagsOnly_refl.
Qed.

Lemma deliver_flagsOnly (clicks : list Action) (w : World) :
  flagsOnly w (deliver clicks w).
Proof.
  unfold deliver. revert w.
  induction clicks as [|a clicks IH]; intros w; simpl.
  - apply flagsOnly_refl.
  - eapply flagsOnly_trans; [apply click_flagsOnly | apply IH].
Qed.

Lemma await_awaited (w : World) : await w = (Normal tt, awaited w).
Proof. unfold await, awaited. destruct (pending w); reflexivity. Qed.

Lemma awaited_flagsOnly (w : World) :
  flagsOnly (setPending (tl (pending w)) w) (awaited w).
Proof.
  unfold awaited. destruct (pending w) as [|clicks later] eqn:E; simpl.
  - exists (isProcessing w), (isPaused w), (stopRef w), (pauseRef w).
    destruct w; simpl in *; subst; reflexivity.
  - apply deliver_flagsOnly.
Qed.

Lemma awaited_progress w : progress (awaited w) = progress w.
Proof. destruct (awaited_flagsOnly w) as (a & b & c & d & ->). reflexivity. Qed.

Lemma awaited_displayResults w :
  displayResults (awaited w) = displayResults w.
Proof. destruct (awaited_flagsOnly w) as (a & b & c & d & ->). reflexivity. Qed.

Lemma awaited_batchAnnotations w :
  batchAnnotations (awaited w) = batchAnnotations w.
Proof. destruct (awaited_flagsOnly w) as (a & b & c & d & ->). reflexivity. Qed.

Lemma awaited_latestResult w : latestResult (awaited w) = latestResult w.
Proof. destruct (awaited_flagsOnly w) as (a & b & c & d & ->). reflexivity. Qed.

Lemma awaited_store w : store (awaited w) = store w.
Proof. destruct (awaited_flagsOnly w) as (a & b & c & d & ->). reflexivity. Qed.

Lemma awaited_trace w : trace (awaited w) = trace w.
Proof. destruct (awaited_flagsOnly w) as (a & b & c & d & ->). reflexivity. Qed.

Lemma awaited_pending w : pending (awaited w) = tl (pending w).
Proof. destruct (awaited_flagsOnly w) as (a & b & c & d & ->). reflexivity. Qed.

End TraceFacts.

Create Rewrite HintDb world.
#[local] Hint Rewrite awaited_progress awaited_displayResults
  awaited_batchAnnotations awaited_latestResult awaited_store awaited_trace
  awaited_pending : world.
#[local] Hint Rewrite classified_app rendered_app completions_app : world.

Section BatchFacts.
Import BatchProcessor.
Variable analyzeText : nat -> string -> Completion AnalysisResult.
Variable database :
  nat -> SupabaseClient.Row -> Completion SupabaseClient.Response.

Lemma processItem_done (text : string) (w : World) :
  processItem analyzeText database text w
  = (Normal tt, itemDone analyzeText database text w).
Proof.
  unfold itemDone.
  cbv beta iota delta [processItem classify save sleep render try_catch bind
                       gets modify settle ret zoom].
  rewrite await_awaited.
  destruct (analyzeText _ text) as [result | error].
  - rewrite saveRecord_saved, await_awaited. cbv beta iota.
    rewrite await_awaited. reflexivity.
  - cbv beta iota. rewrite await_awaited. reflexivity.
Qed.

Ltac item_fields :=
  unfold itemDone, outcomeAt, snapshot;
  destruct (analyzeText _ _);
  repeat (autorewrite with world; simpl);
  rewrite <- ?app_assoc; try reflexivity.

Lemma itemDone_progress (text : string) (w : World) :
  progress (itemDone analyzeText database text w) =
  match outcomeAt analyzeText w text with
  | Normal _ => countSuccess (progress w)
  | Throw _ => countFailure (progress w)
  end.
Proof. item_fields. Qed.

Lemma itemDone_displayResults (text : string) (w : World) :
  displayResults (itemDone analyzeText database text w) =
  prepend (resultOf (outcomeAt analyzeText w text) text) (displayResults w).
Proof. item_fields. Qed.

Lemma itemDone_latestResult (text : string) (w : World) :
  latestResult (itemDone analyzeText database text w) =
  match outcomeAt analyzeText w text with
  | Normal result => Some result
  | Throw _ => latestResult w
  end.
Proof. item_fields. Qed.

Lemma itemDone_batchAnnotations (text : string) (w : World) :
  batchAnnotations (itemDone analyzeText database text w) =
  batchAnnotations w
    ++ annotations (resultOf (outcomeAt analyzeText w text) text).
Proof. item_fields. simpl. rewrite app_nil_r. reflexivity. Qed.

Lemma itemDone_store (text : string) (w : World) :
  store (itemDone analyzeText database text w) =
  match outcomeAt analyzeText w text with
  | Normal result => snd (saved database result (store w))
  | Throw _ => store w
  end.
Proof. item_fields. Qed.

Lemma itemDone_classified (text : string) (w : World) :
  classified (trace (itemDone analyzeText database text w))
  = classified (trace w) ++ [text].
Proof. item_fields. Qed.

Lemma itemDone_rendered (text : string) (w : World) :
  rendered (trace (itemDone analyzeText database text w)) =
  rendered (trace w) ++ [snapshot (itemDone analyzeText database text w)].
Proof.
  unfold snapshot.
  rewrite itemDone_progress, itemDone_displayResults, itemDone_latestResult.
  item_fields.
Qed.

Lemma itemDone_completions (text : string) (w : World) :
  completions (trace (itemDone analyzeText database text w))
  = completions (trace w).
Proof. item_fields; simpl; lia. Qed.

Lemma idle_refl (w : World) : idle w w.
Proof. split; reflexivity. Qed.

Lemma idle_trans (w1 w2 w3 : World) : idle w1 w2 -> idle w2 w3 -> idle w1 w3.
Proof. intros [] []; split; congruence. Qed.

Lemma flagsOnly_idle (w w' : World) : flagsOnly w w' -> idle w w'.
Proof. intros (a & b & c & d & ->). split; reflexivity. Qed.

Lemma pauseLoop_idle (queue : list (list Action)) (w : World) :
  match pauseLoop queue w with
  | Resumed w' | Polling w' => idle w w'
  end.
Proof.
  revert w. induction queue as [|clicks later IH]; intros w; simpl.
  - destruct (pauseRef w); [destruct (stopRef w)|];
      split; simpl; autorewrite with world; simpl;
      rewrite ?app_nil_r, ?Nat.add_0_r; reflexivity.
  - destruct (pauseRef w); [destruct (stopRef w)|];
      try (split; reflexivity).
    specialize (IH (deliver clicks (record (SetTimeout 500) w))).
    destruct (pauseLoop later _) as [w' | w'];
      (eapply idle_trans; [|exact IH]);
      (eapply idle_trans; [|apply flagsOnly_idle, deliver_flagsOnly]);
      split; simpl; autorewrite with world; simpl;
      rewrite ?app_nil_r, ?Nat.add_0_r; reflexivity.
Qed.

(** Whatever holds of what the worlds show, and is kept by every item,
    holds when the loop ends or hangs. *)
Lemma forLoop_invariant (P : World -> Prop) :
  (forall w w', idle w w' -> P w -> P w') ->
  (forall text w, P w -> P (itemDone analyzeText database text w)) ->
  forall items w, P w -> P (final (forLoop analyzeText database items w)).
Proof.
  intros Hidle Hitem items.
  induction items as [|text rest IH]; intros w Hw; simpl; [exact Hw|].
  destruct (stopRef w); [exact Hw|].
  pose proof (pauseLoop_idle (pending w) w) as Hp.
  destruct (pauseLoop (pending w) w) as [w' | w']; simpl.
  - rewrite processItem_done. apply IH, Hitem. eapply Hidle; eauto.
  - eapply Hidle; eauto.
Qed.

End BatchFacts.

(** *** The counts add up at every snapshot *)

Section Accounting.
Import BatchProcessor.
Variable analyzeText : nat -> string -> Completion AnalysisResult.
Variable database :
  nat -> SupabaseClient.Row -> Completion SupabaseClient.Response.

Lemma balancedWorld_idle (w w' : World) :
  idle w w' -> balancedWorld w -> balancedWorld w'.
Proof.
  intros [Hp _ _ _ _ _ Hr _] [Hb Hs]. split.
  - rewrite Hp. exact Hb.
  - rewrite Hr. exact Hs.
Qed.

Lemma balancedWorld_itemDone (text : string) (w : World) :
  balancedWorld w -> balancedWorld (itemDone analyzeText database text w).
Proof.
  intros [Hb Hs].
  assert (Hnew : balanced (progress (itemDone analyzeText database text w))).
  { rewrite itemDone_progress.
    destruct (outcomeAt analyzeText w text);
      unfold balanced in *; simpl; lia. }
  split; [exact Hnew|].
  rewrite itemDone_rendered. apply Forall_app. split; [exact Hs|].
  constructor; [exact Hnew | constructor].
Qed.

(** C1.  In a run of [handleStart], whatever the items, the classifier,
    the database and the operator do, every snapshot rendered after an
    item shows [success + failed = current], and so does the progress the
    run ends (or hangs) with.  Snapshots of earlier runs are assumed to be
    balanced. *)
Theorem counts_add_up_at_every_snapshot (items : list string) (w : World) :
  Forall balancedView (rendered (trace w)) ->
  Forall balancedView
    (rendered (trace (final (handleStart analyzeText database items w))))
  /\ balanced (progress (final (handleStart analyzeText database items w))).
Proof.
  intros Hearlier.
  assert (H : balancedWorld
                (final (handleStart analyzeText database items w))).
  { unfold handleStart, processQueue.
    match goal with
    | |- context [forLoop _ _ items ?w0] =>
        pose proof (forLoop_invariant analyzeText database balancedWorld
                      balancedWorld_idle balancedWorld_itemDone items w0)
        as Hloop
    end.
    match type of Hloop with
    | ?A -> _ => assert (Hstart : A) by (split; [reflexivity | exact Hearlier])
    end.
    specialize (Hloop Hstart).
    destruct (forLoop _ _ _ _) as [w' | w' | e w']; simpl in *;
      try exact Hloop.
    destruct Hloop as [Hb Hs]. split; [exact Hb|].
    unfold record; simpl. rewrite rendered_app, app_nil_r. exact Hs. }
  destruct H as [Hb Hs]. split; assumption.
Qed.

End Accounting.

(** *** A run nobody interferes with *)

Section QuietRun.
Import BatchProcessor.
Variable analyzeText : nat -> string -> Completion AnalysisResult.
Variable database :
  nat -> SupabaseClient.Row -> Completion SupabaseClient.Response.

Lemma quiet_tl (clicks : list (list Action)) :
  quiet clicks -> quiet (tl clicks).
Proof. intros H. destruct H; simpl; [constructor | assumption]. Qed.

Lemma deliver_unconfirmed (clicks : list Action) (w : World) :
  Forall (fun a => a = ClickStop false) clicks -> deliver clicks w = w.
Proof.
  unfold deliver. induction 1 as [|a clicks -> _ IH]; simpl; [reflexivity|].
  unfold click at 2. simpl. destruct (isProcessing w); exact IH.
Qed.

Lemma awaited_quiet (w : World) :
  quiet (pending w) -> awaited w = setPending (tl (pending w)) w.
Proof.
  unfold awaited. intros H.
  destruct (pending w) as [|clicks later] eqn:E; simpl.
  - destruct w; simpl in *; subst; reflexivity.
  - inversion H; subst. apply deliver_unconfirmed. assumption.
Qed.

Lemma itemDone_quiet (text : string) (w : World) :
  quiet (pending w) ->
  controls (itemDone analyzeText database text w) = controls w
  /\ quiet (pending (itemDone analyzeText database text w)).
Proof.
  intros H. unfold itemDone, record.
  destruct (analyzeText _ text);
    repeat (rewrite awaited_quiet
              by (repeat (simpl; autorewrite with world);
                  auto using quiet_tl));
    simpl; auto using quiet_tl.
Qed.

Lemma pauseLoop_running (w : World) :
  pauseRef w = false -> pauseLoop (pending w) w = Resumed w.
Proof.
  intros H. destruct (pending w) eqn:E; simpl; rewrite H;
    destruct w; simpl in *; subst; reflexivity.
Qed.

Lemma forLoop_quiet (items : list string) :
  forall w,
    stopRef w = false -> pauseRef w = false -> quiet (pending w) ->
    exists w',
      forLoop analyzeText database items w = Returned w'
      /\ controls w' = controls w
      /\ classified (trace w') = classified (trace w) ++ items
      /\ current (progress w')
         = current (progress w) + Z.of_nat (List.length items)
      /\ total (progress w') = total (progress w)
      /\ completions (trace w') = completions (trace w).
Proof.
  induction items as [|text rest IH]; intros w Hs Hp Hq.
  - exists w. simpl. rewrite app_nil_r, Z.add_0_r. repeat split; reflexivity.
  - cbn [forLoop]. rewrite Hs, (pauseLoop_running w Hp), processItem_done.
    destruct (itemDone_quiet text w Hq) as [Hc Hq'].
    assert (Hs' : stopRef (itemDone analyzeText database text w) = false)
      by (unfold controls in Hc; congruence).
    assert (Hp' : pauseRef (itemDone analyzeText database text w) = false)
      by (unfold controls in Hc; congruence).
    destruct (IH _ Hs' Hp' Hq') as (w' & Hrun & Hc' & Hcl & Hcur & Htot & Hco).
    exists w'. split; [exact Hrun|].
    rewrite Hc', Hcl, Hcur, Htot, Hco, Hc.
    rewrite itemDone_classified, itemDone_completions, itemDone_progress.
    rewrite <- app_assoc. simpl List.length.
    destruct (outcomeAt analyzeText w text); simpl; repeat split; lia.
Qed.

(** C2.  When the operator neither pauses nor stops, [handleStart] on [N]
    items returns; it has handed all [N] items to the classifier, in the
    order submitted; [current] and [total] are [N]; [isProcessing] is off
    again; and [onComplete] has been called, once, as the last thing the
    run did. *)
Theorem undisturbed_batch_completes (items : list string) (w : World) :
  quiet (pending w) ->
  exists w',
    handleStart analyzeText database items w = Returned w'
    /\ classified (trace w') = classified (trace w) ++ items
    /\ current (progress w') = Z.of_nat (List.length items)
    /\ total (progress w') = Z.of_nat (List.length items)
    /\ isProcessing w' = false
    /\ completions (trace w') = S (completions (trace w))
    /\ exists before, trace w' = before ++ [OnComplete].
Proof.
  intros Hq. unfold handleStart, processQueue.
  match goal with
  | |- context [forLoop _ _ items ?w0] =>
      destruct (forLoop_quiet items w0)
        as (w' & Hrun & _ & Hcl & Hcur & Htot & Hco);
        [reflexivity | reflexivity | exact Hq |]
  end.
  rewrite Hrun. eexists. split; [reflexivity|].
  unfold record; simpl in *.
  rewrite classified_app, completions_app, Hcl, Hcur, Htot, Hco.
  simpl. rewrite app_nil_r.
  repeat split; try lia.
  exists (trace w'). reflexivity.
Qed.

End QuietRun.

(** *** An item the classifier fails on *)

Section FailedItem.
Import BatchProcessor.
Variable analyzeText : nat -> string -> Completion AnalysisResult.
Variable database :
  nat -> SupabaseClient.Row -> Completion SupabaseClient.Response.

Lemma prepend_cons (r : AnalysisResult) (prev : list AnalysisResult) :
  prepend r prev = r :: firstn 99 prev.
Proof. reflexivity. Qed.

(** C3.  Let the loop reach [text] (no stop seen at the top, and the pause
    loop left in world [w1]) and let the classifier throw on it.  Then the
    body of the loop completes normally and the run goes on with the
    remaining items; the result put in front of [displayResults] is the
    placeholder with the input as [original_text], the fixed
    [corrected_text] and no annotations; nothing is handed to the store;
    [failed] and [current] grow by one and [success] stays. *)
Theorem failed_item_is_isolated
  (text : string) (rest : list string) (w w1 : World) (e : Js.Error) :
  stopRef w = false ->
  pauseLoop (pending w) w = Resumed w1 ->
  analyzeText (List.length (classified (trace w1))) text = Throw e ->
  exists w',
    processItem analyzeText database text w1 = (Normal tt, w')
    /\ forLoop analyzeText database (text :: rest) w
       = forLoop analyzeText database rest w'
    /\ displayResults w'
       = {| original_text := text;
            corrected_text := "Error processing this item.";
            annotations := [] |} :: firstn 99 (displayResults w1)
    /\ store w' = store w1
    /\ success (progress w') = success (progress w1)
    /\ failed (progress w') = failed (progress w1) + 1
    /\ current (progress w') = current (progress w1) + 1.
Proof.
  intros Hstop Hwait Hthrow.
  exists (itemDone analyzeText database text w1).
  split; [apply processItem_done|].
  split; [cbn [forLoop]; rewrite Hstop, Hwait, processItem_done; reflexivity|].
  rewrite itemDone_displayResults, itemDone_store, itemDone_progress.
  unfold outcomeAt. rewrite Hthrow. simpl. repeat split.
Qed.

End FailedItem.

(** *** Concrete runs *)

Lemma counts_add_up_at_every_snapshot_witness :
  Forall balancedView
    (BatchProcessor.rendered
       (BatchProcessor.trace
          (BatchProcessor.final
             (BatchProcessor.handleStart sampleClassifier sampleDatabase
                ["a"; "bad"; "c"] (BatchProcessor.mount [])))))
  /\ balanced
       (BatchProcessor.progress
          (BatchProcessor.final
             (BatchProcessor.handleStart sampleClassifier sampleDatabase
                ["a"; "bad"; "c"] (BatchProcessor.mount [])))).
Proof.
  apply (counts_add_up_at_every_snapshot sampleClassifier sampleDatabase
           ["a"; "bad"; "c"] (BatchProcessor.mount [])).
  simpl. constructor.
Defined.

Lemma undisturbed_batch_completes_witness :
  exists w',
    BatchProcessor.handleStart sampleClassifier sampleDatabase
      ["a"; "bad"; "c"]
      (BatchProcessor.mount [[]; [BatchProcessor.ClickStop false]])
    = BatchProcessor.Returned w'
    /\ BatchProcessor.classified (BatchProcessor.trace w')
       = [] ++ ["a"; "bad"; "c"]
    /\ BatchProcessor.current (BatchProcessor.progress w') = 3
    /\ BatchProcessor.total (BatchProcessor.progress w') = 3
    /\ BatchProcessor.isProcessing w' = false
    /\ BatchProcessor.completions (BatchProcessor.trace w') = 1%nat
    /\ exists before,
         BatchProcessor.trace w' = before ++ [BatchProcessor.OnComplete].
Proof.
  apply (undisturbed_batch_completes sampleClassifier sampleDatabase
           ["a"; "bad"; "c"]
           (BatchProcessor.mount [[]; [BatchProcessor.ClickStop false]])).
  unfold quiet. simpl. repeat constructor.
Defined.

Lemma failed_item_is_isolated_witness :
  exists w',
    BatchProcessor.processItem sampleClassifier sampleDatabase "bad"
      (BatchProcessor.mount [])
    = (Normal tt, w')
    /\ BatchProcessor.forLoop sampleClassifier sampleDatabase ["bad"; "c"]
         (BatchProcessor.mount [])
       = BatchProcessor.forLoop sampleClassifier sampleDatabase ["c"] w'
    /\ BatchProcessor.displayResults w'
       = {| original_text := "bad";
            corrected_text := "Error processing this item.";
            annotations := [] |} :: firstn 99 []
    /\ BatchProcessor.store w' = []
    /\ BatchProcessor.success (BatchProcessor.progress w') = 0
    /\ BatchProcessor.failed (BatchProcessor.progress w') = 0 + 1
    /\ BatchProcessor.current (BatchProcessor.progress w') = 0 + 1.
Proof.
  apply (failed_item_is_isolated sampleClassifier sampleDatabase
           "bad" ["c"] (BatchProcessor.mount []) (BatchProcessor.mount [])
           (newError "Request failed (500)"));
    reflexivity.
Defined.

(** The scenario of three items with a failure on the second. *)
Example three_items_one_failure :
  BatchProcessor.progress
    (BatchProcessor.final
       (BatchProcessor.handleStart sampleClassifier sampleDatabase
          ["a"; "bad"; "c"] (BatchProcessor.mount [])))
  = {| BatchProcessor.current := 3; BatchProcessor.total := 3;
       BatchProcessor.success := 2; BatchProcessor.failed := 1 |}.
Proof. reflexivity. Qed.

(** *** Stopping *)

Section Stopping.
Import BatchProcessor.
Variable analyzeText : nat -> string -> Completion AnalysisResult.
Variable database :
  nat -> SupabaseClient.Row -> Completion SupabaseClient.Response.

(** A stop seen at the top of the loop ends it on the spot. *)
Lemma stop_at_top_ends_the_loop (items : list string) (w : World) :
  stopRef w = true -> forLoop analyzeText database items w = Returned w.
Proof. intros H. destruct items; simpl; [|rewrite H]; reflexivity. Qed.

(** A stop seen in the pause loop only ends the pause loop: the wait is
    left as if the operator had resumed. *)
Lemma stop_in_pause_resumes (queue : list (list Action)) (w : World) :
  pauseRef w = true -> stopRef w = true ->
  pauseLoop queue w = Resumed (setPending queue w).
Proof. intros Hp Hs. destruct queue; simpl; rewrite Hp, Hs; reflexivity. Qed.

Lemma click_keeps_stop (w : World) (a : Action) :
  stopRef w = true -> stopRef (click w a) = true.
Proof.
  intros H. unfold click, togglePause, handleStop.
  destruct (isProcessing w); [|exact H].
  destruct a as [|[|]]; simpl; auto.
Qed.

Lemma deliver_keeps_stop (clicks : list Action) (w : World) :
  stopRef w = true -> stopRef (deliver clicks w) = true.
Proof.
  unfold deliver. revert w.
  induction clicks as [|a clicks IH]; intros w H; simpl; [exact H|].
  apply IH, click_keeps_stop, H.
Qed.

Lemma awaited_keeps_stop (w : World) :
  stopRef w = true -> stopRef (awaited w) = true.
Proof.
  intros H. unfold awaited. destruct (pending w); [exact H|].
  apply deliver_keeps_stop. exact H.
Qed.

Lemma itemDone_keeps_stop (text : string) (w : World) :
  stopRef w = true -> stopRef (itemDone analyzeText database text w) = true.
Proof.
  intros H. unfold itemDone, record.
  destruct (analyzeText _ text);
    repeat (apply awaited_keeps_stop; simpl); exact H.
Qed.

(** So when the stop is confirmed while the loop polls in a pause, the
    item the loop was waiting on is classified all the same, and only
    then does the loop end. *)
Lemma stop_in_pause_classifies_the_item
  (text : string) (rest : list string) (w : World)
  (clicks : list Action) (later : list (list Action)) :
  stopRef w = false -> pauseRef w = true ->
  pending w = clicks :: later ->
  pauseRef (deliver clicks (record (SetTimeout 500) w)) = true ->
  stopRef (deliver clicks (record (SetTimeout 500) w)) = true ->
  exists w',
    forLoop analyzeText database (text :: rest) w = Returned w'
    /\ classified (trace w') = classified (trace w) ++ [text].
Proof.
  intros Hs Hp Hq Hp1 Hs1.
  set (w1 := deliver clicks (record (SetTimeout 500) w)) in *.
  exists (itemDone analyzeText database text (setPending later w1)).
  cbn [forLoop]. rewrite Hs, Hq. cbn [pauseLoop]. rewrite Hp, Hs.
  fold w1. rewrite (stop_in_pause_resumes later w1 Hp1 Hs1).
  rewrite processItem_done. split.
  - apply stop_at_top_ends_the_loop, itemDone_keeps_stop. exact Hs1.
  - rewrite itemDone_classified. simpl.
    destruct (deliver_flagsOnly clicks (record (SetTimeout 500) w))
      as (a & b & c & d & E).
    fold w1 in E. rewrite E. unfold record. simpl.
    rewrite classified_app, app_nil_r. reflexivity.
Qed.

End Stopping.

(** C5, on the code.  Three items; the operator pauses while the first is
    being handled and confirms a stop during the first 500 ms poll of the
    pause loop.  The stop is seen in the pause loop, and still the second
    item is handed to the classifier; only the third is dropped. *)
Theorem stop_seen_in_pause_still_classifies :
  let run :=
    BatchProcessor.handleStart sampleClassifier sampleDatabase
      ["a"; "b"; "c"]
      (BatchProcessor.mount
         [[BatchProcessor.ClickPause]; []; [];
          [BatchProcessor.ClickStop true]]) in
  BatchProcessor.classified (BatchProcessor.trace (BatchProcessor.final run))
  = ["a"; "b"]
  /\ BatchProcessor.current
       (BatchProcessor.progress (BatchProcessor.final run)) = 2
  /\ exists before after,
       BatchProcessor.trace (BatchProcessor.final run)
       = before
           ++ [BatchProcessor.SetTimeout 500; BatchProcessor.Classify "b"]
           ++ after
       /\ BatchProcessor.classified before = ["a"].
Proof.
  vm_compute. split; [reflexivity|]. split; [reflexivity|].
  eexists [_; _; _], _. split; reflexivity.
Qed.

(** *** The recent results *)

Section RecentResults.
Import BatchProcessor.
Variable analyzeText : nat -> string -> Completion AnalysisResult.
Variable database :
  nat -> SupabaseClient.Row -> Completion SupabaseClient.Response.

Lemma resultsFrom_app (k : nat) (texts more : list string) :
  resultsFrom analyzeText k (texts ++ more)
  = resultsFrom analyzeText k texts
      ++ resultsFrom analyzeText (k + List.length texts) more.
Proof.
  revert k. induction texts as [|t texts IH]; intros k; simpl.
  - rewrite Nat.add_0_r. reflexivity.
  - rewrite IH. do 3 f_equal. lia.
Qed.

Lemma resultsFrom_length (k : nat) (texts : list string) :
  List.length (resultsFrom analyzeText k texts) = List.length texts.
Proof.
  revert k. induction texts as [|t texts IH]; intros k; simpl;
    [|rewrite IH]; reflexivity.
Qed.

Lemma prepend_firstn (r : AnalysisResult) (l : list AnalysisResult) :
  prepend r (firstn 100 l) = firstn 100 (r :: l).
Proof.
  rewrite prepend_cons. change (firstn 100 (r :: l)) with (r :: firstn 99 l).
  f_equal. rewrite firstn_firstn. reflexivity.
Qed.

Lemma recent_snoc (k : nat) (texts : list string) (text : string) :
  recent analyzeText k (texts ++ [text])
  = prepend (resultOf (analyzeText (k + List.length texts) text) text)
      (recent analyzeText k texts).
Proof.
  unfold recent. rewrite prepend_firstn, resultsFrom_app, rev_app_distr.
  reflexivity.
Qed.

Lemma recent_length (k : nat) (texts : list string) :
  (List.length (recent analyzeText k texts) <= 100)%nat.
Proof. unfold recent. apply firstn_le_length. Qed.

Lemma showsRecent_idle (w0 w w' : World) :
  idle w w' -> showsRecent analyzeText w0 w -> showsRecent analyzeText w0 w'.
Proof.
  intros [_ Hd _ _ _ Hc Hr _] (texts & news & H1 & H2 & H3 & H4).
  exists texts, news. rewrite Hd, Hc, Hr. auto.
Qed.

Lemma showsRecent_itemDone (w0 : World) (text : string) (w : World) :
  showsRecent analyzeText w0 w ->
  showsRecent analyzeText w0 (itemDone analyzeText database text w).
Proof.
  intros (texts & news & H1 & H2 & H3 & H4).
  set (k := List.length (classified (trace w0))) in *.
  assert (Hnew : displayResults (itemDone analyzeText database text w)
                 = recent analyzeText k (texts ++ [text])).
  { rewrite itemDone_displayResults, recent_snoc, H3. unfold outcomeAt.
    rewrite H1, length_app. reflexivity. }
  exists (texts ++ [text]),
    (news ++ [snapshot (itemDone analyzeText database text w)]).
  rewrite itemDone_classified, itemDone_rendered, H1, H2, <- !app_assoc.
  repeat split; [exact Hnew|].
  rewrite length_app, Nat.add_comm. cbn [List.length Nat.add].
  rewrite seq_S, !map_app, H4. cbn [map snapshot shown_results Nat.add].
  rewrite Hnew, firstn_all2 by (rewrite length_app; simpl; lia).
  f_equal. apply map_ext_in. intros j Hj. apply in_seq in Hj.
  rewrite firstn_app.
  replace (j - List.length texts)%nat with 0%nat by lia.
  cbn [firstn]. rewrite app_nil_r. reflexivity.
Qed.

(** C7.  In a run of [handleStart], however long the batch: every
    snapshot the run renders shows at most 100 results, and so does
    [displayResults] at the end; the [j]-th snapshot shows the results of
    the first [j] items classified, the most recent first, cut to 100;
    [displayResults] at the end shows those of all the items classified,
    so exactly 100 results once 100 items or more have been classified. *)
Theorem recent_results_are_bounded_and_newest_first
  (items : list string) (w : World) :
  let w' := final (handleStart analyzeText database items w) in
  let k := List.length (classified (trace w)) in
  exists texts news,
    classified (trace w') = classified (trace w) ++ texts
    /\ rendered (trace w') = rendered (trace w) ++ news
    /\ displayResults w' = firstn 100 (rev (resultsFrom analyzeText k texts))
    /\ map shown_results news
       = map (fun j =>
                firstn 100 (rev (resultsFrom analyzeText k (firstn j texts))))
           (seq 1 (List.length texts))
    /\ (List.length (displayResults w') <= 100)%nat
    /\ Forall (fun v => (List.length (shown_results v) <= 100)%nat) news
    /\ ((100 <= List.length texts)%nat ->
        List.length (displayResults w') = 100%nat).
Proof.
  intros w' k.
  assert (H : showsRecent analyzeText w w').
  { unfold w', handleStart, processQueue.
    match goal with
    | |- context [forLoop _ _ items ?w0] =>
        pose proof (forLoop_invariant analyzeText database
                      (showsRecent analyzeText w)
                      (showsRecent_idle w) (showsRecent_itemDone w)
                      items w0) as Hloop
    end.
    match type of Hloop with
    | ?A -> _ =>
        assert (Hstart : A)
          by (exists [], []; simpl; rewrite !app_nil_r; auto)
    end.
    specialize (Hloop Hstart).
    destruct (forLoop _ _ _ _) as [w1 | w1 | e w1]; simpl in *;
      try exact Hloop.
    destruct Hloop as (texts & news & H1 & H2 & H3 & H4).
    exists texts, news. unfold record; simpl.
    rewrite classified_app, rendered_app; simpl. rewrite !app_nil_r. auto. }
  destruct H as (texts & news & H1 & H2 & H3 & H4).
  exists texts, news. fold k in H3, H4. unfold recent in *.
  repeat split; try assumption.
  - rewrite H3. apply firstn_le_length.
  - apply Forall_forall. intros v Hv.
    apply (in_map shown_results) in Hv. rewrite H4 in Hv.
    apply in_map_iff in Hv. destruct Hv as (j & <- & _).
    apply firstn_le_length.
  - intros Hmany.
    rewrite H3, length_firstn, length_rev, resultsFrom_length. lia.
Qed.

End RecentResults.

(** *** Pausing *)

Section Pausing.
Import BatchProcessor.
Variable analyzeText : nat -> string -> Completion AnalysisResult.
Variable database :
  nat -> SupabaseClient.Row -> Completion SupabaseClient.Response.

Lemma noStop_tl (clicks : list (list Action)) :
  noStop clicks -> noStop (tl clicks).
Proof. intros H. destruct H; simpl; [constructor | assumption]. Qed.

Lemma click_noStop (w : World) (a : Action) :
  a <> ClickStop true -> stopRef (click w a) = stopRef w.
Proof.
  intros H. unfold click, togglePause, handleStop.
  destruct (isProcessing w); [|reflexivity].
  destruct a as [|[|]]; simpl; congruence.
Qed.

Lemma deliver_noStop (clicks : list Action) (w : World) :
  Forall (fun a => a <> ClickStop true) clicks ->
  stopRef (deliver clicks w) = stopRef w.
Proof.
  unfold deliver. intros H. revert w.
  induction H as [|a clicks Ha _ IH]; intros w; simpl; [reflexivity|].
  rewrite IH. apply click_noStop, Ha.
Qed.

Lemma awaited_noStop (w : World) :
  noStop (pending w) -> stopRef (awaited w) = stopRef w.
Proof.
  unfold awaited. intros H. destruct (pending w); [reflexivity|].
  inversion H; subst. rewrite deliver_noStop by assumption. reflexivity.
Qed.

Lemma itemDone_noStop (text : string) (w : World) :
  noStop (pending w) ->
  stopRef (itemDone analyzeText database text w) = stopRef w
  /\ noStop (pending (itemDone analyzeText database text w)).
Proof.
  intros H. unfold itemDone, record.
  destruct (analyzeText _ text); split;
    repeat (simpl;
            rewrite ?awaited_pending,
              ?awaited_noStop
              by (repeat (simpl; autorewrite with world);
                  auto using noStop_tl));
    auto using noStop_tl.
Qed.

Lemma pauseLoop_noStop (queue : list (list Action)) :
  forall w,
    stopRef w = false -> noStop queue ->
    forall w', pauseLoop queue w = Resumed w' ->
               stopRef w' = false /\ noStop (pending w').
Proof.
  induction queue as [|clicks later IH]; intros w Hs Hq w'; simpl;
    rewrite Hs.
  - destruct (pauseRef w); [discriminate|].
    intros [= <-]. split; [exact Hs | constructor].
  - destruct (pauseRef w).
    + inversion Hq; subst. apply IH; [|assumption].
      rewrite deliver_noStop by assumption. exact Hs.
    + intros [= <-]. split; [exact Hs | exact Hq].
Qed.

Lemma forLoop_noStop (items : list string) :
  forall w w',
    stopRef w = false -> noStop (pending w) ->
    forLoop analyzeText database items w = Returned w' ->
    progress w'
    = tally analyzeText (List.length (classified (trace w))) items (progress w)
    /\ classified (trace w') = classified (trace w) ++ items.
Proof.
  induction items as [|text rest IH]; intros w w' Hs Hq; cbn [forLoop tally].
  - intros [= <-]. rewrite app_nil_r. split; reflexivity.
  - rewrite Hs.
    pose proof (pauseLoop_idle (pending w) w) as Hidle.
    pose proof (pauseLoop_noStop (pending w) w Hs Hq) as Hwait.
    destruct (pauseLoop (pending w) w) as [w1 | w1]; [|discriminate].
    destruct (Hwait w1 eq_refl) as [Hs1 Hq1].
    destruct Hidle as [Hp _ _ _ _ Hc _ _].
    rewrite processItem_done. intros Hrun.
    destruct (itemDone_noStop text w1 Hq1) as [Hs2 Hq2].
    rewrite Hs1 in Hs2.
    destruct (IH _ _ Hs2 Hq2 Hrun) as [Hprog Hcl].
    rewrite Hprog, Hcl, itemDone_classified, itemDone_progress.
    unfold outcomeAt. rewrite Hc, Hp, length_app, <- app_assoc.
    cbn [List.length]. rewrite Nat.add_1_r. split; reflexivity.
Qed.

Lemma click_toggled (w : World) (a : Action) :
  isProcessing w = true -> pauseRef w = isPaused w -> a <> ClickStop true ->
  isProcessing (click w a) = true
  /\ pauseRef (click w a) = isPaused (click w a)
  /\ pauseRef (click w a) = toggled (pauseRef w) a.
Proof.
  intros Hp He Ha. unfold click. rewrite Hp.
  destruct a as [|[|]]; unfold togglePause, handleStop; simpl;
    repeat split; congruence.
Qed.

Lemma deliver_toggled (clicks : list Action) :
  forall w,
    isProcessing w = true -> pauseRef w = isPaused w ->
    Forall (fun a => a <> ClickStop true) clicks ->
    isProcessing (deliver clicks w) = true
    /\ pauseRef (deliver clicks w) = isPaused (deliver clicks w)
    /\ pauseRef (deliver clicks w) = fold_left toggled clicks (pauseRef w).
Proof.
  unfold deliver.
  induction clicks as [|a clicks IH]; intros w Hp He Hq; simpl.
  - repeat split; assumption.
  - inversion Hq as [|? ? Ha Hq']; subst.
    destruct (click_toggled w a Hp He Ha) as (A & B & C).
    destruct (IH (click w a) A B Hq') as (A' & B' & C').
    rewrite C in C'. repeat split; assumption.
Qed.

Lemma deliver_pending (clicks : list Action) (w : World) :
  pending (deliver clicks w) = pending w.
Proof.
  destruct (deliver_flagsOnly clicks w) as (a & b & c & d & ->). reflexivity.
Qed.

Lemma resumable_same (w w' : World) :
  controls w' = controls w -> pending w' = pending w ->
  resumable w -> resumable w'.
Proof.
  unfold controls, resumable. intros [= Hp Hi Hs Hr] Hq.
  rewrite Hp, Hi, Hs, Hr, Hq. exact (fun H => H).
Qed.

Lemma awaited_resumable (w : World) : resumable w -> resumable (awaited w).
Proof.
  intros (Hp & Hs & He & Hq & Ha). unfold awaited.
  destruct (pending w) as [|clicks later] eqn:E.
  - unfold resumable. rewrite E. repeat split; assumption.
  - inversion Hq as [|? ? Hc Hl]; subst.
    destruct (deliver_toggled clicks (setPending later w) Hp He Hc)
      as (A & B & C).
    unfold resumable.
    rewrite deliver_pending, (deliver_noStop clicks _ Hc).
    split; [exact A|]. split; [exact Hs|]. split; [exact B|].
    split; [exact Hl|]. rewrite C. exact Ha.
Qed.

Lemma itemDone_resumable (text : string) (w : World) :
  resumable w -> resumable (itemDone analyzeText database text w).
Proof.
  intros H. unfold itemDone. cbv zeta.
  set (w1 := awaited (record (Classify text) w)).
  assert (H1 : resumable w1).
  { apply awaited_resumable.
    apply (resumable_same w); [reflexivity | reflexivity | exact H]. }
  clearbody w1. apply awaited_resumable.
  destruct (analyzeText _ text) as [result | error].
  - set (w2 := awaited (setStore _ w1)).
    assert (H2 : resumable w2).
    { apply awaited_resumable.
      apply (resumable_same w1); [reflexivity | reflexivity | exact H1]. }
    clearbody w2.
    apply (resumable_same w2); [reflexivity | reflexivity | exact H2].
  - apply (resumable_same w1); [reflexivity | reflexivity | exact H1].
Qed.

(** The pause loop is left when the clicks to come resume every pause. *)
Lemma pauseLoop_resumes (queue : list (list Action)) :
  forall w,
    resumable (setPending queue w) ->
    exists w', pauseLoop queue w = Resumed w' /\ resumable w'.
Proof.
  induction queue as [|clicks later IH]; intros w H;
    pose proof H as (Hp & Hs & He & Hq & Ha); simpl in Hp, Hs, He, Hq, Ha;
    cbn [pauseLoop]; rewrite Hs.
  - rewrite Ha. exists (setPending [] w). split; [reflexivity | exact H].
  - destruct (pauseRef w) eqn:Hr.
    + inversion Hq as [|? ? Hc Hl]; subst.
      destruct (deliver_toggled clicks (record (SetTimeout 500) w) Hp
                  (eq_trans Hr He) Hc) as (A & B & C).
      change (pauseRef (record (SetTimeout 500) w)) with (pauseRef w) in C.
      rewrite Hr in C.
      apply IH. unfold resumable. simpl.
      rewrite (deliver_noStop clicks _ Hc).
      split; [exact A|]. split; [exact Hs|]. split; [exact B|].
      split; [exact Hl|]. rewrite C. exact Ha.
    + exists (setPending (clicks :: later) w).
      split; [reflexivity | exact H].
Qed.

(** And so is the loop over the items: it returns. *)
Lemma forLoop_resumes (items : list string) :
  forall w,
    resumable w ->
    exists w', forLoop analyzeText database items w = Returned w'.
Proof.
  induction items as [|text rest IH]; intros w H.
  - exists w. reflexivity.
  - cbn [forLoop]. pose proof H as (_ & Hs & _). rewrite Hs.
    destruct (pauseLoop_resumes (pending w) w) as (w1 & E & H1).
    { apply (resumable_same w); [reflexivity | reflexivity | exact H]. }
    rewrite E, processItem_done. apply IH, itemDone_resumable, H1.
Qed.

Lemma handleStart_resumes
  (items : list string) (clicks : list (list Action)) (w : World) :
  noStop clicks -> pausedAfter false clicks = false ->
  exists w',
    handleStart analyzeText database items (setPending clicks w)
    = Returned w'
    /\ progress w'
       = tally analyzeText (List.length (classified (trace w))) items
           {| current := 0; total := Z.of_nat (List.length items);
              success := 0; failed := 0 |}
    /\ classified (trace w') = classified (trace w) ++ items.
Proof.
  intros Hq Hres. unfold handleStart, processQueue.
  match goal with
  | |- context [forLoop _ _ items ?w1] =>
      destruct (forLoop_resumes items w1) as (w1' & Hrun);
        [repeat split; assumption|];
        destruct (forLoop_noStop items w1 w1' eq_refl Hq Hrun) as [Hp Hc];
        rewrite Hrun
  end.
  eexists. split; [reflexivity|].
  unfold record; simpl in *.
  rewrite classified_app, Hp, Hc. simpl. rewrite app_nil_r.
  split; reflexivity.
Qed.

(** C8.  Take a run of [handleStart] in which the operator pauses and
    resumes as often as they like, never confirms a stop, and leaves no
    pause without its resume.  The run returns, and so does the run with
    the same items and the same classifier in which nobody clicks; both
    end with the same [current], [total], [success] and [failed], and
    both have handed exactly the items, once each and in order, to the
    classifier. *)
Theorem pausing_keeps_the_counts
  (items : list string) (clicks : list (list Action)) (w : World) :
  noStop clicks -> pausedAfter false clicks = false ->
  exists w' w0,
    handleStart analyzeText database items (setPending clicks w)
    = Returned w'
    /\ handleStart analyzeText database items (setPending [] w)
       = Returned w0
    /\ progress w' = progress w0
    /\ classified (trace w') = classified (trace w) ++ items
    /\ classified (trace w0) = classified (trace w) ++ items.
Proof.
  intros Hq Hres.
  destruct (handleStart_resumes items clicks w Hq Hres)
    as (w' & Hrun & Hp & Hc).
  destruct (handleStart_resumes items [] w (Forall_nil _) eq_refl)
    as (w0 & Hrun0 & Hp0 & Hc0).
  exists w', w0. rewrite Hp, Hp0. repeat split; assumption.
Qed.

End Pausing.

Lemma pausing_keeps_the_counts_witness :
  noStop
    [[BatchProcessor.ClickPause]; []; []; []; [BatchProcessor.ClickPause]]
  /\ pausedAfter false
       [[BatchProcessor.ClickPause]; []; []; []; [BatchProcessor.ClickPause]]
     = false
  /\ exists w' w0,
       BatchProcessor.handleStart sampleClassifier sampleDatabase
         ["a"; "bad"; "c"]
         (BatchProcessor.setPending
            [[BatchProcessor.ClickPause]; []; []; [];
             [BatchProcessor.ClickPause]]
            (BatchProcessor.mount []))
       = BatchProcessor.Returned w'
       /\ BatchProcessor.handleStart sampleClassifier sampleDatabase
            ["a"; "bad"; "c"]
            (BatchProcessor.setPending [] (BatchProcessor.mount []))
          = BatchProcessor.Returned w0
       /\ BatchProcessor.progress w' = BatchProcessor.progress w0
       /\ BatchProcessor.classified (BatchProcessor.trace w')
          = [] ++ ["a"; "bad"; "c"]
       /\ BatchProcessor.classified (BatchProcessor.trace w0)
          = [] ++ ["a"; "bad"; "c"].
Proof.
  assert (H : noStop
                [[BatchProcessor.ClickPause]; []; []; [];
                 [BatchProcessor.ClickPause]])
    by (repeat constructor; discriminate).
  split; [exact H|]. split; [reflexivity|].
  apply (pausing_keeps_the_counts sampleClassifier sampleDatabase
           ["a"; "bad"; "c"]
           [[BatchProcessor.ClickPause]; []; []; [];
            [BatchProcessor.ClickPause]]
           (BatchProcessor.mount []) H eq_refl).
Defined.

(** *** The store cannot fail an item *)

Section StoreIndependence.
Import BatchProcessor.
Variable analyzeText : nat -> string -> Completion AnalysisResult.

Lemma click_setStore s w a : click (setStore s w) a = setStore s (click w a).
Proof.
  unfold click, togglePause, handleStop. simpl.
  destruct (isProcessing w); [|reflexivity].
  destruct a as [|[|]]; reflexivity.
Qed.

Lemma deliver_setStore s clicks w :
  deliver clicks (setStore s w) = setStore s (deliver clicks w).
Proof.
  unfold deliver. revert w.
  induction clicks as [|a clicks IH]; intros w; simpl; [reflexivity|].
  rewrite click_setStore. apply IH.
Qed.

Lemma awaited_setStore s w : awaited (setStore s w) = setStore s (awaited w).
Proof.
  unfold awaited. simpl. destruct (pending w); [reflexivity|].
  rewrite <- deliver_setStore. reflexivity.
Qed.

Lemma setStore_same (w1 w2 : World) :
  storeless w1 = storeless w2 -> w1 = setStore (store w1) w2.
Proof.
  destruct w1, w2. unfold storeless. simpl. intros [=]. subst. reflexivity.
Qed.

Lemma setTrace_setStore s f w :
  setTrace f (setStore s w) = setStore s (setTrace f w).
Proof. reflexivity. Qed.

Lemma setProgress_setStore s f w :
  setProgress f (setStore s w) = setStore s (setProgress f w).
Proof. reflexivity. Qed.

Lemma setDisplayResults_setStore s f w :
  setDisplayResults f (setStore s w) = setStore s (setDisplayResults f w).
Proof. reflexivity. Qed.

Lemma setBatchAnnotations_setStore s f w :
  setBatchAnnotations f (setStore s w)
  = setStore s (setBatchAnnotations f w).
Proof. reflexivity. Qed.

Lemma setLatestResult_setStore s v w :
  setLatestResult v (setStore s w) = setStore s (setLatestResult v w).
Proof. reflexivity. Qed.

Lemma setStore_setStore s s' w : setStore s (setStore s' w) = setStore s w.
Proof. reflexivity. Qed.

Ltac store_outwards :=
  repeat first
    [ rewrite awaited_setStore
    | rewrite setTrace_setStore
    | rewrite setProgress_setStore
    | rewrite setDisplayResults_setStore
    | rewrite setBatchAnnotations_setStore
    | rewrite setLatestResult_setStore
    | rewrite setStore_setStore
    | progress cbn [progress displayResults latestResult setStore] ].

Lemma itemDone_setStore database1 database2 s text w :
  storeless (itemDone analyzeText database2 text (setStore s w))
  = storeless (itemDone analyzeText database1 text w).
Proof.
  unfold itemDone, record, snapshot, storeless.
  change (trace (setStore s w)) with (trace w).
  destruct (analyzeText _ text); store_outwards; reflexivity.
Qed.

Lemma pauseLoop_setStore s queue :
  forall w,
    pauseLoop queue (setStore s w)
    = match pauseLoop queue w with
      | Resumed w' => Resumed (setStore s w')
      | Polling w' => Polling (setStore s w')
      end.
Proof.
  induction queue as [|clicks later IH]; intros w; simpl.
  - destruct (pauseRef w); [destruct (stopRef w)|]; reflexivity.
  - destruct (pauseRef w); [destruct (stopRef w)|]; try reflexivity.
    rewrite <- IH, <- deliver_setStore. reflexivity.
Qed.

Lemma forLoop_setStore database1 database2 (items : list string) :
  forall s w,
    storelessRun (forLoop analyzeText database2 items (setStore s w))
    = storelessRun (forLoop analyzeText database1 items w).
Proof.
  induction items as [|text rest IH]; intros s w; cbn [forLoop].
  - reflexivity.
  - simpl stopRef. destruct (stopRef w); [reflexivity|].
    simpl pending. rewrite pauseLoop_setStore.
    destruct (pauseLoop (pending w) w) as [w' | w']; [|reflexivity].
    rewrite !processItem_done.
    rewrite (setStore_same _ _
               (itemDone_setStore database1 database2 s text w')).
    apply IH.
Qed.

(** C6.  [saveRecord] always completes normally: when the insert rejects,
    or resolves with an error, it writes the failure to the console and
    returns [null].  So an item the classifier succeeds on completes the
    body of the loop normally and is counted as a success and put in
    front of [displayResults], whatever the database does; and two runs
    that differ only in the database end the same way, in worlds that
    differ only in the store client's log. *)
Theorem store_failure_never_fails_an_item :
  (forall database record log,
      exists value log',
        SupabaseClient.saveRecord database record log = (Normal value, log')
        /\ (forall err,
               database (SupabaseClient.inserts log) (rowOf record)
               = Throw err ->
               value = None
               /\ log' = (log ++ [SupabaseClient.Insert (rowOf record)])
                           ++ [SupabaseClient.ConsoleError
                                 "Failed to save record:" err])
        /\ (forall response err,
               database (SupabaseClient.inserts log) (rowOf record)
               = Normal response ->
               SupabaseClient.error response = Some err ->
               value = None
               /\ log' = ((log ++ [SupabaseClient.Insert (rowOf record)])
                            ++ [SupabaseClient.ConsoleError
                                  "Supabase Error:" err])
                           ++ [SupabaseClient.ConsoleError
                                 "Failed to save record:" err]))
  /\ (forall database text w result,
         analyzeText (List.length (classified (trace w))) text
         = Normal result ->
         exists w',
           processItem analyzeText database text w = (Normal tt, w')
           /\ progress w' = countSuccess (progress w)
           /\ displayResults w' = result :: firstn 99 (displayResults w)
           /\ latestResult w' = Some result)
  /\ (forall database1 database2 items w,
         storelessRun (handleStart analyzeText database1 items w)
         = storelessRun (handleStart analyzeText database2 items w)).
Proof.
  split; [|split].
  - intros database record log.
    exists (fst (saved database record log)),
      (snd (saved database record log)).
    split; [apply saveRecord_saved|].
    unfold saved. split.
    + intros err ->. split; reflexivity.
    + intros response err -> ->. split; reflexivity.
  - intros database text w result Hok.
    exists (itemDone analyzeText database text w).
    split; [apply processItem_done|].
    rewrite itemDone_progress, itemDone_displayResults,
      itemDone_latestResult.
    unfold outcomeAt. rewrite Hok. repeat split.
  - intros database1 database2 items w.
    unfold handleStart, processQueue.
    match goal with
    | |- context [forLoop _ database1 items ?w0] =>
        pose proof (forLoop_setStore database2 database1 items
                      (store w0) w0) as H;
          replace (setStore (store w0) w0) with w0 in H
          by (destruct w; reflexivity)
    end.
    destruct (forLoop analyzeText database1 items _) as [w1 | w1 | e w1];
      destruct (forLoop analyzeText database2 items _) as [w2 | w2 | e' w2];
      simpl in H; try discriminate; simpl.
    + assert (E : storeless w1 = storeless w2) by congruence.
      rewrite (setStore_same _ _ E). reflexivity.
    + exact H.
    + exact H.
Qed.

End StoreIndependence.

(** With the database down, the sample batch ends with the counts it has
    with the database up. *)
Example counts_with_the_database_down :
  BatchProcessor.progress
    (BatchProcessor.final
       (BatchProcessor.handleStart sampleClassifier brokenDatabase
          ["a"; "bad"; "c"] (BatchProcessor.mount [])))
  = {| BatchProcessor.current := 3; BatchProcessor.total := 3;
       BatchProcessor.success := 2; BatchProcessor.failed := 1 |}.
Proof. reflexivity. Qed.

(** ** The classifier clients *)

(** *** Rounding to the nearest double *)

Section RoundingFacts.
Import Binary64.
Local Open Scope Q_scope.

Lemma two_pos (k : Z) : 0 < 2 ^ k.
Proof. apply Qpower_0_lt. reflexivity. Qed.

Lemma nearestEven_floor (y : Q) :
  (Qfloor y <= nearestEven y <= Qfloor y + 1)%Z.
Proof.
  unfold nearestEven. destruct (Qcompare _ _); [destruct (Z.even _)| |]; lia.
Qed.

Lemma nearestEven_between (A B : Z) (y : Q) :
  inject_Z A <= y -> y <= inject_Z B -> (A <= nearestEven y <= B)%Z.
Proof.
  intros HA HB.
  assert (Hf : (A <= Qfloor y)%Z).
  { rewrite <- (Qfloor_Z A). apply Qfloor_resp_le, HA. }
  pose proof (nearestEven_floor y) as [Hlo Hhi].
  split; [lia|].
  pose proof (Qfloor_le y) as Hfy.
  assert (Hfb : (Qfloor y <= B)%Z).
  { rewrite <- (Qfloor_Z B). apply Qfloor_resp_le, HB. }
  destruct (Z.eq_dec (Qfloor y) B) as [E|]; [|lia].
  assert (Hy : y == inject_Z B).
  { apply Qle_antisym; [exact HB | rewrite <- E; exact Hfy]. }
  unfold nearestEven.
  assert (Hc : Qcompare (y - inject_Z (Qfloor y)) (1 # 2) = Lt).
  { apply (proj1 (Qlt_alt _ _)). rewrite E. lra. }
  rewrite Hc. lia.
Qed.

Lemma nearestEven_below (N : Z) (y : Q) :
  y < inject_Z N - (1 # 2) -> (nearestEven y <= N - 1)%Z.
Proof.
  intros H. unfold nearestEven.
  pose proof (Qfloor_le y) as Hfy.
  assert (Hf : (Qfloor y <= N - 1)%Z).
  { assert (Hlt : inject_Z (Qfloor y) < inject_Z N) by lra.
    rewrite <- Zlt_Qlt in Hlt. lia. }
  destruct (Qcompare (y - inject_Z (Qfloor y)) (1 # 2)) eqn:Hc.
  - apply Qeq_alt in Hc.
    assert (Hlt : inject_Z (Qfloor y) + 1 < inject_Z N) by lra.
    assert (Hz : (Qfloor y + 1 < N)%Z).
    { rewrite Zlt_Qlt, inject_Z_plus. exact Hlt. }
    destruct (Z.even _); lia.
  - exact Hf.
  - apply Qgt_alt in Hc.
    assert (Hlt : inject_Z (Qfloor y) + 1 < inject_Z N) by lra.
    assert (Hz : (Qfloor y + 1 < N)%Z).
    { rewrite Zlt_Qlt, inject_Z_plus. exact Hlt. }
    lia.
Qed.

Lemma Qabs_same (x : Q) : 0 <= x -> Qabs x = x.
Proof.
  destruct x as [n d]. unfold Qle, Qabs. simpl. intros H.
  rewrite Z.abs_eq by lia. reflexivity.
Qed.

Lemma two_power (k : Z) : (0 <= k)%Z -> 2 ^ k == inject_Z (2 ^ k).
Proof. intros H. rewrite Zpower_Qpower by exact H. reflexivity. Qed.

Lemma ilog2_spec (x : Q) :
  0 < x -> 2 ^ ilog2 x <= x /\ x < 2 ^ (ilog2 x + 1).
Proof.
  intros Hx. unfold ilog2.
  destruct x as [n d]. cbn [Qnum Qden].
  assert (Hn : (0 < n)%Z) by (unfold Qlt in Hx; simpl in Hx; lia).
  pose proof (Z.log2_spec n Hn) as [Hn1 Hn2].
  pose proof (Z.log2_spec (Z.pos d) (Pos2Z.is_pos d)) as [Hd1 Hd2].
  pose proof (Z.log2_nonneg n) as Ha.
  pose proof (Z.log2_nonneg (Z.pos d)) as Hb.
  set (a := Z.log2 n) in *. set (b := Z.log2 (Z.pos d)) in *.
  assert (E : forall u v, (0 <= u)%Z -> (0 <= v)%Z ->
                2 ^ (u - v) == inject_Z (2 ^ u) / inject_Z (2 ^ v)).
  { intros u v Hu Hv. rewrite Qpower_minus by discriminate.
    rewrite !two_power by assumption. reflexivity. }
  assert (Hpa : (0 < 2 ^ a)%Z) by (apply Z.pow_pos_nonneg; lia).
  assert (Hpb : (0 < 2 ^ b)%Z) by (apply Z.pow_pos_nonneg; lia).
  assert (Hlow : 2 ^ (a - b - 1) <= n # d).
  { replace (a - b - 1)%Z with (a - (b + 1))%Z by lia.
    rewrite E by lia.
    assert (Hpb1 : (0 < 2 ^ (b + 1))%Z) by (apply Z.pow_pos_nonneg; lia).
    apply Qle_shift_div_r; [rewrite <- (Zlt_Qlt 0); exact Hpb1|].
    unfold Qle, Qmult, inject_Z. simpl.
    rewrite !Z.mul_1_r. unfold Z.succ in *. nia. }
  assert (Hhigh : n # d < 2 ^ (a - b + 1)).
  { replace (a - b + 1)%Z with (a + 1 - b)%Z by lia.
    rewrite E by lia.
    apply Qlt_shift_div_l; [rewrite <- (Zlt_Qlt 0); exact Hpb|].
    unfold Qlt, Qmult, inject_Z. simpl.
    rewrite !Z.mul_1_r. unfold Z.succ in *. nia. }
  destruct (Qle_bool (2 ^ (a - b)) (n # d)) eqn:Hc.
  - apply Qle_bool_iff in Hc. split; assumption.
  - split; [exact Hlow|].
    replace (a - b - 1 + 1)%Z with (a - b)%Z by lia.
    apply Qnot_le_lt. intros H. apply Qle_bool_iff in H. congruence.
Qed.

Lemma ilog2_unique (x : Q) (k : Z) :
  2 ^ k <= x -> x < 2 ^ (k + 1) -> ilog2 x = k.
Proof.
  intros Hlo Hhi.
  assert (Hx : 0 < x) by (pose proof (two_pos k); lra).
  destruct (ilog2_spec x Hx) as [Hi1 Hi2].
  assert (H1 : (k < ilog2 x + 1)%Z).
  { apply (Qpower_lt_compat_l_inv 2); [lra | reflexivity]. }
  assert (H2 : (ilog2 x < k + 1)%Z).
  { apply (Qpower_lt_compat_l_inv 2); [lra | reflexivity]. }
  lia.
Qed.

Lemma ilog2_below (x : Q) (k : Z) : 0 < x -> x < 2 ^ k -> (ilog2 x < k)%Z.
Proof.
  intros Hx Hk. destruct (ilog2_spec x Hx) as [Hi _].
  apply (Qpower_lt_compat_l_inv 2); [lra | reflexivity].
Qed.

(** A real between two integers below [2^53] is rounded to a double
    between them. *)
Lemma round_between (a b : Z) (x : Q) :
  (0 <= a)%Z -> (b < 2 ^ 53)%Z ->
  inject_Z a <= x -> x <= inject_Z b ->
  inject_Z a <= round x /\ round x <= inject_Z b.
Proof.
  intros Ha Hb Hax Hxb. unfold round.
  assert (Ha0 : 0 <= inject_Z a) by (rewrite <- (Zle_Qle 0); exact Ha).
  destruct (Qeq_bool x 0) eqn:Hz.
  - apply Qeq_bool_iff in Hz. rewrite Hz in *. split; assumption.
  - assert (Hx : 0 < x).
    { apply Qeq_bool_neq in Hz. lra. }
    assert (Hulp : (ulp x <= 0)%Z).
    { unfold ulp. rewrite Qabs_same by lra.
      assert (ilog2 x < 53)%Z; [|lia].
      apply ilog2_below; [exact Hx|].
      rewrite two_power by lia.
      apply Qle_lt_trans with (inject_Z b); [exact Hxb|].
      rewrite <- Zlt_Qlt. exact Hb. }
    set (e := ulp x) in *.
    assert (Hs : 2 ^ (- e) == inject_Z (2 ^ (- e))) by (apply two_power; lia).
    assert (Hinv : / 2 ^ e == inject_Z (2 ^ (- e))).
    { rewrite <- Hs, Qpower_opp. reflexivity. }
    assert (Hp : (0 < 2 ^ (- e))%Z) by (apply Z.pow_pos_nonneg; lia).
    assert (HpQ : 0 < inject_Z (2 ^ (- e)))
      by (rewrite <- (Zlt_Qlt 0); exact Hp).
    pose proof (two_pos e) as He.
    destruct (nearestEven_between (a * 2 ^ (- e)) (b * 2 ^ (- e)) (x / 2 ^ e))
      as [Hlo Hhi].
    + unfold Qdiv. rewrite Hinv, inject_Z_mult. nra.
    + unfold Qdiv. rewrite Hinv, inject_Z_mult. nra.
    + rewrite Zle_Qle, inject_Z_mult in Hlo, Hhi.
      assert (Hone : inject_Z (2 ^ (- e)) * 2 ^ e == 1).
      { rewrite <- Hinv. field. lra. }
      set (r := inject_Z (nearestEven (x / 2 ^ e))) in *.
      set (p := inject_Z (2 ^ (- e))) in *.
      set (q := 2 ^ e) in *.
      split; nra.
Qed.

Lemma round_integer (a : Z) :
  (0 <= a < 2 ^ 53)%Z -> round (inject_Z a) == inject_Z a.
Proof.
  intros [Ha Hb].
  destruct (round_between a a (inject_Z a) Ha Hb); try lra.
Qed.

Lemma ulp_at (x : Q) (k : Z) :
  2 ^ k <= x -> x < 2 ^ (k + 1) -> (-1022 <= k)%Z -> ulp x = (k - 52)%Z.
Proof.
  intros Hlo Hhi Hk. unfold ulp.
  assert (Hx : 0 < x) by (pose proof (two_pos k); lra).
  rewrite Qabs_same by lra. rewrite (ilog2_unique x k Hlo Hhi). lia.
Qed.

Lemma round_at (x : Q) (k : Z) :
  2 ^ k <= x -> x < 2 ^ (k + 1) -> (-1022 <= k)%Z ->
  round x = inject_Z (nearestEven (x / 2 ^ (k - 52))) * 2 ^ (k - 52).
Proof.
  intros Hlo Hhi Hk. unfold round.
  assert (Hx : 0 < x) by (pose proof (two_pos k); lra).
  assert (Hz : Qeq_bool x 0 = false).
  { destruct (Qeq_bool x 0) eqn:E; [|reflexivity].
    apply Qeq_bool_iff in E. lra. }
  rewrite Hz, (ulp_at x k Hlo Hhi Hk). reflexivity.
Qed.

(** The doubles below one are at most [1 - 2^-53]. *)
Lemma double_below_one (r : Q) :
  0 <= r -> r < 1 -> round r == r -> r <= 1 - (1 # 2 ^ 53).
Proof.
  change (1 # 2 ^ 53) with (1 # 9007199254740992).
  intros H0 H1 Hr.
  destruct (Qlt_le_dec r (1 # 2)) as [Hlt | Hge]; [lra|].
  assert (Hlo : 2 ^ (-1) <= r) by (change (2 ^ (-1)) with (1 # 2); lra).
  assert (Hhi : r < 2 ^ (-1 + 1)) by (change (2 ^ (-1 + 1)) with 1; lra).
  rewrite (round_at r (-1) Hlo Hhi) in Hr by lia.
  change (-1 - 52)%Z with (-53)%Z in Hr.
  set (K := nearestEven (r / 2 ^ (-53))) in *.
  change (2 ^ (-53)) with (1 # 9007199254740992) in Hr.
  clearbody K. clear Hlo Hhi.
  assert (HK : (K < 9007199254740992)%Z).
  { rewrite Zlt_Qlt.
    change (inject_Z 9007199254740992) with (9007199254740992 # 1). lra. }
  assert (HK' : inject_Z K <= inject_Z (9007199254740992 - 1))
    by (rewrite <- Zle_Qle; lia).
  change (inject_Z (9007199254740992 - 1)) with (9007199254740991 # 1) in HK'.
  lra.
Qed.

(** [Math.random() * 1000] is a double below 1000. *)
Lemma jitter_range (r : Q) :
  0 <= r -> r <= 1 - (1 # 2 ^ 53) ->
  0 <= mul r 1000 /\ mul r 1000 < 1000.
Proof.
  change (1 # 2 ^ 53) with (1 # 9007199254740992).
  intros H0 H1. unfold mul.
  destruct (Qlt_le_dec (r * 1000) 512) as [Hlt | Hge].
  - assert (Ha : inject_Z 0 <= r * 1000) by (change (inject_Z 0) with 0; lra).
    assert (Hb : r * 1000 <= inject_Z 512)
      by (change (inject_Z 512) with 512; lra).
    destruct (round_between 0 512 (r * 1000) ltac:(lia) ltac:(lia) Ha Hb)
      as [Hlo Hhi].
    change (inject_Z 0) with 0 in Hlo.
    change (inject_Z 512) with 512 in Hhi. lra.
  - assert (Hlo : 2 ^ 9 <= r * 1000) by (change (2 ^ 9) with 512; lra).
    assert (Hhi : r * 1000 < 2 ^ (9 + 1))
      by (change (2 ^ (9 + 1)) with 1024; lra).
    rewrite (round_at (r * 1000) 9 Hlo Hhi) by lia.
    change (9 - 52)%Z with (-43)%Z.
    change (2 ^ (-43)) with (1 # 8796093022208).
    assert (Hd : r * 1000 / (1 # 8796093022208)
                 == r * 1000 * (8796093022208 # 1))
      by (unfold Qdiv; reflexivity).
    set (y := r * 1000 / (1 # 8796093022208)) in *.
    assert (Hk : (nearestEven y <= 8796093022208000 - 1)%Z).
    { apply nearestEven_below.
      change (inject_Z 8796093022208000) with (8796093022208000 # 1). lra. }
    assert (Hk0 : (0 <= nearestEven y)%Z).
    { apply (nearestEven_between 0 8796093022208000).
      - change (inject_Z 0) with 0. lra.
      - change (inject_Z 8796093022208000) with (8796093022208000 # 1).
        lra. }
    rewrite Zle_Qle in Hk, Hk0.
    change (inject_Z (8796093022208000 - 1))
      with (8796093022207999 # 1) in Hk.
    change (inject_Z 0) with 0 in Hk0.
    set (K := inject_Z (nearestEven y)) in *.
    clearbody K. clear Hlo Hhi Hd. clearbody y.
    split; lra.
Qed.

End RoundingFacts.

Section WaitFacts.
Import Binary64 GeminiDirect.
Local Open Scope Q_scope.

Lemma nearestEven_comp (x y : Q) : x == y -> nearestEven x = nearestEven y.
Proof.
  intros E. unfold nearestEven.
  rewrite (Qfloor_comp _ _ E).
  assert (Ec : Qcompare (x - inject_Z (Qfloor y)) (1 # 2)
               = Qcompare (y - inject_Z (Qfloor y)) (1 # 2))
    by (apply Qcompare_comp; [rewrite E|]; reflexivity).
  rewrite Ec. reflexivity.
Qed.

Lemma ilog2_comp (x y : Q) : 0 < x -> x == y -> ilog2 x = ilog2 y.
Proof.
  intros Hx E. destruct (ilog2_spec x Hx) as [Hlo Hhi].
  symmetry. apply ilog2_unique; rewrite <- E; assumption.
Qed.

Lemma round_comp (x y : Q) : x == y -> round x == round y.
Proof.
  intros E. unfold round.
  destruct (Qeq_bool x 0) eqn:Hx.
  - apply Qeq_bool_iff in Hx.
    assert (Hy : Qeq_bool y 0 = true)
      by (apply Qeq_bool_iff; rewrite <- E; exact Hx).
    rewrite Hy. reflexivity.
  - assert (Hy : Qeq_bool y 0 = false).
    { destruct (Qeq_bool y 0) eqn:Hy; [|reflexivity].
      apply Qeq_bool_iff in Hy. apply Qeq_bool_neq in Hx.
      exfalso. apply Hx. rewrite E. exact Hy. }
    rewrite Hy. apply Qeq_bool_neq in Hx.
    assert (Hu : ulp x = ulp y).
    { unfold ulp. rewrite (ilog2_comp (Qabs x) (Qabs y)); [reflexivity| |].
      - destruct (Q_dec x 0) as [[Hlt | Hgt] | Heq].
        + rewrite Qabs_neg by lra. lra.
        + rewrite Qabs_pos by lra. lra.
        + contradiction.
      - rewrite E. reflexivity. }
    rewrite Hu.
    rewrite (nearestEven_comp (x / 2 ^ ulp y) (y / 2 ^ ulp y))
      by (rewrite E; reflexivity).
    reflexivity.
Qed.

Lemma pow2_exact (n : nat) :
  (n <= 5)%nat -> pow2 (Z.of_nat n) == inject_Z (2 ^ Z.of_nat n).
Proof.
  intros Hn. unfold pow2.
  rewrite (round_comp _ (inject_Z (2 ^ Z.of_nat n)))
    by (apply two_power; lia).
  apply round_integer.
  destruct n as [|[|[|[|[|[|n]]]]]]; simpl; lia.
Qed.

Lemma base_exact (n : nat) :
  (n <= 5)%nat ->
  mul (inject_Z baseDelay) (pow2 (Z.of_nat n))
  == inject_Z (2000 * 2 ^ Z.of_nat n).
Proof.
  intros Hn. unfold mul.
  rewrite (round_comp _ (inject_Z (2000 * 2 ^ Z.of_nat n))).
  - apply round_integer.
    destruct n as [|[|[|[|[|[|n]]]]]]; simpl; lia.
  - rewrite (pow2_exact n Hn), inject_Z_mult. reflexivity.
Qed.

(** The wait before retry [n], on a draw of [Math.random]: the double
    nearest to [2000 * 2^n] plus a jitter below a second. *)
Lemma waitTime_range (n : nat) (r : Q) :
  (n <= 5)%nat -> drawn r ->
  exists jitter : Q,
    jitter = mul r (inject_Z 1000)
    /\ 0 <= jitter /\ jitter < 1000
    /\ waitTime (Z.of_nat n) r
       == add (inject_Z (2000 * 2 ^ Z.of_nat n)) jitter
    /\ inject_Z (2000 * 2 ^ Z.of_nat n) <= waitTime (Z.of_nat n) r
    /\ waitTime (Z.of_nat n) r <= inject_Z (2000 * 2 ^ Z.of_nat n) + 1000.
Proof.
  intros Hn (H0 & H1 & Hd).
  pose proof (double_below_one r H0 H1 Hd) as Htop.
  destruct (jitter_range r H0 Htop) as [Hj0 Hj1].
  change 1000 with (inject_Z 1000) in Hj0, Hj1 at 1.
  exists (mul r (inject_Z 1000)).
  split; [reflexivity|]. split; [exact Hj0|]. split; [exact Hj1|].
  unfold waitTime.
  set (j := mul r (inject_Z 1000)) in *. clearbody j.
  pose proof (base_exact n Hn) as Hb.
  set (b := mul (inject_Z baseDelay) (pow2 (Z.of_nat n))) in *. clearbody b.
  assert (Hw : add b j == add (inject_Z (2000 * 2 ^ Z.of_nat n)) j).
  { unfold add. apply round_comp. rewrite Hb. reflexivity. }
  split; [exact Hw|].
  rewrite Hw. unfold add.
  assert (HB : (0 <= 2000 * 2 ^ Z.of_nat n)%Z) by lia.
  assert (HB' : (2000 * 2 ^ Z.of_nat n + 1000 < 2 ^ 53)%Z)
    by (destruct n as [|[|[|[|[|[|n]]]]]]; simpl; lia).
  destruct (round_between (2000 * 2 ^ Z.of_nat n)
              (2000 * 2 ^ Z.of_nat n + 1000)
              (inject_Z (2000 * 2 ^ Z.of_nat n) + j) HB HB') as [Hlo Hhi].
  - lra.
  - rewrite inject_Z_plus. change (inject_Z 1000) with 1000. lra.
  - rewrite inject_Z_plus in Hhi. change (inject_Z 1000) with 1000 in Hhi.
    split; assumption.
Qed.

Lemma waitTime_top : waitTime 1 lastBelowOne == 5000.
Proof. vm_compute. reflexivity. Qed.

Lemma lastBelowOne_drawn : drawn lastBelowOne.
Proof. unfold drawn. repeat split; vm_compute; congruence. Qed.

End WaitFacts.

(** On these draws, and for every retry, the wait is the one the
    Standard Library's binary64 gives. *)
Example waitTime_as_SpecFloat :
  forallb
    (fun n =>
       forallb
         (fun k =>
            Qeq_bool (valueOf (waitTimeSpecFloat n k))
              (GeminiDirect.waitTime n (k # 2 ^ 53)))
         sampleDraws)
    [1; 2; 3; 4; 5]
  = true.
Proof. vm_compute. reflexivity. Qed.

Section DirectClient.
Import GeminiDirect.
Variable API_KEY : option string.
Variable generateContent : nat -> string -> Completion string.
Variable parse : string -> Completion Answer.
Variable random : nat -> Q.
Variable text : string.

Local Abbreviation answerOf := (answer generateContent parse text).
Local Abbreviation turnsOf := (turns generateContent parse random text).

Lemma request_answer (n : nat) (log : Log) :
  request generateContent parse n text log
  = (answerOf n, log ++ [GenerateContent text]).
Proof.
  cbv beta iota delta [request answer bind emit modify settle ret throw].
  destruct (generateContent n text) as [jsonText | e]; [|reflexivity].
  destruct (truthy jsonText); [|reflexivity].
  destruct (parse jsonText); reflexivity.
Qed.

Lemma retryLoop_turns (k : nat) :
  forall r fuel log,
    (r + k = 5)%nat -> (k <= fuel)%nat ->
    retryLoop generateContent parse random fuel text (Z.of_nat r) log
    = (fst (turnsOf k r), log ++ snd (turnsOf k r)).
Proof.
  induction k as [|k IH]; intros r fuel log Hr Hfuel.
  - assert (r = 5%nat) by lia. subst r.
    destruct fuel; simpl; rewrite app_nil_r; reflexivity.
  - destruct fuel as [|fuel]; [lia|].
    cbn [retryLoop turns].
    assert (Hlt : (Z.of_nat r <? maxRetries) = true)
      by (apply Z.ltb_lt; unfold maxRetries; lia).
    rewrite Hlt.
    cbv beta iota delta [try_catch bind ret].
    rewrite Nat2Z.id, request_answer.
    destruct (answerOf r) as [result | e]; [reflexivity|].
    fold (retryable e). destruct (retryable e); cbn [andb].
    + cbv beta iota delta [emit modify throw].
      replace (Z.of_nat r + 1) with (Z.of_nat (S r)) by lia.
      rewrite IH by lia. rewrite Nat2Z.id. cbn [fst snd].
      unfold wait. rewrite <- !app_assoc. reflexivity.
    + cbv beta iota delta [emit modify throw].
      rewrite <- !app_assoc. reflexivity.
Qed.

Lemma analyzeText_turns (c : ascii) (key : string) :
  API_KEY = Some (String c key) ->
  analyzeText API_KEY generateContent parse random text []
  = turnsOf 5 0.
Proof.
  intros ->. unfold analyzeText.
  change 0 with (Z.of_nat 0).
  rewrite (retryLoop_turns 5 0) by (unfold maxRetries; simpl; lia).
  destruct (turnsOf 5 0); reflexivity.
Qed.

(** The loop makes [m] waits, for the [m] leading failures it retries on
    (five at most), each followed by a request but the fifth. *)
Lemma turns_shape (k : nat) :
  forall r,
  exists m,
    (m <= k)%nat
    /\ requests (snd (turnsOf k r)) = repeat text (Nat.min (S m) k)
    /\ delays (snd (turnsOf k r)) = map (wait random) (seq (S r) m)
    /\ (forall j, (j < m)%nat ->
                  exists e, answerOf (r + j) = Throw e /\ retryable e = true)
    /\ (m = k ->
        fst (turnsOf k r)
        = Throw (newError "Max retries exceeded for Gemini API"))
    /\ ((m < k)%nat ->
        match answerOf (r + m) with
        | Normal result => fst (turnsOf k r) = Normal (Some result)
        | Throw e => retryable e = false /\ fst (turnsOf k r) = Throw e
        end).
Proof.
  induction k as [|k IH]; intros r.
  - exists 0%nat. simpl. repeat split; intros; lia.
  - cbn [turns].
    destruct (answerOf r) as [result | e] eqn:Ea;
      [|destruct (retryable e) eqn:Er].
    + exists 0%nat. rewrite Nat.add_0_r, Ea. simpl.
      repeat split; intros; try lia; reflexivity.
    + destruct (IH (S r)) as (m & Hm & Hreq & Hdel & Hlead & Hmax & Hend).
      exists (S m). cbn [fst snd requests delays].
      rewrite Hreq, Hdel.
      split; [lia|]. split; [|split; [|split; [|split]]].
      * replace (Nat.min (S (S m)) (S k)) with (S (Nat.min (S m) k)) by lia.
        reflexivity.
      * reflexivity.
      * intros [|j] Hj.
        -- rewrite Nat.add_0_r. exists e. split; assumption.
        -- destruct (Hlead j) as (e' & He' & Hr'); [lia|].
           exists e'. rewrite <- He'. split; [f_equal; lia | exact Hr'].
      * intros Heq. apply Hmax. lia.
      * intros Hlt. replace (r + S m)%nat with (S r + m)%nat by lia.
        apply Hend. lia.
    + exists 0%nat. rewrite Nat.add_0_r, Ea. simpl.
      repeat split; intros; try lia; try assumption; reflexivity.
Qed.

End DirectClient.

Section BackendClient.
Import GeminiService.
Variable hasWindow : bool.
Variable stored_api_base_url : option string.
Variable VITE_API_BASE_URL : option string.
Variable fetch : string -> string -> Completion Response.
Variable errorField : string -> option string.
Variable input : string.

Local Abbreviation url :=
  (endpoint hasWindow stored_api_base_url VITE_API_BASE_URL).

(** With a base address, the client makes one request, whatever comes
    back; a response that is not [ok] is thrown as an error. *)
Lemma analyzeText_once (log : Log) :
  truthy (getApiBaseUrl hasWindow stored_api_base_url VITE_API_BASE_URL)
  = true ->
  snd (analyzeText hasWindow stored_api_base_url VITE_API_BASE_URL fetch
         errorField input log)
  = log ++ [Fetch url input]
  /\ forall response,
       fetch url input = Normal response ->
       ok response = false ->
       exists message,
         fst (analyzeText hasWindow stored_api_base_url VITE_API_BASE_URL
                fetch errorField input log)
         = Throw (newError message).
Proof.
  intros Hbase. unfold analyzeText. rewrite Hbase. cbn [negb].
  cbv beta iota zeta delta [bind emit modify settle ret throw].
  fold url.
  destruct (fetch url input) as [response | e]; cbn [fst snd].
  - destruct (ok response) eqn:Hok; cbn [negb].
    + destruct (json response); cbn [fst snd]; split; try reflexivity;
        intros ? [= <-]; congruence.
    + split; [reflexivity|]. intros ? [= <-] _. eexists. reflexivity.
  - split; [reflexivity|]. intros ? [=].
Qed.

End BackendClient.

(** C4, as the clients have it.  The direct client ([GeminiDirect]) makes
    [m] waits, one for each of the leading failures that are rate limits
    or overloads, five at most; the wait before retry [n] is the sum, as
    doubles add, of [2000 * 2^n] ms and a jitter in [0, 1000) ms, so it
    lies between [2000 * 2^n] and [2000 * 2^n + 1000] ms, and the last
    draw below 1 gives the upper end; it makes a request
    after every wait but the fifth, so five requests at most; after the
    fifth wait it throws ["Max retries exceeded for Gemini API"]; a
    failure that is neither a rate limit nor an overload is thrown on
    without a further request, and when it is the first, exactly one
    request was made.  The backend client ([GeminiService]) makes exactly
    one request and throws on every response that is not [ok]: it never
    retries. *)
Theorem retry_policy_of_the_clients :
  (forall c key generateContent parse random text,
      let run :=
        GeminiDirect.analyzeText (Some (String c key)) generateContent
          parse random text [] in
      exists m,
        (m <= 5)%nat
        /\ GeminiDirect.requests (snd run) = repeat text (Nat.min (S m) 5)
        /\ GeminiDirect.delays (snd run)
           = map (fun n => GeminiDirect.waitTime (Z.of_nat n) (random n))
               (seq 1 m)
        /\ (forall n,
               (n <= 5)%nat -> drawn (random n) ->
               exists jitter : Q,
                 jitter = Binary64.mul (random n) (inject_Z 1000)
                 /\ (0 <= jitter)%Q /\ (jitter < 1000)%Q
                 /\ (GeminiDirect.waitTime (Z.of_nat n) (random n)
                     == Binary64.add (inject_Z (2000 * 2 ^ Z.of_nat n))
                          jitter)%Q
                 /\ (inject_Z (2000 * 2 ^ Z.of_nat n)
                     <= GeminiDirect.waitTime (Z.of_nat n) (random n))%Q
                 /\ (GeminiDirect.waitTime (Z.of_nat n) (random n)
                     <= inject_Z (2000 * 2 ^ Z.of_nat n) + 1000)%Q)
        /\ (forall j,
               (j < m)%nat ->
               exists e,
                 answer generateContent parse text j = Throw e
                 /\ retryable e = true)
        /\ (m = 5%nat ->
            fst run
            = Throw (newError "Max retries exceeded for Gemini API"))
        /\ ((m < 5)%nat ->
            match answer generateContent parse text m with
            | Normal result => fst run = Normal (Some result)
            | Throw e => retryable e = false /\ fst run = Throw e
            end)
        /\ (forall e,
               answer generateContent parse text 0 = Throw e ->
               retryable e = false ->
               run = (Throw e,
                      [GeminiDirect.GenerateContent text;
                       GeminiDirect.ConsoleError e])))
  /\ (forall hasWindow stored env fetch errorField input,
         let base := GeminiService.getApiBaseUrl hasWindow stored env in
         let run :=
           GeminiService.analyzeText hasWindow stored env fetch errorField
             input [] in
         truthy base = true ->
         snd run
         = [GeminiService.Fetch
              (GeminiService.normalizeBaseUrl base ++ "/analyze")%string
              input]
         /\ forall response,
              fetch (GeminiService.normalizeBaseUrl base ++ "/analyze")%string
                input = Normal response ->
              GeminiService.ok response = false ->
              exists message, fst run = Throw (newError message))
  /\ (drawn lastBelowOne
      /\ (GeminiDirect.waitTime 1 lastBelowOne == 5000)%Q).
Proof.
  split; [|split].
  - intros c key generateContent parse random text run.
    assert (Hrun : run = turns generateContent parse random text 5 0)
      by (apply (analyzeText_turns _ _ _ _ _ c key); reflexivity).
    destruct (turns_shape generateContent parse random text 5 0)
      as (m & Hm & Hreq & Hdel & Hlead & Hmax & Hend).
    exists m. rewrite Hrun.
    split; [exact Hm|]. split; [exact Hreq|]. split; [exact Hdel|].
    split; [intros n; apply waitTime_range|].
    split; [exact Hlead|]. split; [exact Hmax|]. split; [exact Hend|].
    intros e He Hfatal. cbn [turns]. rewrite He, Hfatal. reflexivity.
  - intros hasWindow stored env fetch errorField input base run Hbase.
    apply (analyzeText_once hasWindow stored env fetch errorField input []).
    exact Hbase.
  - split; [apply lastBelowOne_drawn | apply waitTime_top].
Qed.

(** On the code of [services/geminiService.ts]: a backend that answers
    429 gets one request, and the error goes to the caller. *)
Lemma backend_client_does_not_retry :
  let run :=
    GeminiService.analyzeText true (Some "https://api.example/") None
      (fun _ _ =>
         Normal {| GeminiService.ok := false;
                   GeminiService.status := 429;
                   GeminiService.text := "429 Too Many Requests";
                   GeminiService.json := Throw (newError "Unexpected token") |})
      (fun _ => None) "He go school." [] in
  run = (Throw (newError "429 Too Many Requests"),
         [GeminiService.Fetch "https://api.example/analyze" "He go school."])
  /\ GeminiDirect.isRateLimit (newError "429 Too Many Requests") = true
  /\ List.length (snd run) = 1%nat.
Proof. repeat split. Qed.

(** The same answers given to the direct client: five requests, five
    waits, then the final error.  With the last draw below 1 every time,
    the waits are a full second above [2000 * 2^n] ms. *)
Example direct_client_retries_429 :
  let run :=
    GeminiDirect.analyzeText (Some "key")
      (fun _ _ => Throw (newError "429 Too Many Requests"))
      (fun _ => Throw (newError "Unexpected token"))
      (fun _ => lastBelowOne) "He go school." [] in
  fst run = Throw (newError "Max retries exceeded for Gemini API")
  /\ List.length (GeminiDirect.requests (snd run)) = 5%nat
  /\ map Qred (GeminiDirect.delays (snd run))
     = [5000%Q; 9000%Q; 17000%Q; 33000%Q; 65000%Q].
Proof. vm_compute. repeat split. Qed.

(** ** [parseCSV] *)

Section Csv.
Import BatchProcessor.

(** Induction on strings two characters at a time. *)
Lemma string_ind2 (P : string -> Prop) :
  P "" ->
  (forall c, P (String c "")) ->
  (forall c c' s, P s -> P (String c' s) -> P (String c (String c' s))) ->
  forall s, P s.
Proof.
  intros H0 H1 H2 s.
  assert (H : P s /\ forall c, P (String c s)).
  { induction s as [|c' s [IHs IHc]]; split; auto. }
  apply H.
Qed.

Lemma replaceCRLF_pair (c c' : ascii) (s : string) :
  replaceCRLF (String c (String c' s))
  = if Ascii.eqb c CR && Ascii.eqb c' LF
    then String LF (replaceCRLF s)
    else String c (replaceCRLF (String c' s)).
Proof. reflexivity. Qed.

Lemma unifyNewlines_pair (c c' : ascii) (s : string) :
  unifyNewlines (String c (String c' s))
  = if Ascii.eqb c CR
    then if Ascii.eqb c' LF
         then String LF (unifyNewlines s)
         else String LF (unifyNewlines (String c' s))
    else String c (unifyNewlines (String c' s)).
Proof. reflexivity. Qed.

Lemma replace_unifyNewlines (s : string) :
  replaceCR (replaceCRLF s) = unifyNewlines s.
Proof.
  induction s as [|c|c c' s IHs IHc] using string_ind2.
  - reflexivity.
  - simpl. destruct (Ascii.eqb c CR); reflexivity.
  - rewrite replaceCRLF_pair, unifyNewlines_pair.
    destruct (Ascii.eqb c CR) eqn:Ec; cbn [andb].
    + destruct (Ascii.eqb c' LF) eqn:Ec'.
      * cbn [replaceCR]. rewrite IHs. reflexivity.
      * change (replaceCR (String c (replaceCRLF (String c' s))))
          with (String (if Ascii.eqb c CR then LF else c)
                  (replaceCR (replaceCRLF (String c' s)))).
        rewrite Ec, IHc. reflexivity.
    + change (replaceCR (String c (replaceCRLF (String c' s))))
        with (String (if Ascii.eqb c CR then LF else c)
                (replaceCR (replaceCRLF (String c' s)))).
      rewrite Ec, IHc. reflexivity.
Qed.


Lemma append_empty (s : string) : (s ++ "")%string = s.
Proof. induction s as [|c s IH]; simpl; [|rewrite IH]; reflexivity. Qed.

Lemma append_char (a : string) (c : ascii) (e : string) :
  ((a ++ String c "") ++ e)%string = (a ++ String c e)%string.
Proof. induction a as [|x a IH]; simpl; [|rewrite IH]; reflexivity. Qed.

Lemma prefixHead_addChar (current : string) (c : ascii) (es : list string) :
  prefixHead current (addChar c es)
  = prefixHead (current ++ String c "")%string es.
Proof. destruct es; simpl; [|rewrite append_char]; reflexivity. Qed.

Lemma prefixHead_empty (es : list string) : prefixHead "" es = es.
Proof. destruct es; reflexivity. Qed.

Lemma pushTrimmed_trimmedNonEmpty (results : list string) (current : string) :
  pushTrimmed results current = results ++ trimmedNonEmpty [current].
Proof.
  unfold pushTrimmed, trimmedNonEmpty. simpl.
  destruct (truthy (trim current)); [|rewrite app_nil_r]; reflexivity.
Qed.

Lemma trimmedNonEmpty_cons (e : string) (es : list string) :
  trimmedNonEmpty (e :: es) = trimmedNonEmpty [e] ++ trimmedNonEmpty es.
Proof.
  unfold trimmedNonEmpty. simpl. destruct (truthy (trim e)); reflexivity.
Qed.

Lemma scan_inside (c : ascii) (rest : string) results current :
  scan (String c rest) results current true
  = if Ascii.eqb c QUOTE then
      match rest with
      | String next rest' =>
          if Ascii.eqb next QUOTE
          then scan rest' results (current ++ String QUOTE "")%string true
          else scan rest results current false
      | "" => scan rest results current false
      end
    else scan rest results (current ++ String c "")%string true.
Proof. reflexivity. Qed.

Lemma scan_outside (c : ascii) (rest : string) results current :
  scan (String c rest) results current false
  = if Ascii.eqb c QUOTE then scan rest results current true
    else if Ascii.eqb c LF
         then scan rest (pushTrimmed results current) "" false
         else scan rest results (current ++ String c "")%string false.
Proof. reflexivity. Qed.

Lemma entries_inside (c : ascii) (rest : string) :
  entries true (String c rest)
  = if Ascii.eqb c QUOTE then
      match rest with
      | String c' rest' =>
          if Ascii.eqb c' QUOTE
          then addChar QUOTE (entries true rest')
          else entries false rest
      | "" => entries false rest
      end
    else addChar c (entries true rest).
Proof. reflexivity. Qed.

Lemma entries_outside (c : ascii) (rest : string) :
  entries false (String c rest)
  = if Ascii.eqb c QUOTE then entries true rest
    else if Ascii.eqb c LF then "" :: entries false rest
         else addChar c (entries false rest).
Proof. reflexivity. Qed.

Lemma scanned_empty : scanned "".
Proof.
  intros results current inQuote. destruct inQuote; simpl;
    rewrite append_empty; apply pushTrimmed_trimmedNonEmpty.
Qed.

Lemma scanned_step (c : ascii) (rest : string) :
  scanned rest ->
  (forall c' rest', rest = String c' rest' -> scanned rest') ->
  scanned (String c rest).
Proof.
  intros Hrest Hskip results current [|].
  - rewrite scan_inside, entries_inside.
    destruct (Ascii.eqb c QUOTE).
    + destruct rest as [|c' rest']; [apply Hrest|].
      destruct (Ascii.eqb c' QUOTE); [|apply Hrest].
      rewrite prefixHead_addChar. apply (Hskip c' rest' eq_refl).
    + rewrite prefixHead_addChar. apply Hrest.
  - rewrite scan_outside, entries_outside.
    destruct (Ascii.eqb c QUOTE); [apply Hrest|].
    destruct (Ascii.eqb c LF).
    + rewrite Hrest, prefixHead_empty. cbn [prefixHead].
      rewrite append_empty, trimmedNonEmpty_cons, app_assoc.
      rewrite <- pushTrimmed_trimmedNonEmpty. reflexivity.
    + rewrite prefixHead_addChar. apply Hrest.
Qed.

Lemma scan_entries (s : string) : scanned s.
Proof.
  induction s as [|c|c c' s IHs IHc] using string_ind2.
  - apply scanned_empty.
  - apply scanned_step; [apply scanned_empty | discriminate].
  - apply scanned_step; [exact IHc|]. intros ? ? [= <- <-]. exact IHs.
Qed.

Lemma entries_lines (s : string) :
  occurs QUOTE s = false -> entries false s = lines s.
Proof.
  induction s as [|c s IH]; [reflexivity|].
  cbn [occurs]. intros H. apply orb_false_iff in H. destruct H as [Hc Hs].
  rewrite entries_outside, Hc. cbn [lines]. rewrite IH by exact Hs.
  reflexivity.
Qed.



End Csv.

Example parseCSV_line_endings_and_doubled_quotes :
  BatchProcessor.parseCSV
    ("x" ++ String CR (String LF "")
       ++ quoted ("He said " ++ quoted (quoted "hi"))
       ++ String CR "  " ++ String LF " y ")%string
  = ["x"; ("He said " ++ quoted "hi")%string; "y"].
Proof. reflexivity. Qed.

(** A line feed inside a quoted region belongs to the entry. *)
Example parseCSV_quoted_line_feed :
  BatchProcessor.parseCSV
    (quoted ("a" ++ String LF "b") ++ String LF "c")%string
  = [("a" ++ String LF "b")%string; "c"].
Proof. reflexivity. Qed.


(** ** [renderText] *)

Section Rendering.
Import AnnotationView.

Lemma substring_none (n : nat) (s : string) : substring n 0 s = "".
Proof.
  revert n. induction s as [|c s IH]; intros [|n]; simpl; auto.
Qed.

Lemma substring_whole (s : string) : substring 0 (String.length s) s = s.
Proof. induction s as [|c s IH]; simpl; [|rewrite IH]; reflexivity. Qed.

Lemma substring_join (s : string) :
  forall n k1 k2,
    (substring n k1 s ++ substring (n + k1) k2 s)%string
    = substring n (k1 + k2) s.
Proof.
  induction s as [|c s IH]; intros n k1 k2.
  - destruct n, k1, k2; reflexivity.
  - destruct n as [|n].
    + destruct k1 as [|k1].
      * reflexivity.
      * cbn [substring Nat.add append]. f_equal.
        apply (IH 0%nat k1 k2).
    + cbn [substring Nat.add]. apply IH.
Qed.

Lemma piece_join (s : string) (a b c : Z) :
  0 <= a -> a <= b -> b <= c ->
  (piece s a b ++ piece s b c)%string = piece s a c.
Proof.
  intros Ha Hab Hbc. unfold piece.
  replace (Z.to_nat b) with (Z.to_nat a + Z.to_nat (b - a))%nat by lia.
  rewrite substring_join. f_equal. lia.
Qed.

Lemma piece_none (s : string) (a : Z) : piece s a a = "".
Proof. unfold piece. rewrite Z.sub_diag. apply substring_none. Qed.

Lemma piece_whole (s : string) : piece s 0 (Z.of_nat (String.length s)) = s.
Proof.
  unfold piece. rewrite Z.sub_0_r, Nat2Z.id. apply substring_whole.
Qed.

Lemma slice_piece (s : string) (a b : Z) :
  0 <= a -> a <= b -> b <= Z.of_nat (String.length s) ->
  slice s a (Some b) = piece s a b.
Proof.
  intros Ha Hab Hb. unfold slice, clampIndex.
  destruct (Z.ltb_spec a 0); [lia|]. destruct (Z.ltb_spec b 0); [lia|].
  rewrite !Z.min_l by lia.
  destruct (Z.leb_spec b a); [|reflexivity].
  replace b with a by lia. symmetry. apply piece_none.
Qed.

Lemma slice_rest (s : string) (a : Z) :
  0 <= a -> a < Z.of_nat (String.length s) ->
  slice s a None = piece s a (Z.of_nat (String.length s)).
Proof.
  intros Ha Hlt. unfold slice, clampIndex.
  destruct (Z.ltb_spec a 0); [lia|].
  rewrite Z.min_l by lia.
  destruct (Z.leb_spec (Z.of_nat (String.length s)) a); [lia|reflexivity].
Qed.

Lemma shownText_app (es fs : list Element) :
  shownText (es ++ fs) = (shownText es ++ shownText fs)%string.
Proof.
  induction es as [|e es IH]; simpl; [reflexivity|].
  rewrite IH. clear IH.
  induction (content e) as [|c s IHs]; simpl; [|rewrite IHs]; reflexivity.
Qed.

Lemma append_assoc' (a b c : string) :
  ((a ++ b) ++ c)%string = (a ++ (b ++ c))%string.
Proof. induction a as [|x a IH]; simpl; [|rewrite IH]; reflexivity. Qed.

(** *** The sort *)

Lemma insert_Permutation (a : Annotation) (l : list Annotation) :
  Permutation (a :: l) (insert a l).
Proof.
  induction l as [|b l IH]; simpl; [reflexivity|].
  destruct (start_index a - start_index b <=? 0); [reflexivity|].
  rewrite perm_swap. apply perm_skip, IH.
Qed.

Lemma sortAnnotations_Permutation (l : list Annotation) :
  Permutation l (sortAnnotations l).
Proof.
  induction l as [|a l IH]; simpl; [reflexivity|].
  rewrite <- insert_Permutation. apply perm_skip, IH.
Qed.

Lemma Forall_insert (P : Annotation -> Prop) a l :
  P a -> Forall P l -> Forall P (insert a l).
Proof.
  intros Ha Hl. eapply Permutation_Forall; [apply insert_Permutation|].
  constructor; assumption.
Qed.

Lemma Forall_sortAnnotations (P : Annotation -> Prop) l :
  Forall P l -> Forall P (sortAnnotations l).
Proof. apply Permutation_Forall, sortAnnotations_Permutation. Qed.

Lemma insert_sorted (a : Annotation) (l : list Annotation) :
  StronglySorted startsNoLater l -> StronglySorted startsNoLater (insert a l).
Proof.
  induction 1 as [|b l Hl IH Hb]; simpl.
  - repeat constructor.
  - destruct (Z.leb_spec (start_index a - start_index b) 0).
    + constructor; [constructor; assumption|].
      constructor; [unfold startsNoLater; lia|].
      eapply Forall_impl; [|exact Hb].
      unfold startsNoLater. intros x Hx. lia.
    + constructor; [exact IH|].
      apply Forall_insert; [unfold startsNoLater; lia | exact Hb].
Qed.

Lemma sortAnnotations_sorted (l : list Annotation) :
  StronglySorted startsNoLater (sortAnnotations l).
Proof.
  induction l as [|a l IH]; simpl; [constructor|].
  apply insert_sorted, IH.
Qed.

(** Spans that are sorted by their start, not empty and pairwise apart
    follow one another. *)
Lemma sorted_apart_before (originalText : string) (l : list Annotation) :
  StronglySorted startsNoLater l ->
  Forall (inside originalText) l ->
  ForallOrdPairs apart l ->
  StronglySorted before l.
Proof.
  induction 1 as [|a l Hl IH Ha]; intros Hin Hap; [constructor|].
  inversion Hin as [|? ? Hina Hinl]; subst.
  inversion Hap as [|? ? Hapa Hapl]; subst.
  constructor; [apply IH; assumption|].
  rewrite Forall_forall in *. intros x Hx.
  specialize (Ha x Hx). specialize (Hinl x Hx). specialize (Hapa x Hx).
  unfold startsNoLater, inside, apart, before in *. lia.
Qed.

Lemma apart_sym (a b : Annotation) : apart a b -> apart b a.
Proof. unfold apart. tauto. Qed.

Lemma ForallOrdPairs_Permutation (l l' : list Annotation) :
  Permutation l l' -> ForallOrdPairs apart l -> ForallOrdPairs apart l'.
Proof.
  induction 1 as [|a l l' Hp IH|a b l|l1 l2 l3 H12 IH12 H23 IH23];
    intros H.
  - exact H.
  - inversion H; subst. constructor; [|auto].
    eapply Permutation_Forall; eassumption.
  - inversion H as [|? ? Hb Hrest]; subst.
    inversion Hrest as [|? ? Ha Hl]; subst.
    inversion Hb as [|? ? Hba Hbl]; subst.
    constructor; [constructor; [apply apart_sym, Hba | exact Ha]|].
    constructor; assumption.
  - auto.
Qed.

(** *** The loop *)

(** From [lastIndex] on, over spans that follow one another, the loop
    adds the text from [lastIndex] to the end of the last span. *)
Lemma forEach_adds_the_text (originalText : string) (l : list Annotation) :
  StronglySorted before l ->
  Forall (inside originalText) l ->
  forall elements lastIndex,
    0 <= lastIndex ->
    lastIndex <= Z.of_nat (String.length originalText) ->
    Forall (fun a => lastIndex <= start_index a) l ->
    let done :=
      fold_left (pushAnnotation originalText) l (elements, lastIndex) in
    shownText (fst done)
    = (shownText elements ++ piece originalText lastIndex (snd done))%string
    /\ lastIndex <= snd done
    /\ snd done <= Z.of_nat (String.length originalText).
Proof.
  induction 1 as [|a l Hl IH Ha]; intros Hin elements lastIndex H0 Hlen Hlast.
  - simpl. rewrite piece_none, append_empty. repeat split; lia.
  - inversion Hin as [|? ? (Ha0 & Ha1 & Ha2) Hinl]; subst.
    inversion Hlast as [|? ? Hla _]; subst.
    cbn [fold_left].
    change (pushAnnotation originalText (elements, lastIndex) a)
      with ((if start_index a >? lastIndex
             then elements
                    ++ [Plain (slice originalText lastIndex
                                 (Some (start_index a)))]
             else elements)
              ++ [Marked a (slice originalText (start_index a)
                              (Some (end_index a)))],
            end_index a).
    set (elements' :=
           if start_index a >? lastIndex
           then elements
                  ++ [Plain (slice originalText lastIndex
                               (Some (start_index a)))]
           else elements).
    assert (Hbefore : shownText elements'
                      = (shownText elements
                         ++ piece originalText lastIndex
                              (start_index a))%string).
    { unfold elements'. destruct (Z.gtb_spec (start_index a) lastIndex).
      - rewrite shownText_app. simpl.
        rewrite append_empty, slice_piece by lia. reflexivity.
      - replace (start_index a) with lastIndex by lia.
        rewrite piece_none, append_empty. reflexivity. }
    specialize (IH Hinl
                  (elements'
                     ++ [Marked a (slice originalText (start_index a)
                                     (Some (end_index a)))])
                  (end_index a)).
    destruct IH as (Htext & Hlo & Hhi); [lia | lia | exact Ha |].
    cbv zeta in *. set (done := fold_left _ _ _) in *.
    rewrite Htext. split; [|split; lia].
    rewrite shownText_app, Hbefore. simpl.
    rewrite append_empty, slice_piece by lia.
    rewrite !append_assoc'. f_equal.
    rewrite <- append_assoc'.
    rewrite (piece_join originalText lastIndex (start_index a) (end_index a))
      by lia.
    apply piece_join; lia.
Qed.

(** C10.  When every span lies inside the text and is not empty, and no
    two spans overlap, [renderText] goes through the annotations sorted
    by [start_index] (the same annotations, in the order of their starts)
    and the elements it returns, put together, read as the original
    text. *)
Theorem rendered_text_is_the_original
  (originalText : string) (annotations : list Annotation) :
  Forall (inside originalText) annotations ->
  ForallOrdPairs apart annotations ->
  Permutation annotations (sortAnnotations annotations)
  /\ StronglySorted startsNoLater (sortAnnotations annotations)
  /\ shownText (renderText originalText annotations) = originalText.
Proof.
  intros Hin Hap.
  split; [apply sortAnnotations_Permutation|].
  split; [apply sortAnnotations_sorted|].
  assert (Hin' : Forall (inside originalText) (sortAnnotations annotations))
    by (apply Forall_sortAnnotations, Hin).
  assert (Hseq : StronglySorted before (sortAnnotations annotations)).
  { apply (sorted_apart_before originalText);
      [apply sortAnnotations_sorted | exact Hin' |].
    eapply ForallOrdPairs_Permutation;
      [apply sortAnnotations_Permutation | exact Hap]. }
  unfold renderText.
  destruct (forEach_adds_the_text originalText _ Hseq Hin' [] 0)
    as (Htext & Hlo & Hhi).
  - lia.
  - lia.
  - eapply Forall_impl; [|exact Hin']. intros a (H0 & _). exact H0.
  - destruct (fold_left _ _ _) as [elements lastIndex].
    cbn [fst snd shownText append] in *.
    destruct (Z.ltb_spec lastIndex (Z.of_nat (String.length originalText))).
    + rewrite shownText_app, Htext. simpl.
      rewrite append_empty, slice_rest by lia.
      rewrite piece_join by lia. apply piece_whole.
    + replace lastIndex with (Z.of_nat (String.length originalText)) in Htext
        by lia.
      rewrite Htext. apply piece_whole.
Qed.

End Rendering.

Lemma rendered_text_is_the_original_witness :
  Permutation [sampleSpan 10 16; sampleSpan 3 5]
    (AnnotationView.sortAnnotations [sampleSpan 10 16; sampleSpan 3 5])
  /\ StronglySorted startsNoLater
       (AnnotationView.sortAnnotations [sampleSpan 10 16; sampleSpan 3 5])
  /\ AnnotationView.shownText
       (AnnotationView.renderText "He go to the school."
          [sampleSpan 10 16; sampleSpan 3 5])
     = "He go to the school.".
Proof.
  apply (rendered_text_is_the_original "He go to the school."
           [sampleSpan 10 16; sampleSpan 3 5]).
  - repeat constructor; simpl; lia.
  - repeat constructor; unfold apart; simpl; lia.
Defined.

Example rendering_he_go :
  AnnotationView.renderText "He go to the school."
    [sampleSpan 10 16; sampleSpan 3 5]
  = [AnnotationView.Plain "He ";
     AnnotationView.Marked (sampleSpan 3 5) "go";
     AnnotationView.Plain " to t";
     AnnotationView.Marked (sampleSpan 10 16) "he sch";
     AnnotationView.Plain "ool."].
Proof. reflexivity. Qed.

(** ** The two-item scenario

    The first item comes back with one annotation, the second with none. *)

Example two_items_scenario :
  let w :=
    BatchProcessor.final
      (BatchProcessor.handleStart scenarioClassifier sampleDatabase
         ["He go school."; "She is happy."] (BatchProcessor.mount [])) in
  BatchProcessor.progress w
  = {| BatchProcessor.current := 2; BatchProcessor.total := 2;
       BatchProcessor.success := 2; BatchProcessor.failed := 0 |}
  /\ BatchProcessor.displayResults w
     = [ {| original_text := "She is happy.";
            corrected_text := "She is happy."; annotations := [] |};
         {| original_text := "He go school.";
            corrected_text := "He goes to school.";
            annotations := [sampleSpan 3 5] |} ]
  /\ BatchProcessor.batchAnnotations w = [sampleSpan 3 5]
  /\ SupabaseClient.inserts (BatchProcessor.store w) = 2%nat.
Proof. repeat split. Qed.

(** ** More on the batch run *)

Section RunAccount.
Import BatchProcessor.
Variable analyzeText : nat -> string -> Completion AnalysisResult.
Variable database :
  nat -> SupabaseClient.Row -> Completion SupabaseClient.Response.

Lemma insertedRows_app (l l' : SupabaseClient.Log) :
  insertedRows (l ++ l') = insertedRows l ++ insertedRows l'.
Proof.
  induction l as [|e l IH]; simpl; [reflexivity|].
  destruct e; simpl; rewrite IH; reflexivity.
Qed.

Lemma inserts_insertedRows (l : SupabaseClient.Log) :
  SupabaseClient.inserts l = List.length (insertedRows l).
Proof.
  induction l as [|e l IH]; simpl; [reflexivity|].
  destruct e; simpl; rewrite IH; reflexivity.
Qed.

Lemma saved_insertedRows (r : AnalysisResult) (log : SupabaseClient.Log) :
  insertedRows (snd (saved database r log)) = insertedRows log ++ [rowOf r].
Proof.
  unfold saved.
  destruct (database _ _) as [response | err];
    [destruct (SupabaseClient.error response)|];
    cbn [snd]; rewrite !insertedRows_app; simpl;
    rewrite ?app_nil_r; reflexivity.
Qed.

(** What a run of the loop has done when it ends or hangs: it has handled
    a front part [done] of the items, one after the other. *)
Lemma forLoop_account (items : list string) :
  forall w,
  exists done rest,
    items = done ++ rest
    /\ classified (trace (final (forLoop analyzeText database items w)))
       = classified (trace w) ++ done
    /\ progress (final (forLoop analyzeText database items w))
       = tally analyzeText (List.length (classified (trace w))) done
           (progress w)
    /\ batchAnnotations (final (forLoop analyzeText database items w))
       = batchAnnotations w
           ++ flat_map annotations
                (okResults analyzeText (List.length (classified (trace w)))
                   done)
    /\ insertedRows (store (final (forLoop analyzeText database items w)))
       = insertedRows (store w)
           ++ map rowOf
                (okResults analyzeText (List.length (classified (trace w)))
                   done)
    /\ completions (trace (final (forLoop analyzeText database items w)))
       = completions (trace w).
Proof.
  induction items as [|text rest IH]; intros w.
  - exists [], []. simpl. rewrite !app_nil_r. repeat split.
  - cbn [forLoop]. destruct (stopRef w).
    + exists [], (text :: rest). simpl. rewrite !app_nil_r. repeat split.
    + pose proof (pauseLoop_idle (pending w) w) as Hidle.
      destruct (pauseLoop (pending w) w) as [w1 | w1].
      * destruct Hidle as [Hp _ Ha _ Hs Hc _ Hco].
        rewrite processItem_done.
        destruct (IH (itemDone analyzeText database text w1))
          as (done & rest' & -> & Hcl & Hpr & Han & Hst & Hcm).
        exists (text :: done), rest'.
        rewrite Hcl, Hpr, Han, Hst, Hcm.
        rewrite itemDone_classified, itemDone_progress,
          itemDone_batchAnnotations, itemDone_store, itemDone_completions.
        unfold outcomeAt. rewrite Hc, Hp, Ha, Hs, Hco, length_app.
        cbn [List.length tally okResults]. rewrite Nat.add_1_r.
        destruct (analyzeText (List.length (classified (trace w))) text)
          as [result | e]; cbn [resultOf flat_map map];
          rewrite ?saved_insertedRows, <- ?app_assoc; simpl;
          repeat split.
      * destruct Hidle as [Hp _ Ha _ Hs Hc _ Hco].
        exists [], (text :: rest). simpl.
        rewrite Hp, Ha, Hs, Hc, Hco, !app_nil_r. repeat split.
Qed.

End RunAccount.

Section RunFacts.
Import BatchProcessor.
Variable analyzeText : nat -> string -> Completion AnalysisResult.
Variable database :
  nat -> SupabaseClient.Row -> Completion SupabaseClient.Response.

Lemma handleStart_started (items : list string) (w : World) :
  handleStart analyzeText database items w
  = match forLoop analyzeText database items (started items w) with
    | Returned w' => Returned (record OnComplete (setIsProcessing false w'))
    | stuck => stuck
    end.
Proof. reflexivity. Qed.

Lemma tally_counts (done : list string) :
  forall k p,
    current (tally analyzeText k done p)
    = current p + Z.of_nat (List.length done)
    /\ total (tally analyzeText k done p) = total p
    /\ success (tally analyzeText k done p)
       = success p + Z.of_nat (List.length (okResults analyzeText k done))
    /\ failed (tally analyzeText k done p)
       = failed p + Z.of_nat (List.length done)
         - Z.of_nat (List.length (okResults analyzeText k done)).
Proof.
  induction done as [|text done IH]; intros k p; cbn [tally okResults].
  - simpl. repeat split; lia.
  - destruct (IH (S k)
                match analyzeText k text with
                | Normal _ => countSuccess p
                | Throw _ => countFailure p
                end) as (Hc & Ht & Hs & Hf).
    rewrite Hc, Ht, Hs, Hf.
    destruct (analyzeText k text); cbn [List.length countSuccess
      countFailure current total success failed]; repeat split; lia.
Qed.

(** The account of a run of [handleStart], in the world it ends or hangs
    in. *)
Lemma handleStart_account (items : list string) (w : World) :
  exists done rest,
    items = done ++ rest
    /\ classified
         (trace (final (handleStart analyzeText database items w)))
       = classified (trace w) ++ done
    /\ progress (final (handleStart analyzeText database items w))
       = tally analyzeText (List.length (classified (trace w))) done
           {| current := 0; total := Z.of_nat (List.length items);
              success := 0; failed := 0 |}
    /\ batchAnnotations (final (handleStart analyzeText database items w))
       = flat_map annotations
           (okResults analyzeText (List.length (classified (trace w))) done)
    /\ insertedRows
         (store (final (handleStart analyzeText database items w)))
       = insertedRows (store w)
           ++ map rowOf
                (okResults analyzeText (List.length (classified (trace w)))
                   done).
Proof.
  destruct (forLoop_account analyzeText database items (started items w))
    as (done & rest & Hitems & Hcl & Hpr & Han & Hst & _).
  exists done, rest. split; [exact Hitems|].
  rewrite handleStart_started.
  destruct (forLoop _ _ _ _) as [w' | w' | e w']; cbn [final] in *;
    unfold record; simpl;
    rewrite ?classified_app, ?app_nil_r, Hcl, Hpr, Han, Hst;
    repeat split.
Qed.

End RunFacts.

Section RunProperties.
Import BatchProcessor.
Variable analyzeText : nat -> string -> Completion AnalysisResult.
Variable database :
  nat -> SupabaseClient.Row -> Completion SupabaseClient.Response.

Lemma pauseLoop_polling (queue : list (list Action)) :
  forall w w',
    pauseLoop queue w = Polling w' -> pauseRef w' = true /\ stopRef w' = false.
Proof.
  induction queue as [|clicks later IH]; intros w w'; simpl.
  - destruct (pauseRef w) eqn:Hp; [destruct (stopRef w) eqn:Hs|];
      try discriminate.
    intros [= <-]. simpl. split; assumption.
  - destruct (pauseRef w); [destruct (stopRef w)|]; try discriminate.
    apply IH.
Qed.

Lemma forLoop_hangs_paused (items : list string) :
  forall w,
    match forLoop analyzeText database items w with
    | Returned _ => True
    | Paused w' => pauseRef w' = true /\ stopRef w' = false
    | Rejected _ _ => False
    end.
Proof.
  induction items as [|text rest IH]; intros w; cbn [forLoop]; [exact I|].
  destruct (stopRef w); [exact I|].
  destruct (pauseLoop (pending w) w) as [w1 | w1] eqn:Hwait.
  - rewrite processItem_done. apply IH.
  - eapply pauseLoop_polling. exact Hwait.
Qed.

Lemma flat_map_rowOf (rs : list AnalysisResult) :
  flat_map annotations rs
  = flat_map SupabaseClient.analysis_json (map rowOf rs).
Proof.
  induction rs as [|r rs IH]; simpl; [|rewrite IH]; reflexivity.
Qed.

Lemma forLoop_paused_short (items : list string) :
  forall w w',
    forLoop analyzeText database items w = Paused w' ->
    (List.length (classified (trace w'))
     < List.length (classified (trace w)) + List.length items)%nat.
Proof.
  induction items as [|text rest IH]; intros w w'; cbn [forLoop];
    [discriminate|].
  destruct (stopRef w); [discriminate|].
  pose proof (pauseLoop_idle (pending w) w) as Hidle.
  destruct (pauseLoop (pending w) w) as [w1 | w1];
    destruct Hidle as [_ _ _ _ _ Hc _ _].
  - rewrite processItem_done. intros Hrun. apply IH in Hrun.
    rewrite itemDone_classified, length_app, Hc in Hrun.
    simpl in *. lia.
  - intros [= <-]. rewrite Hc. simpl. lia.
Qed.

(** The account of the first run of a component just mounted, when no
    stop is confirmed: no other loop is at work, and nothing but the
    pause and stop buttons is there to click while the run lasts. *)
Lemma mount_account (items : list string) (clicks : list (list Action)) :
  noStop clicks ->
  exists done rest,
    items = done ++ rest
    /\ classified
         (trace (final (handleStart analyzeText database items
                          (mount clicks))))
       = done
    /\ progress (final (handleStart analyzeText database items
                          (mount clicks)))
       = tally analyzeText 0 done
           {| current := 0; total := Z.of_nat (List.length items);
              success := 0; failed := 0 |}
    /\ batchAnnotations
         (final (handleStart analyzeText database items (mount clicks)))
       = flat_map annotations (okResults analyzeText 0 done)
    /\ insertedRows
         (store (final (handleStart analyzeText database items
                          (mount clicks))))
       = map rowOf (okResults analyzeText 0 done)
    /\ (forall w',
           handleStart analyzeText database items (mount clicks)
           = Returned w' ->
           rest = [])
    /\ (forall w',
           handleStart analyzeText database items (mount clicks)
           = Paused w' ->
           rest <> []).
Proof.
  intros Hq.
  destruct (handleStart_account analyzeText database items (mount clicks))
    as (done & rest & Hitems & Hcl & Hpr & Han & Hst).
  simpl in Hcl, Hpr, Han, Hst.
  exists done, rest.
  split; [exact Hitems|]. split; [exact Hcl|]. split; [exact Hpr|].
  split; [exact Han|]. split; [exact Hst|].
  rewrite handleStart_started in *.
  destruct (forLoop analyzeText database items (started items (mount clicks)))
    as [w1 | w1 | e w1] eqn:Hloop; cbn [final] in Hcl.
  - split; [|discriminate]. intros _ _.
    destruct (forLoop_noStop analyzeText database items
                (started items (mount clicks)) w1 eq_refl Hq Hloop)
      as [_ Hall].
    unfold record in Hcl. simpl in Hcl, Hall.
    rewrite classified_app, app_nil_r, Hall in Hcl.
    rewrite <- Hcl in Hitems.
    rewrite <- (app_nil_r items) in Hitems at 1.
    apply app_inv_head in Hitems. congruence.
  - split; [discriminate|]. intros _ _ ->.
    pose proof (forLoop_paused_short items _ _ Hloop) as Hshort.
    rewrite Hcl, Hitems, app_nil_r in Hshort. simpl in Hshort. lia.
  - split; discriminate.
Qed.

(** X1.  In the first run of a component just mounted, when no stop is
    confirmed and whatever the pauses, the texts handed to the
    classifier are a front part of the items, in the order submitted,
    each once; [current] is their number and [total] the number of
    items, so [current] never exceeds [total]; a run that returns has
    handed over every item, and a run that hangs in a pause has not. *)
Theorem classifier_gets_a_front_part_in_order
  (items : list string) (clicks : list (list Action)) :
  noStop clicks ->
  exists done rest,
    items = done ++ rest
    /\ classified
         (trace (final (handleStart analyzeText database items
                          (mount clicks))))
       = done
    /\ current (progress (final (handleStart analyzeText database items
                                   (mount clicks))))
       = Z.of_nat (List.length done)
    /\ total (progress (final (handleStart analyzeText database items
                                 (mount clicks))))
       = Z.of_nat (List.length items)
    /\ current (progress (final (handleStart analyzeText database items
                                   (mount clicks))))
       <= total (progress (final (handleStart analyzeText database items
                                    (mount clicks))))
    /\ (forall w',
           handleStart analyzeText database items (mount clicks)
           = Returned w' ->
           done = items)
    /\ (forall w',
           handleStart analyzeText database items (mount clicks)
           = Paused w' ->
           rest <> []).
Proof.
  intros Hq.
  destruct (mount_account items clicks Hq)
    as (done & rest & Hitems & Hcl & Hpr & _ & _ & Hret & Hhang).
  exists done, rest. rewrite Hcl, Hpr.
  destruct (tally_counts analyzeText done 0
              {| current := 0; total := Z.of_nat (List.length items);
                 success := 0; failed := 0 |}) as (Hc & Ht & _ & _).
  rewrite Hc, Ht. cbn [current total].
  assert (Hlen : (List.length done <= List.length items)%nat)
    by (rewrite Hitems, length_app; lia).
  repeat split; try lia; try assumption.
  intros w' Hrun. rewrite (Hret w' Hrun), app_nil_r in Hitems.
  congruence.
Qed.

(** X2.  In the first run of a component just mounted, when no stop is
    confirmed, the rows handed to the database are the rows of the
    results the classifier returned for the texts it was given, one row
    for each, in the order of the items, each with [error_count] the
    number of its annotations; no row is written for an item that
    failed; and [success] is the number of rows handed over, [failed] the
    number of the other items handled. *)
Theorem every_success_is_saved_once
  (items : list string) (clicks : list (list Action)) :
  noStop clicks ->
  exists done rest,
    items = done ++ rest
    /\ classified
         (trace (final (handleStart analyzeText database items
                          (mount clicks))))
       = done
    /\ insertedRows
         (store (final (handleStart analyzeText database items
                          (mount clicks))))
       = map rowOf (okResults analyzeText 0 done)
    /\ Forall (fun row =>
                 SupabaseClient.error_count row
                 = Z.of_nat (List.length (SupabaseClient.analysis_json row)))
         (insertedRows
            (store (final (handleStart analyzeText database items
                             (mount clicks)))))
    /\ success (progress (final (handleStart analyzeText database items
                                   (mount clicks))))
       = Z.of_nat (List.length (okResults analyzeText 0 done))
    /\ failed (progress (final (handleStart analyzeText database items
                                  (mount clicks))))
       = Z.of_nat (List.length done)
         - Z.of_nat (List.length (okResults analyzeText 0 done)).
Proof.
  intros Hq.
  destruct (mount_account items clicks Hq)
    as (done & rest & Hitems & Hcl & Hpr & _ & Hst & _ & _).
  exists done, rest. rewrite Hcl, Hst, Hpr.
  destruct (tally_counts analyzeText done 0
              {| current := 0; total := Z.of_nat (List.length items);
                 success := 0; failed := 0 |}) as (_ & _ & Hs & Hf).
  rewrite Hs, Hf. cbn [success failed].
  repeat split; try lia; try assumption.
  apply Forall_forall. intros row Hrow.
  apply in_map_iff in Hrow. destruct Hrow as (r & <- & _). reflexivity.
Qed.

(** X3.  In the first run of a component just mounted, when no stop is
    confirmed, the annotations kept for the statistics are all the
    annotations of all the rows handed to the database, in order: unlike
    [displayResults], they are not cut to the last hundred items; and
    [success] is the number of these rows. *)
Theorem batch_annotations_are_those_saved
  (items : list string) (clicks : list (list Action)) :
  noStop clicks ->
  batchAnnotations
    (final (handleStart analyzeText database items (mount clicks)))
  = flat_map SupabaseClient.analysis_json
      (insertedRows
         (store (final (handleStart analyzeText database items
                          (mount clicks)))))
  /\ success (progress (final (handleStart analyzeText database items
                                 (mount clicks))))
     = Z.of_nat
         (List.length
            (insertedRows
               (store (final (handleStart analyzeText database items
                                (mount clicks)))))).
Proof.
  intros Hq.
  destruct (mount_account items clicks Hq)
    as (done & rest & Hitems & Hcl & Hpr & Han & Hst & _ & _).
  rewrite Hst, Han, Hpr, length_map.
  destruct (tally_counts analyzeText done 0
              {| current := 0; total := Z.of_nat (List.length items);
                 success := 0; failed := 0 |}) as (_ & _ & Hs & _).
  rewrite Hs. cbn [success]. split; [apply flat_map_rowOf | lia].
Qed.

(** X4.  The first run of a component just mounted, when no stop is
    confirmed, never rejects.  When it returns it has called
    [onComplete] once, as the last thing it did, and has switched
    [isProcessing] off.  Otherwise it polls for ever in the pause loop,
    paused and not stopped, [onComplete] has not been called, and the
    clicks have left a pause without its resume. *)
Theorem run_returns_with_one_completion_or_hangs_paused
  (items : list string) (clicks : list (list Action)) :
  noStop clicks ->
  match handleStart analyzeText database items (mount clicks) with
  | Returned w' =>
      completions (trace w') = 1%nat
      /\ isProcessing w' = false
      /\ exists before, trace w' = before ++ [OnComplete]
  | Paused w' =>
      completions (trace w') = 0%nat
      /\ pauseRef w' = true /\ stopRef w' = false
      /\ pausedAfter false clicks = true
  | Rejected _ _ => False
  end.
Proof.
  intros Hq.
  assert (Hres : pausedAfter false clicks = false ->
                 exists w',
                   handleStart analyzeText database items (mount clicks)
                   = Returned w').
  { intros Hr.
    destruct (handleStart_resumes analyzeText database items clicks
                (mount []) Hq Hr) as (w' & Hrun & _).
    exists w'. exact Hrun. }
  rewrite handleStart_started in *.
  destruct (forLoop_account analyzeText database items
              (started items (mount clicks)))
    as (done & rest & _ & _ & _ & _ & _ & Hco).
  pose proof (forLoop_hangs_paused items (started items (mount clicks)))
    as Hhang.
  destruct (forLoop analyzeText database items (started items (mount clicks)))
    as [w' | w' | e w']; cbn [final] in *.
  - unfold record; simpl. rewrite completions_app, Hco. simpl.
    repeat split. exists (trace w'). reflexivity.
  - split; [exact Hco|]. destruct Hhang as [Hp Hs].
    split; [exact Hp|]. split; [exact Hs|].
    destruct (pausedAfter false clicks); [reflexivity|].
    destruct (Hres eq_refl) as (w0 & Hw0). discriminate Hw0.
  - exact Hhang.
Qed.

End RunProperties.

Lemma classifier_gets_a_front_part_in_order_witness :
  noStop [[BatchProcessor.ClickPause]]
  /\ exists done rest,
       ["a"; "bad"; "c"] = done ++ rest
       /\ BatchProcessor.classified
            (BatchProcessor.trace (BatchProcessor.final pausedRun))
          = done
       /\ BatchProcessor.current
            (BatchProcessor.progress (BatchProcessor.final pausedRun))
          = Z.of_nat (List.length done)
       /\ BatchProcessor.total
            (BatchProcessor.progress (BatchProcessor.final pausedRun))
          = Z.of_nat (List.length ["a"; "bad"; "c"])
       /\ BatchProcessor.current
            (BatchProcessor.progress (BatchProcessor.final pausedRun))
          <= BatchProcessor.total
               (BatchProcessor.progress (BatchProcessor.final pausedRun))
       /\ (forall w',
              pausedRun = BatchProcessor.Returned w' ->
              done = ["a"; "bad"; "c"])
       /\ (forall w', pausedRun = BatchProcessor.Paused w' -> rest <> []).
Proof.
  assert (H : noStop [[BatchProcessor.ClickPause]])
    by (repeat constructor; discriminate).
  split; [exact H|].
  apply (classifier_gets_a_front_part_in_order sampleClassifier
           sampleDatabase ["a"; "bad"; "c"] [[BatchProcessor.ClickPause]] H).
Defined.

Lemma every_success_is_saved_once_witness :
  noStop [[BatchProcessor.ClickPause]]
  /\ exists done rest,
       ["a"; "bad"; "c"] = done ++ rest
       /\ BatchProcessor.classified
            (BatchProcessor.trace (BatchProcessor.final pausedRun))
          = done
       /\ insertedRows (BatchProcessor.store (BatchProcessor.final pausedRun))
          = map rowOf (okResults sampleClassifier 0 done)
       /\ Forall
            (fun row =>
               SupabaseClient.error_count row
               = Z.of_nat
                   (List.length (SupabaseClient.analysis_json row)))
            (insertedRows
               (BatchProcessor.store (BatchProcessor.final pausedRun)))
       /\ BatchProcessor.success
            (BatchProcessor.progress (BatchProcessor.final pausedRun))
          = Z.of_nat (List.length (okResults sampleClassifier 0 done))
       /\ BatchProcessor.failed
            (BatchProcessor.progress (BatchProcessor.final pausedRun))
          = Z.of_nat (List.length done)
            - Z.of_nat (List.length (okResults sampleClassifier 0 done)).
Proof.
  assert (H : noStop [[BatchProcessor.ClickPause]])
    by (repeat constructor; discriminate).
  split; [exact H|].
  apply (every_success_is_saved_once sampleClassifier sampleDatabase
           ["a"; "bad"; "c"] [[BatchProcessor.ClickPause]] H).
Defined.

Lemma batch_annotations_are_those_saved_witness :
  noStop [[BatchProcessor.ClickPause]]
  /\ BatchProcessor.batchAnnotations (BatchProcessor.final pausedRun)
     = flat_map SupabaseClient.analysis_json
         (insertedRows
            (BatchProcessor.store (BatchProcessor.final pausedRun)))
  /\ BatchProcessor.success
       (BatchProcessor.progress (BatchProcessor.final pausedRun))
     = Z.of_nat
         (List.length
            (insertedRows
               (BatchProcessor.store (BatchProcessor.final pausedRun)))).
Proof.
  assert (H : noStop [[BatchProcessor.ClickPause]])
    by (repeat constructor; discriminate).
  split; [exact H|].
  apply (batch_annotations_are_those_saved sampleClassifier sampleDatabase
           ["a"; "bad"; "c"] [[BatchProcessor.ClickPause]] H).
Defined.

Lemma run_returns_with_one_completion_or_hangs_paused_witness :
  noStop [[BatchProcessor.ClickPause]]
  /\ match pausedRun with
     | BatchProcessor.Returned w' =>
         BatchProcessor.completions (BatchProcessor.trace w') = 1%nat
         /\ BatchProcessor.isProcessing w' = false
         /\ exists before,
              BatchProcessor.trace w'
              = before ++ [BatchProcessor.OnComplete]
     | BatchProcessor.Paused w' =>
         BatchProcessor.completions (BatchProcessor.trace w') = 0%nat
         /\ BatchProcessor.pauseRef w' = true
         /\ BatchProcessor.stopRef w' = false
         /\ pausedAfter false [[BatchProcessor.ClickPause]] = true
     | BatchProcessor.Rejected _ _ => False
     end.
Proof.
  assert (H : noStop [[BatchProcessor.ClickPause]])
    by (repeat constructor; discriminate).
  split; [exact H|].
  apply (run_returns_with_one_completion_or_hangs_paused sampleClassifier
           sampleDatabase ["a"; "bad"; "c"] [[BatchProcessor.ClickPause]]
           H).
Defined.

(** ** Where a batch comes from *)

Section TrimFacts.

Lemma trimEnd_trimEnd (s : string) : trimEnd (trimEnd s) = trimEnd s.
Proof.
  induction s as [|c s IH]; [reflexivity|].
  cbn [trimEnd]. destruct (trimEnd s) as [|k kept] eqn:E.
  - destruct (isWhiteSpace c) eqn:Hc; [reflexivity|].
    cbn [trimEnd]. rewrite Hc. reflexivity.
  - change (trimEnd (String c (String k kept)))
      with (match trimEnd (String k kept) with
            | "" => if isWhiteSpace c then "" else String c ""
            | String k' kept' => String c (String k' kept')
            end).
    rewrite IH. reflexivity.
Qed.

Lemma trimStart_head (s : string) :
  match trimStart s with
  | "" => True
  | String c _ => isWhiteSpace c = false
  end.
Proof.
  induction s as [|c s IH]; simpl; [exact I|].
  destruct (isWhiteSpace c) eqn:Hc; [exact IH | exact Hc].
Qed.

Lemma trimEnd_head (c : ascii) (s : string) :
  isWhiteSpace c = false -> exists kept, trimEnd (String c s) = String c kept.
Proof.
  intros Hc. cbn [trimEnd]. destruct (trimEnd s) as [|k kept].
  - rewrite Hc. exists "". reflexivity.
  - exists (String k kept). reflexivity.
Qed.

Lemma trim_trim (s : string) : trim (trim s) = trim s.
Proof.
  unfold trim. pose proof (trimStart_head s) as H.
  destruct (trimStart s) as [|c t]; [reflexivity|].
  destruct (trimEnd_head c t H) as (kept & E).
  rewrite E. cbn [trimStart]. rewrite H, <- E. apply trimEnd_trimEnd.
Qed.

Lemma truthy_not_empty (s : string) : truthy s = true <-> s <> "".
Proof. destruct s; simpl; split; congruence. Qed.

Lemma notBlank_truthy (s : string) :
  BatchInput.notBlank s = truthy (trim s).
Proof.
  unfold BatchInput.notBlank. destruct (trim s); simpl; [reflexivity|].
  apply Z.gtb_lt. lia.
Qed.

End TrimFacts.

Section InputFacts.
Import BatchProcessor BatchInput.
Variable analyzeText : nat -> string -> Completion AnalysisResult.
Variable database :
  nat -> SupabaseClient.Row -> Completion SupabaseClient.Response.
Variable JSON_parse : string -> Completion Json.

Lemma parseCSV_entries (text : string) :
  parseCSV text = trimmedNonEmpty (entries false (unifyNewlines text)).
Proof.
  unfold parseCSV. rewrite replace_unifyNewlines.
  pose proof (scan_entries (unifyNewlines text) [] "" false) as H.
  destruct (scan (unifyNewlines text) [] "" false) as [results current].
  cbn [fst snd] in H. rewrite H, prefixHead_empty. reflexivity.
Qed.

Lemma trimmedNonEmpty_clean (es : list string) :
  Forall (fun e => e <> "" /\ trim e = e) (trimmedNonEmpty es).
Proof.
  unfold trimmedNonEmpty. apply Forall_forall. intros e He.
  apply filter_In in He. destruct He as [He Ht].
  apply in_map_iff in He. destruct He as (x & <- & _).
  split; [apply truthy_not_empty, Ht | apply trim_trim].
Qed.

Lemma filter_notBlank_clean (l : list string) :
  Forall (fun e => e <> "" /\ trim e = e) l -> filter notBlank l = l.
Proof.
  induction 1 as [|e l [Hne Htrim] _ IH]; simpl; [reflexivity|].
  rewrite notBlank_truthy, Htrim.
  destruct e; [congruence|]. simpl. rewrite IH. reflexivity.
Qed.

(** X6.  No entry [parseCSV] returns is empty or has white space at
    either end.  So the filter of [handleFileUpload] keeps every entry of
    a file that is not a [.json] file: the upload starts the batch on
    exactly the entries [parseCSV] finds, and shows the alert when there
    is none. *)
Theorem csv_upload_starts_on_the_parsed_entries :
  (forall text,
      Forall (fun e => e <> "" /\ trim e = e) (parseCSV text))
  /\ (forall file w,
         endsWith (name file) ".json" = false ->
         handleFileUpload analyzeText database JSON_parse (Some file) w
         = match parseCSV (content file) with
           | [] => Alerted "No valid text found in file."
           | entries =>
               Started (handleStart analyzeText database entries w)
           end).
Proof.
  assert (Hclean : forall text,
             Forall (fun e => e <> "" /\ trim e = e) (parseCSV text)).
  { intros text. rewrite parseCSV_entries. apply trimmedNonEmpty_clean. }
  split; [exact Hclean|].
  intros file w Hname. unfold handleFileUpload, readLines.
  rewrite Hname, (filter_notBlank_clean _ (Hclean (content file))).
  destruct (parseCSV (content file)); [reflexivity|].
  cbn [List.length]. destruct (Z.gtb_spec (Z.of_nat (S (List.length l))) 0);
    [reflexivity | lia].
Qed.

End InputFacts.

Section MoreInputFacts.
Import BatchProcessor BatchInput.
Variable analyzeText : nat -> string -> Completion AnalysisResult.
Variable database :
  nat -> SupabaseClient.Row -> Completion SupabaseClient.Response.
Variable JSON_parse : string -> Completion Json.

Lemma unifyNewlines_without_CR (s : string) :
  occurs CR s = false -> unifyNewlines s = s.
Proof.
  induction s as [|c s IH]; [reflexivity|].
  cbn [occurs unifyNewlines]. intros H.
  apply orb_false_iff in H. destruct H as [Hc Hs].
  rewrite Hc, IH by exact Hs. reflexivity.
Qed.

Lemma splitLines_not_empty (s : string) : splitLines s <> [].
Proof.
  induction s as [|c s IH]; simpl; [discriminate|].
  destruct (Ascii.eqb c LF); [discriminate|].
  destruct (splitLines s); discriminate.
Qed.

Lemma lines_splitLines (s : string) : lines s = splitLines s.
Proof.
  induction s as [|c s IH]; [reflexivity|].
  cbn [lines splitLines]. rewrite IH.
  destruct (Ascii.eqb c LF); [reflexivity|].
  pose proof (splitLines_not_empty s) as H.
  destruct (splitLines s); [congruence | reflexivity].
Qed.

Lemma trimmedNonEmpty_filter (l : list string) :
  trimmedNonEmpty l = map trim (filter notBlank l).
Proof.
  unfold trimmedNonEmpty.
  induction l as [|e l IH]; simpl; [reflexivity|].
  rewrite notBlank_truthy. destruct (truthy (trim e)); simpl; rewrite IH;
    reflexivity.
Qed.

(** X7.  For a text without quotes and without carriage returns, the
    file upload and the text box find the same items, but for the white
    space at their ends: [parseCSV] returns the lines the text box
    submits, each trimmed; and the text box starts no batch exactly when
    [parseCSV] finds no entry. *)
Theorem pasted_and_uploaded_text_agree (text : string) (w : World) :
  occurs QUOTE text = false ->
  occurs CR text = false ->
  parseCSV text = map trim (filter notBlank (splitLines text))
  /\ (handleTextSubmit analyzeText database text w = None
      <-> parseCSV text = []).
Proof.
  intros Hq Hcr.
  assert (Hsame : parseCSV text
                  = map trim (filter notBlank (splitLines text))).
  { rewrite parseCSV_entries, unifyNewlines_without_CR by exact Hcr.
    rewrite entries_lines by exact Hq.
    rewrite lines_splitLines. apply trimmedNonEmpty_filter. }
  split; [exact Hsame|].
  rewrite Hsame. unfold handleTextSubmit.
  destruct (filter notBlank (splitLines text)); simpl.
  - split; reflexivity.
  - destruct (Z.eqb_spec (Z.pos (Pos.of_succ_nat (List.length l))) 0);
      [lia|]. split; discriminate.
Qed.

Lemma filter_notBlank_items (l : list string) :
  Forall (fun text => trim text <> "") (filter notBlank l).
Proof.
  apply Forall_forall. intros t Ht. apply filter_In in Ht.
  destruct Ht as [_ Ht]. rewrite notBlank_truthy in Ht.
  apply truthy_not_empty, Ht.
Qed.

Lemma handleStart_cleanBatch (items : list string) (w : World) :
  items <> [] ->
  Forall (fun text => trim text <> "") items ->
  cleanBatch analyzeText database w
    (handleStart analyzeText database items w).
Proof.
  intros Hne Hclean.
  destruct (handleStart_account analyzeText database items w)
    as (done & rest & Hitems & Hcl & Hpr & _ & _).
  exists items, done, rest. rewrite Hcl, Hpr.
  destruct (tally_counts analyzeText done
              (List.length (classified (trace w)))
              {| current := 0; total := Z.of_nat (List.length items);
                 success := 0; failed := 0 |}) as (_ & Ht & _ & _).
  rewrite Ht. cbn [total].
  repeat split; try assumption.
  destruct items; [congruence | simpl; lia].
Qed.

(** X8.  A batch started from the text box or from a file has at least
    one item and no blank item: [total] is positive, and no text handed
    to the classifier is empty or all white space.  A text box with only
    blank lines starts nothing. *)
Theorem batches_from_the_ui_have_no_blank_item :
  (forall textInput w run,
      handleTextSubmit analyzeText database textInput w = Some run ->
      cleanBatch analyzeText database w run)
  /\ (forall file w run,
         handleFileUpload analyzeText database JSON_parse file w
         = Started run ->
         cleanBatch analyzeText database w run)
  /\ (forall textInput w,
         Forall (fun line => trim line = "") (splitLines textInput) ->
         handleTextSubmit analyzeText database textInput w = None).
Proof.
  split; [|split].
  - intros textInput w run. unfold handleTextSubmit.
    pose proof (filter_notBlank_items (splitLines textInput)) as Hclean.
    destruct (filter notBlank (splitLines textInput)) as [|t l] eqn:E;
      [discriminate|].
    destruct (Z.of_nat (List.length (t :: l)) =? 0); [discriminate|].
    intros [= <-]. apply handleStart_cleanBatch; [discriminate|exact Hclean].
  - intros [file|] w run; [|discriminate]. unfold handleFileUpload.
    destruct (readLines JSON_parse file) as [lines|]; [|discriminate].
    pose proof (filter_notBlank_items lines) as Hclean.
    destruct (filter notBlank lines) as [|t l] eqn:E; [discriminate|].
    destruct (Z.of_nat (List.length (t :: l)) >? 0); [|discriminate].
    intros [= <-]. apply handleStart_cleanBatch; [discriminate|exact Hclean].
  - intros textInput w Hblank. unfold handleTextSubmit.
    replace (filter notBlank (splitLines textInput)) with (@nil string);
      [reflexivity|].
    symmetry. induction Hblank as [|line l Hline _ IH]; simpl;
      [reflexivity|].
    rewrite notBlank_truthy, Hline. exact IH.
Qed.

End MoreInputFacts.

Lemma pasted_and_uploaded_text_agree_witness :
  BatchProcessor.parseCSV ("  He go. " ++ String LF (String LF "She is."))
  = map trim
      (filter BatchInput.notBlank
         (BatchInput.splitLines
            ("  He go. " ++ String LF (String LF "She is."))))
  /\ (BatchInput.handleTextSubmit sampleClassifier sampleDatabase
        ("  He go. " ++ String LF (String LF "She is."))
        (BatchProcessor.mount []) = None
      <-> BatchProcessor.parseCSV
            ("  He go. " ++ String LF (String LF "She is.")) = []).
Proof.
  apply (pasted_and_uploaded_text_agree sampleClassifier sampleDatabase
           ("  He go. " ++ String LF (String LF "She is."))
           (BatchProcessor.mount []));
    reflexivity.
Defined.

(** ** More on the classifier clients *)

Section BaseUrl.
Import GeminiService.

Lemma normalizeBaseUrl_slashes (k : nat) : normalizeBaseUrl (slashes k) = "".
Proof. induction k as [|k IH]; simpl; [|rewrite IH]; reflexivity. Qed.

Lemma normalizeBaseUrl_tail (url : string) :
  exists k, url = (normalizeBaseUrl url ++ slashes k)%string.
Proof.
  induction url as [|c url [k IH]]; [exists 0%nat; reflexivity|].
  cbn [normalizeBaseUrl].
  destruct (normalizeBaseUrl url) as [|x kept] eqn:E.
  - destruct (Ascii.eqb_spec c "/") as [-> | Hc].
    + exists (S k). simpl in *. rewrite <- IH. reflexivity.
    + exists k. simpl in *. rewrite <- IH. reflexivity.
  - exists k. cbn [append] in *. rewrite <- IH. reflexivity.
Qed.

Lemma normalizeBaseUrl_last (url : string) :
  lastChar (normalizeBaseUrl url) <> Some "/"%char.
Proof.
  induction url as [|c url IH]; [discriminate|].
  cbn [normalizeBaseUrl].
  destruct (normalizeBaseUrl url) as [|x kept].
  - destruct (Ascii.eqb_spec c "/") as [-> | Hc]; [discriminate|].
    simpl. congruence.
  - exact IH.
Qed.

Lemma normalizeBaseUrl_fixed (url : string) :
  lastChar url <> Some "/"%char -> normalizeBaseUrl url = url.
Proof.
  induction url as [|c url IH]; [reflexivity|].
  intros Hlast. cbn [normalizeBaseUrl].
  destruct url as [|x rest].
  - simpl in *. destruct (Ascii.eqb_spec c "/"); [congruence|reflexivity].
  - rewrite IH by exact Hlast. reflexivity.
Qed.

(** X9.  [normalizeBaseUrl] takes the slashes off the end of an address
    and nothing else: the address is the result followed by slashes only,
    the result does not end in a slash, and normalizing again changes
    nothing.  So the address the client posts to ends in exactly
    ["/analyze"], however many slashes the configured base ends in. *)
Theorem base_url_loses_only_its_trailing_slashes (url : string) :
  (exists k, url = (normalizeBaseUrl url ++ slashes k)%string)
  /\ lastChar (normalizeBaseUrl url) <> Some "/"%char
  /\ normalizeBaseUrl (normalizeBaseUrl url) = normalizeBaseUrl url
  /\ (forall k,
         normalizeBaseUrl (normalizeBaseUrl url ++ slashes k)
         = normalizeBaseUrl url).
Proof.
  split; [apply normalizeBaseUrl_tail|].
  split; [apply normalizeBaseUrl_last|].
  split; [apply normalizeBaseUrl_fixed, normalizeBaseUrl_last|].
  intros k.
  assert (H : forall s, lastChar s <> Some "/"%char ->
                        normalizeBaseUrl (s ++ slashes k) = s).
  { induction s as [|c s IH]; intros Hlast.
    - apply normalizeBaseUrl_slashes.
    - cbn [append normalizeBaseUrl]. destruct s as [|x rest].
      + cbn [append]. rewrite normalizeBaseUrl_slashes.
        simpl in Hlast.
        destruct (Ascii.eqb_spec c "/"); [congruence | reflexivity].
      + rewrite IH by exact Hlast. reflexivity. }
  apply H, normalizeBaseUrl_last.
Qed.

End BaseUrl.

Section BackendFailures.
Import GeminiService.
Variable hasWindow : bool.
Variable stored_api_base_url : option string.
Variable VITE_API_BASE_URL : option string.
Variable fetch : string -> string -> Completion Response.
Variable errorField : string -> option string.
Variable input : string.

Local Abbreviation run :=
  (analyzeText hasWindow stored_api_base_url VITE_API_BASE_URL fetch
     errorField input []).


End BackendFailures.

Section DirectWaits.
Import GeminiDirect.
Variable generateContent : nat -> string -> Completion string.
Variable parse : string -> Completion Answer.
Variable random : nat -> Q.
Variable text : string.

Lemma wait_range (n : nat) :
  (n <= 5)%nat -> drawn (random n) ->
  (inject_Z (2000 * 2 ^ Z.of_nat n) <= wait random n)%Q
  /\ (wait random n <= inject_Z (2000 * 2 ^ Z.of_nat n) + 1000)%Q.
Proof.
  intros Hn Hd. unfold wait.
  destruct (waitTime_range n (random n) Hn Hd)
    as (jitter & _ & _ & _ & _ & Hlo & Hhi).
  split; assumption.
Qed.

Lemma totalWait_range (m : nat) :
  (m <= 5)%nat ->
  (forall n, drawn (random n)) ->
  (0 <= totalWait (map (wait random) (seq 1 m)))%Q
  /\ (totalWait (map (wait random) (seq 1 m)) <= 129000)%Q.
Proof.
  intros Hm Hrandom.
  destruct (wait_range 1 ltac:(lia) (Hrandom 1%nat)) as [L1 U1].
  destruct (wait_range 2 ltac:(lia) (Hrandom 2%nat)) as [L2 U2].
  destruct (wait_range 3 ltac:(lia) (Hrandom 3%nat)) as [L3 U3].
  destruct (wait_range 4 ltac:(lia) (Hrandom 4%nat)) as [L4 U4].
  destruct (wait_range 5 ltac:(lia) (Hrandom 5%nat)) as [L5 U5].
  change (inject_Z (2000 * 2 ^ Z.of_nat 1)) with (4000%Q) in L1, U1.
  change (inject_Z (2000 * 2 ^ Z.of_nat 2)) with (8000%Q) in L2, U2.
  change (inject_Z (2000 * 2 ^ Z.of_nat 3)) with (16000%Q) in L3, U3.
  change (inject_Z (2000 * 2 ^ Z.of_nat 4)) with (32000%Q) in L4, U4.
  change (inject_Z (2000 * 2 ^ Z.of_nat 5)) with (64000%Q) in L5, U5.
  destruct m as [|[|[|[|[|[|m]]]]]]; [| | | | | |lia];
    cbn [seq map totalWait]; split; lra.
Qed.

(** X11.  When every draw of [Math.random] is a double in [0, 1), the
    waits of one call of the direct client add up to 129 seconds at most
    (4 + 8 + 16 + 32 + 64 seconds, and up to a second on each as doubles
    add), whatever the model answers. *)
Theorem direct_client_waits_at_most_129_seconds (c : ascii) (key : string) :
  (forall n, drawn (random n)) ->
  (0 <= totalWait
          (delays
             (snd (analyzeText (Some (String c key)) generateContent parse
                     random text []))))%Q
  /\ (totalWait
        (delays
           (snd (analyzeText (Some (String c key)) generateContent parse
                   random text [])))
      <= 129000)%Q.
Proof.
  intros Hrandom.
  rewrite (analyzeText_turns _ generateContent parse random text c key
             eq_refl).
  destruct (turns_shape generateContent parse random text 5 0)
    as (m & Hm & _ & Hdel & _).
  rewrite Hdel. apply totalWait_range; assumption.
Qed.

End DirectWaits.

Lemma direct_client_waits_at_most_129_seconds_witness :
  (forall n : nat, drawn ((fun _ => lastBelowOne) n))
  /\ (0 <= totalWait
             (GeminiDirect.delays
                (snd (GeminiDirect.analyzeText (Some "key")
                        (fun _ _ => Throw (newError "503 overloaded"))
                        (fun _ => Throw (newError "Unexpected token"))
                        (fun _ => lastBelowOne) "He go school." []))))%Q
  /\ (totalWait
        (GeminiDirect.delays
           (snd (GeminiDirect.analyzeText (Some "key")
                   (fun _ _ => Throw (newError "503 overloaded"))
                   (fun _ => Throw (newError "Unexpected token"))
                   (fun _ => lastBelowOne) "He go school." [])))
      <= 129000)%Q.
Proof.
  assert (H : forall n : nat, drawn ((fun _ => lastBelowOne) n))
    by (intros n; unfold drawn; repeat split; vm_compute; congruence).
  split; [exact H|].
  apply (direct_client_waits_at_most_129_seconds
           (fun _ _ => Throw (newError "503 overloaded"))
           (fun _ => Throw (newError "Unexpected token"))
           (fun _ => lastBelowOne) "He go school." "k"%char "ey" H).
Defined.

(** ** More on [renderText] *)

Section MoreRendering.
Import AnnotationView.

Lemma highlighted_app (es fs : list Element) :
  highlighted (es ++ fs) = highlighted es ++ highlighted fs.
Proof.
  induction es as [|e es IH]; simpl; [reflexivity|].
  destruct e; simpl; rewrite IH; reflexivity.
Qed.

Lemma forEach_highlights (originalText : string) (l : list Annotation) :
  forall elements lastIndex,
    highlighted
      (fst (fold_left (pushAnnotation originalText) l
              (elements, lastIndex)))
    = highlighted elements
        ++ map (fun a =>
                  (a, slice originalText (start_index a)
                        (Some (end_index a)))) l
    /\ (List.length
          (fst (fold_left (pushAnnotation originalText) l
                  (elements, lastIndex)))
        <= List.length elements + 2 * List.length l)%nat.
Proof.
  induction l as [|a l IH]; intros elements lastIndex.
  - simpl. rewrite app_nil_r. split; [reflexivity | lia].
  - cbn [fold_left].
    change (pushAnnotation originalText (elements, lastIndex) a)
      with ((if start_index a >? lastIndex
             then elements
                    ++ [Plain (slice originalText lastIndex
                                 (Some (start_index a)))]
             else elements)
              ++ [Marked a (slice originalText (start_index a)
                              (Some (end_index a)))],
            end_index a).
    destruct (IH ((if start_index a >? lastIndex
                   then elements
                          ++ [Plain (slice originalText lastIndex
                                       (Some (start_index a)))]
                   else elements)
                    ++ [Marked a (slice originalText (start_index a)
                                    (Some (end_index a)))])
                (end_index a)) as [Hh Hl].
    rewrite Hh. split.
    + destruct (start_index a >? lastIndex);
        rewrite !highlighted_app; simpl; rewrite <- ?app_assoc;
        rewrite ?app_nil_r; reflexivity.
    + eapply Nat.le_trans; [exact Hl|].
      destruct (start_index a >? lastIndex); rewrite !length_app; simpl;
        lia.
Qed.

(** X12.  Whatever the annotations (overlapping or out of range, too),
    [renderText] highlights every one of them exactly once, in the order
    of the sort, each with the characters from its [start_index] to its
    [end_index]; and it returns at most two elements for an annotation,
    and one more. *)
Theorem every_annotation_is_highlighted_once
  (originalText : string) (annotations : list Annotation) :
  highlighted (renderText originalText annotations)
  = map (fun a =>
           (a, slice originalText (start_index a) (Some (end_index a))))
      (sortAnnotations annotations)
  /\ (List.length (renderText originalText annotations)
      <= 2 * List.length annotations + 1)%nat.
Proof.
  unfold renderText.
  destruct (forEach_highlights originalText (sortAnnotations annotations)
              [] 0) as [Hh Hl].
  assert (Hlen : List.length (sortAnnotations annotations)
                 = List.length annotations)
    by (symmetry; apply Permutation_length, sortAnnotations_Permutation).
  rewrite Hlen in Hl.
  destruct (fold_left _ _ _) as [elements lastIndex]. cbn [fst] in *.
  destruct (lastIndex <? Z.of_nat (String.length originalText)).
  - rewrite highlighted_app, length_app, Hh. simpl in *.
    rewrite app_nil_r. split; [reflexivity | lia].
  - rewrite Hh. simpl in *. split; [reflexivity | lia].
Qed.

Lemma startingAt_insert (k : Z) (a : Annotation) (l : list Annotation) :
  startingAt k (insert a l) = startingAt k (a :: l).
Proof.
  unfold startingAt.
  induction l as [|b l IH]; [reflexivity|].
  cbn [insert]. destruct (Z.leb_spec (start_index a - start_index b) 0);
    [reflexivity|].
  cbn [filter] in *. rewrite IH.
  destruct (Z.eqb_spec (start_index a) k), (Z.eqb_spec (start_index b) k);
    try reflexivity.
  lia.
Qed.

Lemma insert_first (a : Annotation) (l : list Annotation) :
  Forall (startsNoLater a) l -> insert a l = a :: l.
Proof.
  intros H. destruct H as [|b l Hb _]; [reflexivity|].
  cbn [insert]. unfold startsNoLater in Hb.
  destruct (Z.leb_spec (start_index a - start_index b) 0);
    [reflexivity | lia].
Qed.

Lemma sortAnnotations_of_sorted (l : list Annotation) :
  StronglySorted startsNoLater l -> sortAnnotations l = l.
Proof.
  induction 1 as [|a l Hl IH Ha]; [reflexivity|].
  cbn [sortAnnotations fold_right]. fold (sortAnnotations l).
  rewrite IH. apply insert_first, Ha.
Qed.

(** X13.  The sort of [AnnotationView] is stable: the annotations that
    start at the same index come out in the order they were given in.
    Annotations given in the order of their starts are left as they are,
    and sorting twice is sorting once. *)
Theorem sort_keeps_the_order_of_equal_starts (annotations : list Annotation) :
  (forall k,
      startingAt k (sortAnnotations annotations) = startingAt k annotations)
  /\ (StronglySorted startsNoLater annotations ->
      sortAnnotations annotations = annotations)
  /\ sortAnnotations (sortAnnotations annotations)
     = sortAnnotations annotations.
Proof.
  split; [|split].
  - intros k. induction annotations as [|a l IH]; [reflexivity|].
    cbn [sortAnnotations fold_right]. fold (sortAnnotations l).
    rewrite startingAt_insert. unfold startingAt in *. cbn [filter].
    rewrite IH. reflexivity.
  - apply sortAnnotations_of_sorted.
  - apply sortAnnotations_of_sorted, sortAnnotations_sorted.
Qed.

End MoreRendering.

Section NoEmptyElement.
Import AnnotationView.

Lemma substring_length (s : string) :
  forall n m,
    (n + m <= String.length s)%nat ->
    String.length (substring n m s) = m.
Proof.
  induction s as [|c s IH]; intros n m H.
  - simpl in H. assert (n = 0%nat) by lia. assert (m = 0%nat) by lia.
    subst. reflexivity.
  - destruct n as [|n].
    + destruct m as [|m]; [reflexivity|].
      simpl in *. rewrite IH by lia. reflexivity.
    + simpl in *. apply IH. lia.
Qed.

Lemma piece_length (s : string) (a b : Z) :
  0 <= a -> a <= b -> b <= Z.of_nat (String.length s) ->
  Z.of_nat (String.length (piece s a b)) = b - a.
Proof.
  intros Ha Hab Hb. unfold piece. rewrite substring_length; lia.
Qed.

Lemma piece_not_empty (s : string) (a b : Z) :
  0 <= a -> a < b -> b <= Z.of_nat (String.length s) -> piece s a b <> "".
Proof.
  intros Ha Hab Hb E.
  pose proof (piece_length s a b Ha (Z.lt_le_incl _ _ Hab) Hb) as H.
  rewrite E in H. simpl in H. lia.
Qed.

Lemma forEach_no_empty_element
  (originalText : string) (l : list Annotation) :
  Forall (inside originalText) l ->
  forall elements lastIndex,
    0 <= lastIndex ->
    Forall (fun e => content e <> "") elements ->
    Forall (fun e => content e <> "")
      (fst (fold_left (pushAnnotation originalText) l
              (elements, lastIndex)))
    /\ 0 <= snd (fold_left (pushAnnotation originalText) l
                   (elements, lastIndex)).
Proof.
  induction 1 as [|a l (Ha0 & Ha1 & Ha2) _ IH]; intros elements lastIndex
    Hlast Hels.
  - simpl. split; assumption.
  - cbn [fold_left].
    change (pushAnnotation originalText (elements, lastIndex) a)
      with ((if start_index a >? lastIndex
             then elements
                    ++ [Plain (slice originalText lastIndex
                                 (Some (start_index a)))]
             else elements)
              ++ [Marked a (slice originalText (start_index a)
                              (Some (end_index a)))],
            end_index a).
    apply IH; [lia|].
    apply Forall_app. split.
    + destruct (Z.gtb_spec (start_index a) lastIndex); [|exact Hels].
      apply Forall_app. split; [exact Hels|].
      constructor; [|constructor]. simpl.
      rewrite slice_piece by lia. apply piece_not_empty; lia.
    + constructor; [|constructor]. simpl.
      rewrite slice_piece by lia. apply piece_not_empty; lia.
Qed.

(** X14.  When every span lies inside the text and is not empty (the
    spans may overlap), [renderText] returns no empty element, and the
    text highlighted for an annotation has as many characters as its
    span: [end_index - start_index]. *)
Theorem no_element_is_empty
  (originalText : string) (annotations : list Annotation) :
  Forall (inside originalText) annotations ->
  Forall (fun e => content e <> "") (renderText originalText annotations)
  /\ Forall (fun hl =>
               Z.of_nat (String.length (snd hl))
               = end_index (fst hl) - start_index (fst hl))
       (highlighted (renderText originalText annotations)).
Proof.
  intros Hin.
  assert (Hin' : Forall (inside originalText) (sortAnnotations annotations))
    by (apply Forall_sortAnnotations, Hin).
  split.
  - unfold renderText.
    destruct (forEach_no_empty_element originalText _ Hin' [] 0)
      as [Hels Hlast]; [lia | constructor |].
    destruct (fold_left _ _ _) as [elements lastIndex]. cbn [fst snd] in *.
    destruct (Z.ltb_spec lastIndex (Z.of_nat (String.length originalText)));
      [|exact Hels].
    apply Forall_app. split; [exact Hels|].
    constructor; [|constructor]. simpl.
    rewrite slice_rest by lia. apply piece_not_empty; lia.
  - unfold renderText.
    destruct (forEach_highlights originalText (sortAnnotations annotations)
                [] 0) as [Hh _].
    destruct (fold_left _ _ _) as [elements lastIndex]. cbn [fst] in Hh.
    assert (Hall : Forall (fun hl =>
                             Z.of_nat (String.length (snd hl))
                             = end_index (fst hl) - start_index (fst hl))
                     (highlighted elements)).
    { rewrite Hh. simpl. apply Forall_forall. intros hl Hhl.
      apply in_map_iff in Hhl. destruct Hhl as (a & <- & Ha).
      rewrite Forall_forall in Hin'. destruct (Hin' a Ha) as (H0 & H1 & H2).
      simpl. rewrite slice_piece by lia. apply piece_length; lia. }
    destruct (lastIndex <? Z.of_nat (String.length originalText));
      [|exact Hall].
    rewrite highlighted_app. simpl. rewrite app_nil_r. exact Hall.
Qed.

End NoEmptyElement.

Lemma no_element_is_empty_witness :
  Forall (fun e => AnnotationView.content e <> "")
    (AnnotationView.renderText "He go to the school."
       [sampleSpan 3 8; sampleSpan 3 5])
  /\ Forall (fun hl =>
               Z.of_nat (String.length (snd hl))
               = end_index (fst hl) - start_index (fst hl))
       (highlighted
          (AnnotationView.renderText "He go to the school."
             [sampleSpan 3 8; sampleSpan 3 5])).
Proof.
  apply (no_element_is_empty "He go to the school."
           [sampleSpan 3 8; sampleSpan 3 5]).
  repeat constructor; simpl; lia.
Defined.

(** ** The history and the single analysis *)

Section HistoryFacts.
Import SupabaseHistory.
Variable database : nat -> Completion Response.
Variable typeError : Js.Error.

Lemma fetchHistory_fetched (log : Log) :
  fetchHistory database typeError log
  = (Normal (fst (fetched database typeError log)),
     snd (fetched database typeError log)).
Proof.
  unfold fetched.
  cbv beta iota delta [fetchHistory try_catch bind gets emit modify settle
                       throw ret].
  destruct (database (selects log)) as [response | err]; simpl;
    [|reflexivity].
  destruct (error response); [reflexivity|].
  destruct (data response); reflexivity.
Qed.

Lemma selects_app (l l' : Log) :
  selects (l ++ l') = (selects l + selects l')%nat.
Proof.
  induction l as [|e l IH]; simpl; [reflexivity|].
  destruct e; simpl; rewrite IH; reflexivity.
Qed.

Lemma fetched_selects (log : Log) :
  selects (snd (fetched database typeError log)) = S (selects log).
Proof.
  unfold fetched.
  destruct (database (selects log)) as [[[items|] [err|]] | err];
    cbn [fst snd error data]; rewrite !selects_app; simpl; lia.
Qed.

(** X15.  [fetchHistory] always completes normally and makes one query.
    It returns one record for every row of the answer, in the order of
    the answer, with no annotation for a row without [analysis_json];
    and it returns the empty list when the query rejects, resolves with
    an error, or resolves without data. *)
Theorem fetchHistory_never_throws (log : Log) :
  exists records log',
    fetchHistory database typeError log = (Normal records, log')
    /\ selects log' = S (selects log)
    /\ (forall items,
           database (selects log)
           = Normal {| data := Some items; error := None |} ->
           records = map toRecord items
           /\ log' = log ++ [Select])
    /\ ((forall items,
            database (selects log)
            <> Normal {| data := Some items; error := None |}) ->
        records = []).
Proof.
  exists (fst (fetched database typeError log)),
    (snd (fetched database typeError log)).
  split; [apply fetchHistory_fetched|].
  unfold fetched.
  destruct (database (selects log)) as [[[items|] [err|]] | err];
    cbn [fst snd error data]; rewrite !selects_app; simpl;
    (split; [lia|]); split; try (intros ? [=]); try reflexivity;
    try (intros; subst; split; reflexivity).
  intros H. exfalso. apply (H items). reflexivity.
Qed.

End HistoryFacts.

(** X16.  What was saved comes back: when a row of the history holds the
    columns [saveRecord] wrote for a result, [fetchHistory] maps it to a
    record on which a click shows that result again (same text, same
    correction, same annotations), with [error_count] the number of its
    annotations. *)
Theorem saved_result_comes_back_from_history
  (result : AnalysisResult) (item : SupabaseHistory.Item) (w : App.World) :
  holds item (rowOf result) ->
  App.currentResult
    (App.handleHistoryItemClick (SupabaseHistory.toRecord item) w)
  = Some result
  /\ App.viewMode
       (App.handleHistoryItemClick (SupabaseHistory.toRecord item) w)
     = App.single
  /\ SupabaseHistory.record_error_count (SupabaseHistory.toRecord item)
     = Some (Z.of_nat (List.length (annotations result))).
Proof.
  intros (Ho & Hc & Ha & He). unfold App.handleHistoryItemClick.
  simpl. rewrite Ho, Hc, Ha, He. destruct result; repeat split.
Qed.

Lemma saved_result_comes_back_from_history_witness :
  App.currentResult
    (App.handleHistoryItemClick
       (SupabaseHistory.toRecord
          {| SupabaseHistory.item_id := Some 7;
             SupabaseHistory.item_created_at := Some "2025-01-01";
             SupabaseHistory.item_original_text := "He go.";
             SupabaseHistory.item_corrected_text := "He goes.";
             SupabaseHistory.item_analysis_json := Some [sampleSpan 3 5];
             SupabaseHistory.item_error_count := Some 1 |})
       {| App.isAnalyzing := false; App.error := None;
          App.currentResult := None; App.history := [];
          App.showSettings := false; App.viewMode := App.history_view;
          App.api_base_url := None; App.requests := []; App.store := [];
          App.historyLog := [] |})
  = Some {| original_text := "He go."; corrected_text := "He goes.";
            annotations := [sampleSpan 3 5] |}
  /\ App.viewMode
       (App.handleHistoryItemClick
          (SupabaseHistory.toRecord
             {| SupabaseHistory.item_id := Some 7;
                SupabaseHistory.item_created_at := Some "2025-01-01";
                SupabaseHistory.item_original_text := "He go.";
                SupabaseHistory.item_corrected_text := "He goes.";
                SupabaseHistory.item_analysis_json := Some [sampleSpan 3 5];
                SupabaseHistory.item_error_count := Some 1 |})
          {| App.isAnalyzing := false; App.error := None;
             App.currentResult := None; App.history := [];
             App.showSettings := false; App.viewMode := App.history_view;
             App.api_base_url := None; App.requests := []; App.store := [];
             App.historyLog := [] |})
     = App.single
  /\ SupabaseHistory.record_error_count
       (SupabaseHistory.toRecord
          {| SupabaseHistory.item_id := Some 7;
             SupabaseHistory.item_created_at := Some "2025-01-01";
             SupabaseHistory.item_original_text := "He go.";
             SupabaseHistory.item_corrected_text := "He goes.";
             SupabaseHistory.item_analysis_json := Some [sampleSpan 3 5];
             SupabaseHistory.item_error_count := Some 1 |})
     = Some
         (Z.of_nat
            (List.length
               (annotations
                  {| original_text := "He go."; corrected_text := "He goes.";
                     annotations := [sampleSpan 3 5] |}))).
Proof.
  apply (saved_result_comes_back_from_history
           {| original_text := "He go."; corrected_text := "He goes.";
              annotations := [sampleSpan 3 5] |}).
  repeat split.
Defined.

Section BackendRequests.
Import GeminiService.
Variable hasWindow : bool.
Variable stored_api_base_url : option string.
Variable VITE_API_BASE_URL : option string.
Variable fetch : string -> string -> Completion Response.
Variable errorField : string -> option string.

Lemma analyzeText_requests (input : string) (log : Log) :
  snd (analyzeText hasWindow stored_api_base_url VITE_API_BASE_URL fetch
         errorField input log)
  = if truthy (getApiBaseUrl hasWindow stored_api_base_url
                 VITE_API_BASE_URL)
    then log ++ [Fetch (endpoint hasWindow stored_api_base_url
                          VITE_API_BASE_URL) input]
    else log.
Proof.
  unfold analyzeText, endpoint.
  destruct (truthy (getApiBaseUrl _ _ _)); cbn [negb]; [|reflexivity].
  cbv beta iota zeta delta [bind emit modify settle ret throw].
  destruct (fetch _ _) as [response | err]; [|reflexivity].
  destruct (ok response); cbn [negb]; [|reflexivity].
  destruct (json response); reflexivity.
Qed.

Lemma analyzeText_missing (input : string) (log : Log) :
  truthy (getApiBaseUrl hasWindow stored_api_base_url VITE_API_BASE_URL)
  = false ->
  analyzeText hasWindow stored_api_base_url VITE_API_BASE_URL fetch
    errorField input log
  = (Throw (newError "API URL is missing"), log).
Proof. intros H. unfold analyzeText. rewrite H. reflexivity. Qed.

End BackendRequests.

Section AppFacts.
Import App.
Variable VITE_API_BASE_URL : option string.
Variable fetch : string -> string -> Completion GeminiService.Response.
Variable errorField : string -> option string.
Variable insertInto :
  nat -> SupabaseClient.Row -> Completion SupabaseClient.Response.
Variable selectFrom : nat -> Completion SupabaseHistory.Response.
Variable typeError : Js.Error.

Local Abbreviation handle :=
  (handleAnalyze VITE_API_BASE_URL fetch errorField insertInto selectFrom
     typeError).
Local Abbreviation after :=
  (analysed VITE_API_BASE_URL fetch errorField insertInto selectFrom
     typeError).
Local Abbreviation call :=
  (GeminiService.analyzeText true).

Lemma handleAnalyze_blank (inputText : string) (w : World) :
  truthy (trim inputText) = false -> handle inputText w = (Normal tt, w).
Proof. intros H. unfold handleAnalyze. rewrite H. reflexivity. Qed.

Lemma handleAnalyze_analysed (inputText : string) (w : World) :
  truthy (trim inputText) = true ->
  handle inputText w = (Normal tt, after inputText w).
Proof.
  intros H. unfold handleAnalyze, analysed. rewrite H. cbn [negb].
  cbv beta iota zeta delta [try_finally try_catch bind modify analyze zoom
                            loadHistory ret].
  cbn [requests api_base_url setIsAnalyzing setError setCurrentResult
       setRequests store historyLog setStore setHistoryLog].
  destruct (call (api_base_url w) VITE_API_BASE_URL fetch errorField
              inputText (requests w)) as [[result | err] log];
    cbn [fst snd].
  - rewrite saveRecord_saved.
    rewrite fetchHistory_fetched. reflexivity.
  - destruct (messageIncludes "API URL" err); reflexivity.
Qed.

Lemma messageOr_not_empty (err : Js.Error) (fallback : string) :
  fallback <> "" -> messageOr err fallback <> "".
Proof.
  intros H. unfold messageOr. destruct (Js.message err) as [m|]; [|exact H].
  destruct m; simpl; [exact H | discriminate].
Qed.

(** X17.  [handleAnalyze] never rejects.  On a blank text it changes
    nothing.  Otherwise it ends with [isAnalyzing] off and either shows
    the result of the call, with no error, one more row handed to the
    store (that of the result) and one more query of the history; or
    shows no result and an error message that is not empty, with the
    store and the history left as they were. *)
Theorem single_analysis_always_settles (inputText : string) (w : World) :
  exists w',
    handle inputText w = (Normal tt, w')
    /\ (truthy (trim inputText) = false -> w' = w)
    /\ (truthy (trim inputText) = true ->
        isAnalyzing w' = false
        /\ viewMode w' = viewMode w
        /\ api_base_url w' = api_base_url w
        /\ ((exists result,
                fst (call (api_base_url w) VITE_API_BASE_URL fetch
                       errorField inputText (requests w))
                = Normal result
                /\ currentResult w' = Some result
                /\ error w' = None
                /\ showSettings w' = showSettings w
                /\ insertedRows (store w')
                   = insertedRows (store w) ++ [rowOf result]
                /\ SupabaseHistory.selects (historyLog w')
                   = S (SupabaseHistory.selects (historyLog w))
                /\ history w'
                   = fst (fetched selectFrom typeError (historyLog w)))
            \/ (exists err,
                   fst (call (api_base_url w) VITE_API_BASE_URL fetch
                          errorField inputText (requests w))
                   = Throw err
                   /\ currentResult w' = None
                   /\ (exists message,
                          error w' = Some message /\ message <> "")
                   /\ store w' = store w
                   /\ historyLog w' = historyLog w
                   /\ history w' = history w))).
Proof.
  destruct (truthy (trim inputText)) eqn:H.
  - exists (after inputText w).
    split; [apply handleAnalyze_analysed; exact H|].
    split; [discriminate|]. intros _. unfold analysed.
    destruct (call (api_base_url w) VITE_API_BASE_URL fetch errorField
                inputText (requests w)) as [[result | err] log];
      cbn [fst snd].
    + repeat (split; [reflexivity|]). left. exists result.
      repeat (split; [reflexivity|]).
      cbn [store setIsAnalyzing setHistory setHistoryLog setStore
           historyLog history].
      split; [apply saved_insertedRows|].
      split; [|reflexivity].
      apply fetched_selects.
    + assert (M : messageOr err "An error occurred during analysis." <> "")
        by (apply messageOr_not_empty; discriminate).
      destruct (messageIncludes "API URL" err);
        (repeat (split; [reflexivity|]); right; exists err;
         repeat (split; [reflexivity|]);
         split; [eexists; split; [reflexivity | exact M]|];
         repeat split).
  - exists w. split; [apply handleAnalyze_blank; exact H|].
    split; [reflexivity | discriminate].
Qed.

(** X18.  The address saved in the settings is the one the next analysis
    posts to: after [handleSaveApiUrl] on an address that is not blank,
    [handleAnalyze] makes exactly one request, to the trimmed address
    without its trailing slashes followed by ["/analyze"], with the text
    as typed.  After saving a blank address, with none built in, it
    makes no request, shows ["API URL is missing"] and opens the
    settings. *)
Theorem saved_address_is_the_one_posted_to
  (apiBaseUrl inputText : string) (w : World) :
  truthy (trim inputText) = true ->
  (truthy (trim apiBaseUrl) = true ->
   requests (snd (handle inputText (handleSaveApiUrl apiBaseUrl w)))
   = requests w
       ++ [GeminiService.Fetch
             (GeminiService.normalizeBaseUrl (trim apiBaseUrl) ++ "/analyze")
             inputText])
  /\ (truthy (trim apiBaseUrl) = false ->
      truthy (GeminiService.orEmpty VITE_API_BASE_URL) = false ->
      requests (snd (handle inputText (handleSaveApiUrl apiBaseUrl w)))
      = requests w
      /\ error (snd (handle inputText (handleSaveApiUrl apiBaseUrl w)))
         = Some "API URL is missing"
      /\ showSettings
           (snd (handle inputText (handleSaveApiUrl apiBaseUrl w)))
         = true
      /\ currentResult
           (snd (handle inputText (handleSaveApiUrl apiBaseUrl w)))
         = None
      /\ store (snd (handle inputText (handleSaveApiUrl apiBaseUrl w)))
         = store w).
Proof.
  intros Hin. rewrite (handleAnalyze_analysed _ _ Hin). cbn [snd]. split.
  - intros H.
    assert (R : requests (after inputText (handleSaveApiUrl apiBaseUrl w))
                = snd (call (Some (trim apiBaseUrl)) VITE_API_BASE_URL fetch
                         errorField inputText (requests w))).
    { unfold analysed, handleSaveApiUrl.
      cbn [api_base_url requests setError setShowSettings setApi_base_url].
      destruct (call _ _ _ _ _ _) as [[result | err] log]; cbn [fst snd];
        [reflexivity|].
      destruct (messageIncludes "API URL" err); reflexivity. }
    rewrite R, analyzeText_requests.
    unfold endpoint, GeminiService.getApiBaseUrl. cbn [andb].
    cbn [GeminiService.orEmpty]. rewrite H. cbv iota. rewrite H.
    reflexivity.
  - intros H Henv.
    assert (B : truthy (GeminiService.getApiBaseUrl true
                          (Some (trim apiBaseUrl)) VITE_API_BASE_URL)
                = false).
    { unfold GeminiService.getApiBaseUrl. cbn [andb].
      cbn [GeminiService.orEmpty]. rewrite H. exact Henv. }
    unfold analysed, handleSaveApiUrl.
    cbn [api_base_url requests setError setShowSettings setApi_base_url].
    rewrite (analyzeText_missing _ _ _ _ _ _ _ B). cbn [fst snd].
    repeat split.
Qed.

End AppFacts.

Lemma saved_address_is_the_one_posted_to_witness :
  truthy (trim "He go.") = true
  /\ truthy (trim " https://api.example// ") = true
  /\ App.requests
       (snd (App.handleAnalyze None
               (fun _ _ => Throw (newError "Failed to fetch"))
               (fun _ => None) (fun _ _ => Throw (newError "offline"))
               (fun _ => Throw (newError "offline")) (newError "TypeError")
               "He go."
               (App.handleSaveApiUrl " https://api.example// " freshApp)))
     = [GeminiService.Fetch "https://api.example/analyze" "He go."].
Proof.
  split; [reflexivity|]. split; [reflexivity|].
  apply (proj1 (saved_address_is_the_one_posted_to None
                  (fun _ _ => Throw (newError "Failed to fetch"))
                  (fun _ => None) (fun _ _ => Throw (newError "offline"))
                  (fun _ => Throw (newError "offline")) (newError "TypeError")
                  " https://api.example// " "He go." freshApp
                  eq_refl)).
  reflexivity.
Defined.

(** ** The statistics *)

Section ObjectFacts.
Import JsObject.

Lemma own_set (o : Object) (k : string) (v : Z) (k' : string) :
  own (set o k v) k' = if String.eqb k k' then Some v else own o k'.
Proof.
  induction o as [|[j x] o IH]; simpl.
  - reflexivity.
  - destruct (String.eqb_spec j k) as [->|Hjk]; simpl.
    + destruct (String.eqb_spec k k'); reflexivity.
    + rewrite IH. destruct (String.eqb_spec j k') as [->|]; [|reflexivity].
      destruct (String.eqb_spec k k'); [congruence | reflexivity].
Qed.

Lemma own_None (o : Object) (k : string) :
  own o k = None <-> ~ In k (map fst o).
Proof.
  induction o as [|[j x] o IH]; simpl; [tauto|].
  destruct (String.eqb_spec j k) as [->|Hjk].
  - split; [discriminate | tauto].
  - rewrite IH. tauto.
Qed.

Lemma own_In (o : Object) (k : string) (v : Z) :
  NoDup (map fst o) -> In (k, v) o <-> own o k = Some v.
Proof.
  induction o as [|[j x] o IH]; simpl; intros Hnd.
  - split; [tauto | discriminate].
  - inversion Hnd as [|? ? Hj Ho]; subst.
    destruct (String.eqb_spec j k) as [->|Hjk].
    + split.
      * intros [E | Hin]; [congruence|].
        exfalso. apply Hj. apply in_map_iff. exists (k, v). auto.
      * intros [= ->]. left. reflexivity.
    + rewrite <- (IH Ho). split; [|tauto].
      intros [E | Hin]; [congruence | exact Hin].
Qed.

Lemma keys_set (o : Object) (k : string) (v : Z) :
  map fst (set o k v)
  = match own o k with
    | Some _ => map fst o
    | None => map fst o ++ [k]
    end.
Proof.
  induction o as [|[j x] o IH]; simpl; [reflexivity|].
  destruct (String.eqb_spec j k) as [->|Hjk]; simpl; [reflexivity|].
  rewrite IH. destruct (own o k); reflexivity.
Qed.

Lemma NoDup_set (o : Object) (k : string) (v : Z) :
  NoDup (map fst o) -> NoDup (map fst (set o k v)).
Proof.
  intros H. rewrite keys_set. destruct (own o k) eqn:E; [exact H|].
  apply (Permutation_NoDup (Permutation_cons_append _ _)).
  constructor; [apply own_None, E | exact H].
Qed.

Lemma sumOf_set (o : Object) (k : string) (v : Z) :
  sumOf (set o k v) = sumOf o - counted o k + v.
Proof.
  unfold sumOf, counted.
  induction o as [|[j x] o IH]; simpl; [lia|].
  destruct (String.eqb_spec j k) as [->|Hjk]; simpl; [lia|].
  rewrite IH. lia.
Qed.

Lemma place_Permutation (i : N) (e : string * Z)
  (l : list (N * (string * Z))) :
  Permutation (map snd (place i e l)) (e :: map snd l).
Proof.
  induction l as [|[j f] l IH]; simpl; [reflexivity|].
  destruct (i <=? j)%N; simpl; [reflexivity|].
  rewrite IH. apply perm_swap.
Qed.

Lemma entries_Permutation (o : Object) : Permutation (entries o) o.
Proof.
  unfold entries. induction o as [|e o IH]; [reflexivity|].
  cbn [indexed named fold_right filter]. fold (indexed o). fold (named o).
  destruct (arrayIndex (fst e)) as [i|].
  - rewrite place_Permutation. simpl. apply perm_skip, IH.
  - rewrite <- Permutation_middle. apply perm_skip, IH.
Qed.

End ObjectFacts.

Section DataFacts.
Import JsObject StatsSummary.

Lemma insertDatum_Permutation (a : Datum) (l : list Datum) :
  Permutation (insert a l) (a :: l).
Proof.
  induction l as [|b l IH]; simpl; [reflexivity|].
  destruct (value b - value a <=? 0); [reflexivity|].
  rewrite IH. apply perm_swap.
Qed.

Lemma sortByValue_Permutation (l : list Datum) :
  Permutation (sortByValue l) l.
Proof.
  induction l as [|a l IH]; simpl; [reflexivity|].
  rewrite insertDatum_Permutation. apply perm_skip, IH.
Qed.

Lemma insertDatum_sorted (a : Datum) (l : list Datum) :
  StronglySorted noSmaller l -> StronglySorted noSmaller (insert a l).
Proof.
  induction 1 as [|b l Hl IH Hb]; simpl.
  - repeat constructor.
  - destruct (Z.leb_spec (value b - value a) 0).
    + constructor; [constructor; assumption|].
      constructor; [unfold noSmaller; lia|].
      eapply Forall_impl; [|exact Hb].
      unfold noSmaller. intros x Hx. lia.
    + constructor; [exact IH|].
      eapply Permutation_Forall;
        [symmetry; apply insertDatum_Permutation|].
      constructor; [unfold noSmaller; lia | exact Hb].
Qed.

Lemma sortByValue_sorted (l : list Datum) :
  StronglySorted noSmaller (sortByValue l).
Proof.
  induction l as [|a l IH]; simpl; [constructor|].
  apply insertDatum_sorted, IH.
Qed.

Lemma withValue_insert (v : Z) (a : Datum) (l : list Datum) :
  withValue v (insert a l) = withValue v (a :: l).
Proof.
  unfold withValue.
  induction l as [|b l IH]; [reflexivity|].
  cbn [insert]. destruct (Z.leb_spec (value b - value a) 0);
    [reflexivity|].
  cbn [filter] in *. rewrite IH.
  destruct (Z.eqb_spec (value a) v), (Z.eqb_spec (value b) v);
    try reflexivity.
  lia.
Qed.

Lemma toData_Permutation (counts : Object) :
  Permutation (toData counts) (map datum counts).
Proof.
  unfold toData. rewrite sortByValue_Permutation.
  apply (Permutation_map datum), entries_Permutation.
Qed.

Lemma sumValues_Permutation (l l' : list Datum) :
  Permutation l l' -> sumValues l = sumValues l'.
Proof.
  unfold sumValues. induction 1; simpl; lia.
Qed.

Lemma sumValues_toData (counts : Object) :
  sumValues (toData counts) = sumOf counts.
Proof.
  rewrite (sumValues_Permutation _ _ (toData_Permutation counts)).
  unfold sumValues, sumOf. rewrite map_map. reflexivity.
Qed.

Lemma names_toData (counts : Object) :
  Permutation (map name (toData counts)) (map fst counts).
Proof.
  rewrite (Permutation_map name (toData_Permutation counts)).
  rewrite map_map. reflexivity.
Qed.

Lemma In_toData (counts : Object) (d : Datum) :
  In d (toData counts) <-> In (name d, value d) counts.
Proof.
  split.
  - intros H. apply (Permutation_in _ (toData_Permutation counts)) in H.
    apply in_map_iff in H. destruct H as ([k v] & <- & H). exact H.
  - intros H.
    apply (Permutation_in _ (Permutation_sym (toData_Permutation counts))).
    apply in_map_iff. exists (name d, value d).
    split; [destruct d; reflexivity | exact H].
Qed.

(** X19.  The data of a chart are the entries of the counters sorted by
    descending value, and the sort is stable: entries with the same value
    keep the order [Object.entries] gave them. *)
Theorem chart_data_are_sorted_by_descending_value (counts : Object) :
  StronglySorted noSmaller (toData counts)
  /\ Permutation (toData counts) (map datum counts)
  /\ forall v,
       withValue v (toData counts)
       = withValue v (map datum (entries counts)).
Proof.
  split; [apply sortByValue_sorted|].
  split; [apply toData_Permutation|].
  intros v. unfold toData, datum.
  induction (map _ (entries counts)) as [|a l IH]; [reflexivity|].
  cbn [sortByValue fold_right]. fold (sortByValue l).
  rewrite withValue_insert. unfold withValue in *. cbn [filter].
  rewrite IH. reflexivity.
Qed.

End DataFacts.

Section CountFacts.
Import JsObject StatsSummary.
Variable inherited : string -> bool.

Lemma increment_plain (counts : Object) (key : string) :
  inherited key = false ->
  increment inherited counts key
  = Some (set counts key (counted counts key + 1)).
Proof.
  intros H. unfold increment, get, counted.
  destruct (own counts key) as [n|].
  - destruct (Z.eqb_spec n 0); subst; reflexivity.
  - rewrite H. reflexivity.
Qed.

Lemma occurrences_cons (code : Annotation -> string) (key : string)
  (a : Annotation) (l : list Annotation) :
  occurrences code key (a :: l)
  = (if String.eqb (code a) key then 1 else 0) + occurrences code key l.
Proof.
  unfold occurrences. cbn [filter].
  destruct (String.eqb (code a) key); cbn [List.length]; lia.
Qed.

Lemma occurrences_nonneg (code : Annotation -> string) (key : string)
  (l : list Annotation) : 0 <= occurrences code key l.
Proof. unfold occurrences. lia. Qed.

Lemma countAll_counts (code : Annotation -> string)
  (annotations : list Annotation) :
  Forall (fun ann => inherited (code ann) = false) annotations ->
  forall counts,
  exists counts',
    countAll inherited code annotations counts = Some counts'
    /\ (NoDup (map fst counts) -> NoDup (map fst counts'))
    /\ sumOf counts' = sumOf counts + Z.of_nat (List.length annotations)
    /\ forall key,
         own counts' key
         = if occurrences code key annotations =? 0 then own counts key
           else Some (counted counts key + occurrences code key annotations).
Proof.
  induction 1 as [|a l Ha Hl IH]; intros counts.
  - exists counts. repeat split; [auto | simpl; lia].
  - cbn [countAll]. rewrite (increment_plain _ _ Ha).
    destruct (IH (set counts (code a) (counted counts (code a) + 1)))
      as (counts' & E & Hnd & Hsum & Hown).
    exists counts'. split; [exact E|].
    split; [intros H; apply Hnd, NoDup_set, H|].
    split.
    + rewrite Hsum, sumOf_set. cbn [List.length]. lia.
    + intros key. rewrite Hown, occurrences_cons.
      pose proof (occurrences_nonneg code key l) as Hpos.
      unfold counted. rewrite !own_set.
      destruct (String.eqb_spec (code a) key) as [->|Hne];
        destruct (Z.eqb_spec (occurrences code key l) 0) as [E0|E0].
      * rewrite E0. cbn. unfold counted. reflexivity.
      * destruct (Z.eqb_spec (1 + occurrences code key l) 0); [lia|].
        f_equal. unfold counted. lia.
      * rewrite E0. reflexivity.
      * destruct (Z.eqb_spec (0 + occurrences code key l) 0); [lia|].
        reflexivity.
Qed.

Lemma countAll_countsEvery (code : Annotation -> string)
  (annotations : list Annotation) :
  Forall (fun ann => inherited (code ann) = false) annotations ->
  exists counts,
    countAll inherited code annotations [] = Some counts
    /\ countsEvery code annotations (toData counts).
Proof.
  intros H.
  destruct (countAll_counts code annotations H [])
    as (counts & E & Hnd & Hsum & Hown).
  exists counts. split; [exact E|].
  assert (Hkeys : NoDup (map fst counts)) by (apply Hnd; constructor).
  split; [rewrite sumValues_toData, Hsum; reflexivity|].
  split.
  - apply (Permutation_NoDup (Permutation_sym (names_toData counts))).
    exact Hkeys.
  - intros d. rewrite In_toData, (own_In _ _ _ Hkeys), Hown.
    pose proof (occurrences_nonneg code (name d) annotations) as Hpos.
    cbn [own counted].
    destruct (Z.eqb_spec (occurrences code (name d) annotations) 0).
    + split; [discriminate | lia].
    + split; [intros [= <-]; lia | intros [_ ->]; f_equal; lia].
Qed.

Lemma countAll_app (code : Annotation -> string)
  (l l' : list Annotation) (counts : Object) :
  countAll inherited code (l ++ l') counts
  = match countAll inherited code l counts with
    | Some counts => countAll inherited code l' counts
    | None => None
    end.
Proof.
  revert counts. induction l as [|a l IH]; intros counts; [reflexivity|].
  cbn [app countAll].
  destruct (increment inherited counts (code a)); [apply IH | reflexivity].
Qed.

Lemma forEach_countAll (annotations : list Annotation)
  (macroCounts microCounts : Object) :
  forEach inherited annotations (macroCounts, microCounts)
  = match countAll inherited macro_code annotations macroCounts,
          countAll inherited error_code annotations microCounts with
    | Some macroCounts, Some microCounts => Some (macroCounts, microCounts)
    | _, _ => None
    end.
Proof.
  revert macroCounts microCounts.
  induction annotations as [|a l IH]; intros m e; [reflexivity|].
  cbn [forEach countAll]. unfold countAnnotation.
  destruct (increment inherited m (macro_code a)) as [m'|];
    destruct (increment inherited e (error_code a)) as [e'|];
    try reflexivity.
  - apply IH.
  - destruct (countAll inherited macro_code l m'); reflexivity.
Qed.

(** X20.  When no code is a name of [Object.prototype], the statistics of
    [StatsSummary] count every annotation once under its macro code and
    once under its error code: [total] is the number of the annotations,
    each chart has one entry for every code that occurs, with the number
    of annotations that have it, and the values of each chart add up to
    [total]. *)
Theorem summary_counts_every_annotation_once
  (annotations : list Annotation) :
  plainCodes inherited annotations ->
  exists s,
    stats inherited annotations = Some s
    /\ total s = Z.of_nat (List.length annotations)
    /\ countsEvery macro_code annotations (macroData s)
    /\ countsEvery error_code annotations (microData s).
Proof.
  intros H. unfold plainCodes in H.
  assert (Hm : Forall (fun ann => inherited (macro_code ann) = false)
                 annotations)
    by (eapply Forall_impl; [|exact H]; intros a [Ha _]; exact Ha).
  assert (He : Forall (fun ann => inherited (error_code ann) = false)
                 annotations)
    by (eapply Forall_impl; [|exact H]; intros a [_ Ha]; exact Ha).
  destruct (countAll_countsEvery macro_code annotations Hm)
    as (m & Em & Hmacro).
  destruct (countAll_countsEvery error_code annotations He)
    as (e & Ee & Hmicro).
  unfold stats. rewrite forEach_countAll, Em, Ee.
  eexists. split; [reflexivity|]. cbn [total macroData microData].
  split; [reflexivity|]. split; assumption.
Qed.

End CountFacts.

Lemma summary_counts_every_annotation_once_witness :
  plainCodes objectPrototype [sampleSpan 0 2; sampleSpan 3 5]
  /\ exists s,
       StatsSummary.stats objectPrototype [sampleSpan 0 2; sampleSpan 3 5]
       = Some s
       /\ StatsSummary.total s
          = Z.of_nat (List.length [sampleSpan 0 2; sampleSpan 3 5])
       /\ countsEvery macro_code [sampleSpan 0 2; sampleSpan 3 5]
            (StatsSummary.macroData s)
       /\ countsEvery error_code [sampleSpan 0 2; sampleSpan 3 5]
            (StatsSummary.microData s).
Proof.
  assert (H : plainCodes objectPrototype [sampleSpan 0 2; sampleSpan 3 5])
    by (repeat constructor).
  split; [exact H|].
  apply (summary_counts_every_annotation_once objectPrototype
           [sampleSpan 0 2; sampleSpan 3 5] H).
Defined.

Section ViewFacts.
Import JsObject SupabaseHistory StatisticsView.
Variable inherited : string -> bool.

Lemma forEachAnnotation_countAll (annotations : list Annotation)
  (acc : Counters) :
  forEachAnnotation inherited annotations acc
  = match countAll inherited error_code annotations (errorCodeCounts acc),
          countAll inherited macro_code annotations (macroCodeCounts acc)
    with
    | Some errorCodeCounts, Some macroCodeCounts =>
        Some {| errors := errors acc;
                errorCodeCounts := errorCodeCounts;
                macroCodeCounts := macroCodeCounts |}
    | _, _ => None
    end.
Proof.
  revert acc. induction annotations as [|a l IH]; intros acc.
  - destruct acc; reflexivity.
  - cbn [forEachAnnotation countAll]. unfold countAnnotation.
    destruct (StatsSummary.increment inherited (errorCodeCounts acc)
                (error_code a)) as [e'|];
      destruct (StatsSummary.increment inherited (macroCodeCounts acc)
                  (macro_code a)) as [m'|];
      try reflexivity.
    + rewrite IH. reflexivity.
    + destruct (countAll inherited error_code l e'); reflexivity.
Qed.

Lemma forEachRecord_countAll (records : list DatabaseRecord)
  (acc : Counters) :
  forEachRecord inherited records acc
  = match countAll inherited error_code (allAnnotations records)
            (errorCodeCounts acc),
          countAll inherited macro_code (allAnnotations records)
            (macroCodeCounts acc)
    with
    | Some errorCodeCounts, Some macroCodeCounts =>
        Some {| errors :=
                  errors acc
                  + Z.of_nat (List.length (allAnnotations records));
                errorCodeCounts := errorCodeCounts;
                macroCodeCounts := macroCodeCounts |}
    | _, _ => None
    end.
Proof.
  unfold allAnnotations.
  revert acc. induction records as [|r l IH]; intros acc.
  - destruct acc; simpl. rewrite Z.add_0_r. reflexivity.
  - cbn [forEachRecord flat_map]. unfold countRecord.
    rewrite forEachAnnotation_countAll, !countAll_app.
    cbn [errors errorCodeCounts macroCodeCounts].
    destruct (countAll inherited error_code (record_annotations r)
                (errorCodeCounts acc)) as [e'|];
      destruct (countAll inherited macro_code (record_annotations r)
                  (macroCodeCounts acc)) as [m'|];
      try reflexivity.
    + rewrite IH. cbn [errors errorCodeCounts macroCodeCounts].
      destruct (countAll inherited error_code _ e'); [|reflexivity].
      destruct (countAll inherited macro_code _ m'); [|reflexivity].
      rewrite length_app. do 2 f_equal. lia.
    + destruct (countAll inherited error_code _ e'); reflexivity.
Qed.

(** X21.  With all the records selected, the statistics of
    [StatisticsView] are those [StatsSummary] computes on all the
    annotations of the history taken together: the same total, the same
    chart of macro codes, and the first ten entries of its chart of
    error codes. *)
Theorem combined_statistics_are_the_summary_of_all_annotations
  (history : list DatabaseRecord) :
  stats inherited (filteredHistory "all" history)
  = match StatsSummary.stats inherited (allAnnotations history) with
    | Some summary =>
        Some {| totalRecords := Z.of_nat (List.length history);
                totalErrors := StatsSummary.total summary;
                topErrorCodes := firstn 10 (StatsSummary.microData summary);
                macroCodeData := StatsSummary.macroData summary |}
    | None => None
    end.
Proof.
  change (filteredHistory "all" history) with history.
  unfold stats, StatsSummary.stats.
  rewrite forEachRecord_countAll, forEach_countAll.
  cbn [errors errorCodeCounts macroCodeCounts].
  destruct (countAll inherited error_code (allAnnotations history) []);
    destruct (countAll inherited macro_code (allAnnotations history) []);
    reflexivity.
Qed.

Lemma sorted_app (l1 l2 : list StatsSummary.Datum) :
  StronglySorted noSmaller (l1 ++ l2) ->
  forall a b, In a l1 -> In b l2 -> noSmaller a b.
Proof.
  induction l1 as [|x l1 IH]; intros H a b Ha Hb; [destruct Ha|].
  cbn [app] in H. inversion H as [|? ? Hs Hx]; subst.
  destruct Ha as [<- | Ha].
  - apply (proj1 (Forall_forall _ _) Hx). apply in_or_app. right. exact Hb.
  - apply (IH Hs a b Ha Hb).
Qed.

(** X22.  When no code is a name of [Object.prototype], the statistics of
    a selection exist, [totalErrors] is the number of its annotations and
    the sum of the chart of macro codes, and the chart of error codes
    shows at most ten codes, each with the number of annotations that
    have it: a code that occurs and is not shown occurs no more often
    than any code shown. *)
Theorem top_error_codes_are_the_most_frequent
  (records : list DatabaseRecord) :
  plainCodes inherited (allAnnotations records) ->
  exists s,
    stats inherited records = Some s
    /\ totalRecords s = Z.of_nat (List.length records)
    /\ totalErrors s = Z.of_nat (List.length (allAnnotations records))
    /\ countsEvery macro_code (allAnnotations records) (macroCodeData s)
    /\ (List.length (topErrorCodes s) <= 10)%nat
    /\ (forall d,
           In d (topErrorCodes s) ->
           0 < StatsSummary.value d
           /\ StatsSummary.value d
              = occurrences error_code (StatsSummary.name d)
                  (allAnnotations records))
    /\ (forall key,
           0 < occurrences error_code key (allAnnotations records) ->
           In {| StatsSummary.name := key;
                 StatsSummary.value :=
                   occurrences error_code key (allAnnotations records) |}
             (topErrorCodes s)
           \/ forall d,
                In d (topErrorCodes s) ->
                occurrences error_code key (allAnnotations records)
                <= StatsSummary.value d).
Proof.
  intros H. unfold plainCodes in H.
  assert (Hm : Forall (fun ann => inherited (macro_code ann) = false)
                 (allAnnotations records))
    by (eapply Forall_impl; [|exact H]; intros a [Ha _]; exact Ha).
  assert (He : Forall (fun ann => inherited (error_code ann) = false)
                 (allAnnotations records))
    by (eapply Forall_impl; [|exact H]; intros a [_ Ha]; exact Ha).
  destruct (countAll_countsEvery inherited macro_code _ Hm)
    as (m & Em & Hmacro).
  destruct (countAll_countsEvery inherited error_code _ He)
    as (e & Ee & Hsum & Hnd & Hmicro).
  unfold stats. rewrite forEachRecord_countAll.
  cbn [errors errorCodeCounts macroCodeCounts]. rewrite Em, Ee.
  eexists. split; [reflexivity|].
  cbn [totalRecords totalErrors topErrorCodes macroCodeData].
  split; [reflexivity|]. split; [reflexivity|]. split; [exact Hmacro|].
  split; [apply firstn_le_length|].
  split.
  - intros d Hd. apply Hmicro.
    rewrite <- (firstn_skipn 10 (StatsSummary.toData e)).
    apply in_or_app. left. exact Hd.
  - intros key Hkey.
    set (d0 := {| StatsSummary.name := key;
                  StatsSummary.value :=
                    occurrences error_code key (allAnnotations records) |}).
    assert (Hin : In d0 (StatsSummary.toData e))
      by (apply Hmicro; split; [exact Hkey | reflexivity]).
    rewrite <- (firstn_skipn 10 (StatsSummary.toData e)) in Hin.
    apply in_app_or in Hin. destruct Hin as [Hin | Hin]; [left; exact Hin|].
    right. intros d Hd.
    assert (Hs : StronglySorted noSmaller
                   (firstn 10 (StatsSummary.toData e)
                    ++ skipn 10 (StatsSummary.toData e))).
    { rewrite firstn_skipn. apply sortByValue_sorted. }
    apply (sorted_app _ _ Hs d d0 Hd Hin).
Qed.

End ViewFacts.

Section SelectionFacts.
Import SupabaseHistory StatisticsView.

Lemma to_int_proper (id : Z) :
  Z.to_int id <> Decimal.Pos Decimal.Nil
  /\ Z.to_int id <> Decimal.Neg Decimal.Nil.
Proof.
  destruct id as [|p|p]; simpl; split; try discriminate;
    intros [= E]; exact (DecimalPos.Unsigned.to_uint_nonnil p E).
Qed.

Lemma toString_read (id : Z) :
  DecimalString.NilZero.int_of_string (toString id) = Some (Z.to_int id).
Proof.
  unfold toString. destruct (to_int_proper id) as [Hp Hn].
  apply DecimalString.NilZero.isi; assumption.
Qed.

Lemma toString_inj (i j : Z) : toString i = toString j -> i = j.
Proof.
  intros E. apply DecimalZ.to_int_inj.
  pose proof (toString_read i) as Hi. rewrite E, toString_read in Hi.
  congruence.
Qed.

Lemma toString_not_all (id : Z) : String.eqb (toString id) "all" = false.
Proof.
  destruct (String.eqb_spec (toString id) "all") as [E|]; [|reflexivity].
  pose proof (toString_read id) as H. rewrite E in H. discriminate H.
Qed.

(** X23.  Selecting the entry of a record in [StatisticsView] keeps
    exactly the records with that id, in their order: the numeral of an
    id is never ["all"], and two ids with the same numeral are the same
    id.  Records without an id are shown only with all of them. *)
Theorem selecting_an_id_keeps_the_records_with_that_id
  (id : Z) (history : list DatabaseRecord) :
  filteredHistory (toString id) history = withId id history.
Proof.
  unfold filteredHistory, withId. rewrite toString_not_all.
  apply filter_ext. intros h. destruct (record_id h) as [i|]; [|reflexivity].
  destruct (Z.eqb_spec i id) as [->|Hne].
  - apply String.eqb_refl.
  - apply String.eqb_neq. intros E. apply Hne, toString_inj, E.
Qed.

End SelectionFacts.

(** ** The backend *)

Section ServerFacts.
Import Server.
Variable Json : Type.
Variable generateContent : nat -> string -> Completion (option string).
Variable JSON_parse : string -> Completion Json.

Lemma replies_app (l l' : Log Json) :
  replies Json (l ++ l') = replies Json l ++ replies Json l'.
Proof.
  induction l as [|e l IH]; simpl; [reflexivity|].
  destruct e; simpl; rewrite ?IH; reflexivity.
Qed.

Lemma prompts_app (l l' : Log Json) :
  prompts Json (l ++ l') = prompts Json l ++ prompts Json l'.
Proof.
  induction l as [|e l IH]; simpl; [reflexivity|].
  destruct e; simpl; rewrite ?IH; reflexivity.
Qed.

Lemma app_one_inv {A} (l : list A) (x : A) : l ++ [x] <> l.
Proof.
  intros E. apply (f_equal (@List.length A)) in E.
  rewrite length_app in E. simpl in E. lia.
Qed.

(** The goals every case of the handler leaves: the reply is in the
    log, the model was called for [t], and the reply is a failure. *)
Ltac answered status :=
  eexists status, _, _; split; [reflexivity|];
  rewrite ?replies_app, ?prompts_app; simpl; rewrite ?app_nil_r;
  split; [reflexivity|]; split; [auto|].

Ltac called t :=
  split;
  [split; [discriminate | intros E; exfalso; exact (app_one_inv _ _ E)]|];
  split; [intros _; exists t; repeat split; discriminate|].

Ltac failure :=
  split; [split; [discriminate | intros [? [=]]]|]; intros ? [=].

(** X24.  The handler of [POST /analyze] never throws and answers every
    request once, with status 200, 400, 502 or 500.  It answers 400
    exactly when it has not called the model, which it calls at most
    once and only for a text that is a string and not empty; it answers
    200 exactly when it sends a result, which is then the parsed text of
    the model's response; and the [error] of any other answer is never
    empty. *)
Theorem every_request_is_answered_once (text : TextField) (log : Log Json) :
  exists status body log',
    analyze Json generateContent JSON_parse text log = (Normal tt, log')
    /\ replies Json log' = replies Json log ++ [(status, body)]
    /\ (status = 200 \/ status = 400 \/ status = 502 \/ status = 500)
    /\ (forall error, body = Failure Json error -> error <> "")
    /\ (status = 400 <-> prompts Json log' = prompts Json log)
    /\ (status <> 400 ->
        exists s,
          text = Text s /\ s <> ""
          /\ prompts Json log' = prompts Json log ++ [prompt s])
    /\ (status = 200 <-> exists result, body = Result Json result)
    /\ (forall result,
           body = Result Json result ->
           exists s jsonText,
             text = Text s
             /\ generateContent (calls Json log) (prompt s)
                = Normal (Some jsonText)
             /\ jsonText <> ""
             /\ JSON_parse jsonText = Normal result).
Proof.
  assert (M : missingText <> "") by discriminate.
  assert (F : forall e, App.messageOr e "Vertex AI error." <> "")
    by (intros e; apply messageOr_not_empty; discriminate).
  destruct text as [|s]; [|destruct s as [|c s]].
  1, 2: answered 400; (split; [intros ? [= <-]; exact M|]);
    (split; [tauto|]); (split; [congruence|]); failure.
  unfold analyze. cbn [truthy negb].
  cbv beta iota zeta delta [try_catch bind gets emit modify settle ret].
  set (t := String c s).
  destruct (generateContent (calls Json log) (prompt t))
    as [[[|d j]|] | err] eqn:G; cbn [truthy negb].
  - answered 502. split; [intros ? [= <-]; discriminate|].
    called t. failure.
  - destruct (JSON_parse (String d j)) as [result | err] eqn:P.
    + answered 200. split; [intros ? [=]|]. called t.
      split; [split; [intros _; eexists; reflexivity | reflexivity]|].
      intros r [= <-]. exists t, (String d j).
      repeat split; [exact G | discriminate | exact P].
    + answered 500. split; [intros ? [= <-]; apply F|]. called t. failure.
  - answered 502. split; [intros ? [= <-]; discriminate|].
    called t. failure.
  - answered 500. split; [intros ? [= <-]; apply F|]. called t. failure.
Qed.

End ServerFacts.

Lemma top_error_codes_are_the_most_frequent_witness :
  plainCodes objectPrototype (allAnnotations [sampleRecord])
  /\ exists s,
       StatisticsView.stats objectPrototype [sampleRecord] = Some s
       /\ StatisticsView.totalRecords s = 1
       /\ StatisticsView.totalErrors s = 2
       /\ StatisticsView.topErrorCodes s
          = [{| StatsSummary.name := "AGV"; StatsSummary.value := 2 |}].
Proof.
  assert (H : plainCodes objectPrototype (allAnnotations [sampleRecord]))
    by (repeat constructor).
  split; [exact H|].
  destruct (top_error_codes_are_the_most_frequent objectPrototype
              [sampleRecord] H)
    as (s & E & Hrecords & Herrors & _).
  exists s. split; [exact E|]. split; [exact Hrecords|].
  split; [exact Herrors|].
  vm_compute in E. injection E as <-. reflexivity.
Defined.
